(** * crmbackend: lead status, access scoping and call aggregation

    A shallow embedding of the request handlers of the CRM backend
    (controllers/callController.js, controllers/leadController.js, the
    validation chains of routes/calls.js and routes/leads.js, and the
    Lead and Call schemas), with the MongoDB collections as an explicit
    store that every handler threads through.

    Conventions.
    - A JavaScript value that may be [undefined] is an [option]; the
      string fields of a request body are [option string].
    - A string is the sequence of its UTF-16 code units, each of them
      below 256: [String.length] is JavaScript's [length].
    - An ObjectId is its 24-digit lower-case hexadecimal rendering.
    - Instants are milliseconds since the epoch ([Z]); the label
      'YYYY-MM-DD' of a UTC calendar day is represented by the number of
      that day since the epoch, whose order is the order of the labels.
    - A JavaScript Number that takes part in floating-point arithmetic is
      a binary64 [float].
    - Every awaited database operation may throw; which ones do is read
      from the environment ([fails]). *)

From Stdlib Require Import ZArith String Ascii List Bool Lia.
From Stdlib Require Import PrimFloat SpecFloat FloatOps FloatAxioms Uint63.
From Stdlib Require Import DecimalN DecimalString.
From stdpp Require Import base option list gmap strings sorting.

Local Open Scope Z_scope.
Local Open Scope string_scope.

(** ** JavaScript and driver helpers *)

Module Js.

(** [!!v] for a string that may be undefined. *)
Definition truthy (v : option string) : bool :=
  match v with
  | Some s => negb (s =? "")
  | None => false
  end.

(** [v || d] for an integer that may be undefined (0 is falsy). *)
Definition orDefault (v : option Z) (d : Z) : Z :=
  match v with
  | Some n => if (n =? 0)%Z then d else n
  | None => d
  end.

(** [xs.includes(s)] *)
Definition includes (xs : list string) (s : string) : bool :=
  existsb (String.eqb s) xs.

(** The white space [trim] strips, among the units below 256: tab to
    carriage return, space and no-break space. *)
Definition isSpace (c : ascii) : bool :=
  let n := nat_of_ascii c in
  ((n =? 32) || ((9 <=? n) && (n <=? 13)) || (n =? 160))%nat.

Fixpoint trimStart (s : string) : string :=
  match s with
  | String c r => if isSpace c then trimStart r else s
  | EmptyString => EmptyString
  end.

Fixpoint trimEnd (s : string) : string :=
  match s with
  | String c r =>
      match trimEnd r with
      | EmptyString => if isSpace c then EmptyString else String c EmptyString
      | r' => String c r'
      end
  | EmptyString => EmptyString
  end.

Definition trim (s : string) : string := trimEnd (trimStart s).

End Js.

Module ObjectId.

Definition isDigit (c : ascii) : bool :=
  let n := nat_of_ascii c in ((48 <=? n) && (n <=? 57))%nat.
Definition isLowerHex (c : ascii) : bool :=
  let n := nat_of_ascii c in ((97 <=? n) && (n <=? 102))%nat.
Definition isUpperHex (c : ascii) : bool :=
  let n := nat_of_ascii c in ((65 <=? n) && (n <=? 70))%nat.
Definition isHex (c : ascii) : bool :=
  isDigit c || isLowerHex c || isUpperHex c.

Definition lower (c : ascii) : ascii :=
  if isUpperHex c then ascii_of_nat (nat_of_ascii c + 32) else c.

Fixpoint allHex (s : string) : bool :=
  match s with
  | String c r => isHex c && allHex r
  | EmptyString => true
  end.

Fixpoint lowerAll (s : string) : string :=
  match s with
  | String c r => String (lower c) (lowerAll r)
  | EmptyString => EmptyString
  end.

(** [[0-9A-F]+] under the flag [i]. *)
Definition hexDigits (s : string) : bool := negb (s =? "") && allHex s.

(** The prefix [0x] or [0h], in either case. *)
Definition isPrefix (a b : ascii) : bool :=
  let n := nat_of_ascii b in
  Ascii.eqb a "0" && ((n =? 120) || (n =? 88) || (n =? 104) || (n =? 72))%nat.


(** validator.js [isHexadecimal], [/^(0x|0h)?[0-9A-F]+$/i]. *)
Definition isHexadecimal (s : string) : bool :=
  hexDigits s
  || match s with
     | String a (String b r) => isPrefix a b && hexDigits r
     | _ => false
     end.

(** validator.js [isMongoId]: [isHexadecimal(str) && str.length === 24].
    The prefix counts towards the length. *)
Definition isMongoId (s : string) : bool :=
  isHexadecimal s && (String.length s =? 24)%nat.

(** The driver's cast of a string to an ObjectId, as Mongoose 8 does it
    (bson 6): twenty-four hexadecimal digits; anything else is a
    CastError ([None]). *)
Definition cast (s : string) : option string :=
  if (String.length s =? 24)%nat && allHex s then Some (lowerAll s)
  else None.

End ObjectId.

(** ** Documents *)

Module Lead.

Record t := mk {
  name : string;
  company : option string;
  phone : string;
  email : option string;
  address : string;
  source : string;
  status : string;
  notes : option string;
  createdBy : string;
  lastModifiedBy : string;
  createdAt : Z;
  lastModifiedAt : Z;
  updatedAt : Z
}.

(** The [enum] lists of the schema, in the schema's order. *)
Definition sources : list string :=
  ["website"; "referral"; "social"; "direct"; "other"].
Definition statuses : list string :=
  ["new"; "contacted"; "qualified"; "proposal"; "converted"; "lost"].

Definition setStatus (s : string) (l : t) : t :=
  mk (name l) (company l) (phone l) (email l) (address l) (source l) s
     (notes l) (createdBy l) (lastModifiedBy l) (createdAt l)
     (lastModifiedAt l) (updatedAt l).
Definition setLastModifiedBy (u : string) (l : t) : t :=
  mk (name l) (company l) (phone l) (email l) (address l) (source l)
     (status l) (notes l) (createdBy l) u (createdAt l)
     (lastModifiedAt l) (updatedAt l).
Definition setLastModifiedAt (n : Z) (l : t) : t :=
  mk (name l) (company l) (phone l) (email l) (address l) (source l)
     (status l) (notes l) (createdBy l) (lastModifiedBy l) (createdAt l)
     n (updatedAt l).
Definition setUpdatedAt (n : Z) (l : t) : t :=
  mk (name l) (company l) (phone l) (email l) (address l) (source l)
     (status l) (notes l) (createdBy l) (lastModifiedBy l) (createdAt l)
     (lastModifiedAt l) n.

End Lead.

Module Call.

Record t := mk {
  lead : string;
  user : string;
  status : string;
  duration : Z;
  connectedResponse : option string;
  notConnectedReason : option string;
  notes : option string;
  createdAt : Z
}.

Definition statuses : list string := ["connected"; "not_connected"].
Definition connectedResponses : list string :=
  ["discussed"; "callback"; "interested"].
Definition notConnectedReasons : list string :=
  ["busy"; "rnr"; "switched_off"].

End Call.

Module User.

Record t := mk {
  name : string;
  username : string;
  role : string
}.

End User.

(** ** The store, the environment and the handler monad *)

(** The three collections, keyed by [_id] where a handler looks documents
    up by id, and the lines written by [console.error]. *)
Record World := mkWorld {
  leads : gmap string Lead.t;
  calls : list Call.t;
  users : gmap string User.t;
  console : list string
}.

(** The awaited database operations of the handlers. The populate that
    [updateLead] chains to its update reads the users after the write
    and is an operation of its own. *)
Inductive DbOp :=
| LeadFindById | LeadFindByIdAndUpdate | LeadPopulateUpdated | LeadSave
| LeadFind | LeadCountDocuments
| CallCreate | CallPopulate | CallAggregate | CallCountDocuments
| CallCountConnected | UserCountDocuments.

(** What a handler reads from outside the repository: the clock, the
    server's offset from UTC (local time = UTC + [tzOffset], in
    milliseconds), which database operations throw, and validator.js's
    [isEmail]. *)
Record Env := mkEnv {
  now : Z;
  tzOffset : Z;
  fails : DbOp → bool;
  isEmail : string → bool
}.

Inductive Result (A : Type) :=
| Val (a : A)
| Thrown (e : string).
Arguments Val {A} a.
Arguments Thrown {A} e.

(** An awaited computation: it reads and writes the store and either
    yields a value or throws. *)
Definition M (A : Type) : Type := World → Result A * World.

#[export] Instance M_ret : MRet M := λ A a w, (Val a, w).
#[export] Instance M_bind : MBind M := λ A B f m w,
  match m w with
  | (Val a, w') => f a w'
  | (Thrown e, w') => (Thrown e, w')
  end.

Definition throw {A} (e : string) : M A := λ w, (Thrown e, w).
Definition getWorld : M World := λ w, (Val w, w).
Definition putLeads (ls : gmap string Lead.t) : M unit :=
  λ w, (Val tt, mkWorld ls (calls w) (users w) (console w)).
Definition putCalls (cs : list Call.t) : M unit :=
  λ w, (Val tt, mkWorld (leads w) cs (users w) (console w)).

(** [try { m } catch (error) { h error }]; the handlers' catch blocks log
    and answer, and do not throw themselves. *)
Definition tryCatch {A} (m : M A) (h : string → World → A * World)
  : World → A * World :=
  λ w, match m w with
       | (Val a, w') => (a, w')
       | (Thrown e, w') => h e w'
       end.

Definition consoleError (line : string) (w : World) : World :=
  mkWorld (leads w) (calls w) (users w) (console w ++ [line]).

(** ** Requests and responses *)

(** [req.user], as the [protect] middleware resolved it. *)
Record AuthUser := mkAuthUser {
  _id : string;
  role : string
}.

Record Response (A : Type) := mkResponse {
  code : Z;
  success : bool;
  message : option string;
  errors : list string;
  data : option A
}.
Arguments mkResponse {A}.
Arguments code {A}.
Arguments success {A}.
Arguments message {A}.
Arguments errors {A}.
Arguments data {A}.

Definition jsonData {A} (c : Z) (d : A) : Response A :=
  mkResponse c true None [] (Some d).
Definition jsonMessage {A} (c : Z) (ok : bool) (m : string) : Response A :=
  mkResponse c ok (Some m) [] None.
Definition jsonErrors {A} (es : list string) : Response A :=
  mkResponse 400 false None es None.

(** The answer of every catch block: log, then 500 'Server error'. *)
Definition serverError {A} (what : string) (e : string) (w : World)
  : Response A * World :=
  (jsonMessage 500 false "Server error", consoleError (what ++ " " ++ e) w).

(** The fields a client may send for a lead, and the update document
    handed to [findByIdAndUpdate]: the schema's paths other than the
    timestamps; keys outside the schema are dropped by the driver. A
    body is a flat object of these keys: one that holds update
    operators ([$set], [$unset], ...) is outside this record. *)
Module LeadFields.

Record t := mk {
  name : option string;
  company : option string;
  phone : option string;
  email : option string;
  address : option string;
  source : option string;
  status : option string;
  notes : option string;
  createdBy : option string;
  lastModifiedBy : option string
}.

(** [{ status: s }] *)
Definition onlyStatus (s : string) : t :=
  mk None None None None None None (Some s) None None None.

(** [{ ...body, lastModifiedBy: u }] *)
Definition withLastModifiedBy (u : string) (b : t) : t :=
  mk (name b) (company b) (phone b) (email b) (address b) (source b)
     (status b) (notes b) (createdBy b) (Some u).

End LeadFields.

(** The body of POST /api/calls; [duration] is a number without a
    fraction. *)
Module CallBody.

Record t := mk {
  lead : option string;
  status : option string;
  duration : option Z;
  connectedResponse : option string;
  notConnectedReason : option string;
  notes : option string
}.

End CallBody.

(** The object literal [callData] of [createCall]; the two conditional
    keys are present only when the handler assigned them. *)
Module CallData.

Record t := mk {
  lead : string;
  user : string;
  status : string;
  duration : Z;
  notes : option string;
  connectedResponse : option string;
  notConnectedReason : option string
}.

Definition setConnectedResponse (v : string) (d : t) : t :=
  mk (lead d) (user d) (status d) (duration d) (notes d) (Some v)
     (notConnectedReason d).
Definition setNotConnectedReason (v : string) (d : t) : t :=
  mk (lead d) (user d) (status d) (duration d) (notes d)
     (connectedResponse d) (Some v).

End CallData.

(** A call with its [user] and [lead] references populated
    ([select: 'name username'] and [select: 'name phone email']); a
    reference whose document is gone populates to null. *)
Record PopulatedCall := mkPopulatedCall {
  pc_call : Call.t;
  pc_user : option (string * string);
  pc_lead : option (string * string * option string)
}.

Record CallReq := mkCallReq {
  cr_user : AuthUser;
  cr_body : CallBody.t
}.

(** ** Validation *)

(** routes/calls.js, [callValidation]: the messages of the validators
    that fail, in chain order ([validationResult(req).array()]). A field
    that is undefined is validated as the empty string. The fields are
    those of the body; the request carries them nowhere else. *)
Module CallValidation.

Definition check (ok : bool) (msg : string) : list string :=
  if ok then [] else [msg].

Definition str (v : option string) : string := default "" v.

(** A word between double quotes, as the messages of the route have it. *)
Definition quoted (s : string) : string :=
  String "034"%char s ++ String "034"%char EmptyString.

Definition lead (b : CallBody.t) : list string :=
  check (negb (str (CallBody.lead b) =? "")) "Lead ID is required"
  ++ check (ObjectId.isMongoId (str (CallBody.lead b))) "Lead ID is required".

Definition status (b : CallBody.t) : list string :=
  check (Js.includes Call.statuses (str (CallBody.status b)))
    ("Status must be " ++ quoted "connected" ++ " or " ++ quoted "not_connected").

(** [optional().isNumeric()] on the decimal rendering of the number: an
    integer is written with digits only up to 1e21, and with an exponent
    from there on. *)
Definition duration (b : CallBody.t) : list string :=
  match CallBody.duration b with
  | Some n => check (Z.abs n <? 10 ^ 21)%Z "Duration must be a number"
  | None => []
  end.

(** [isIn] comes after [withMessage] and keeps the default message. *)
Definition connectedResponse (b : CallBody.t) : list string :=
  if str (CallBody.status b) =? "connected" then
    check (negb (str (CallBody.connectedResponse b) =? ""))
      ("Connected response is required when status is " ++ quoted "connected")
    ++ check (Js.includes Call.connectedResponses
                (str (CallBody.connectedResponse b)))
         "Invalid value"
  else [].

Definition notConnectedReason (b : CallBody.t) : list string :=
  if str (CallBody.status b) =? "not_connected" then
    check (negb (str (CallBody.notConnectedReason b) =? ""))
      ("Not connected reason is required when status is "
       ++ quoted "not_connected")
    ++ check (Js.includes Call.notConnectedReasons
                (str (CallBody.notConnectedReason b)))
         "Invalid value"
  else [].

Definition run (b : CallBody.t) : list string :=
  lead b ++ status b ++ duration b ++ connectedResponse b
  ++ notConnectedReason b.

End CallValidation.

(** models/Lead.js: the [match] pattern of [email],
    [^([\w-\.]+@([\w-]+\.)+[\w-]{2,4})$]. Neither character class holds
    '@' or (for the domain labels) '.', so a match splits in one way. *)
Module EmailPattern.

Definition isWord (c : ascii) : bool :=
  let n := nat_of_ascii c in
  (((48 <=? n) && (n <=? 57)) || ((65 <=? n) && (n <=? 90))
   || ((97 <=? n) && (n <=? 122)) || (n =? 95))%nat.
Definition isLabelChar (c : ascii) : bool :=
  isWord c || (nat_of_ascii c =? 45)%nat.
Definition isLocalChar (c : ascii) : bool :=
  isLabelChar c || (nat_of_ascii c =? 46)%nat.

Fixpoint all (p : ascii → bool) (s : string) : bool :=
  match s with
  | String c r => p c && all p r
  | EmptyString => true
  end.

(** [s.split(sep)] as a non-empty list: the first piece and the rest. *)
Fixpoint split (sep : ascii) (s : string) : string * list string :=
  match s with
  | EmptyString => (EmptyString, [])
  | String c r =>
      let '(h, t) := split sep r in
      if Ascii.eqb c sep then (EmptyString, h :: t) else (String c h, t)
  end.

Definition label (s : string) : bool :=
  negb (s =? "") && all isLabelChar s.
Definition lastLabel (s : string) : bool :=
  (2 <=? String.length s)%nat && (String.length s <=? 4)%nat
  && all isLabelChar s.

Fixpoint domain (h : string) (t : list string) : bool :=
  match t with
  | [] => false
  | [z] => label h && lastLabel z
  | x :: t' => label h && domain x t'
  end.

Definition test (s : string) : bool :=
  match split "@" s with
  | (loc, [dom]) =>
      negb (loc =? "") && all isLocalChar loc
      && (let '(h, t) := split "." dom in domain h t)
  | _ => false
  end.

End EmailPattern.

(** ** The Lead and Call models over the store *)

(** The cast of an update document: the [trim] setters of the schema and
    the ObjectId cast of [createdBy] ([None]: CastError). [lastModifiedBy]
    is only ever assigned [req.user._id], which is an ObjectId already. *)
Definition castLeadFields (u : LeadFields.t) : option LeadFields.t :=
  let ref (v : option string) : option (option string) :=
    match v with
    | Some s => Some <$> ObjectId.cast s
    | None => Some None
    end in
  cb ← ref (LeadFields.createdBy u);
  let mb := LeadFields.lastModifiedBy u in
  Some (LeadFields.mk
          (Js.trim <$> LeadFields.name u)
          (Js.trim <$> LeadFields.company u)
          (Js.trim <$> LeadFields.phone u)
          (Js.trim <$> LeadFields.email u)
          (LeadFields.address u)
          (LeadFields.source u)
          (LeadFields.status u)
          (Js.trim <$> LeadFields.notes u)
          cb mb).

(** The schema's validators on the paths an update sets
    ([runValidators: true]): required, maxlength, match and enum. *)
Definition validateLeadFields (u : LeadFields.t) : bool :=
  let on (v : option string) (p : string → bool) : bool :=
    match v with Some s => p s | None => true end in
  on (LeadFields.name u)
     (λ s, negb (s =? "") && (String.length s <=? 100)%nat)
  && on (LeadFields.company u) (λ s, (String.length s <=? 100)%nat)
  && on (LeadFields.phone u)
       (λ s, negb (s =? "") && (String.length s <=? 20)%nat)
  && on (LeadFields.email u) (λ s, (s =? "") || EmailPattern.test s)
  && on (LeadFields.address u) (λ s, negb (s =? ""))
  && on (LeadFields.source u) (Js.includes Lead.sources)
  && on (LeadFields.status u) (Js.includes Lead.statuses).

(** [$set] of a cast update document on a stored lead. *)
Definition setLeadFields (u : LeadFields.t) (l : Lead.t) : Lead.t :=
  Lead.mk
    (default (Lead.name l) (LeadFields.name u))
    (match LeadFields.company u with Some s => Some s | None => Lead.company l end)
    (default (Lead.phone l) (LeadFields.phone u))
    (match LeadFields.email u with Some s => Some s | None => Lead.email l end)
    (default (Lead.address l) (LeadFields.address u))
    (default (Lead.source l) (LeadFields.source u))
    (default (Lead.status l) (LeadFields.status u))
    (match LeadFields.notes u with Some s => Some s | None => Lead.notes l end)
    (default (Lead.createdBy l) (LeadFields.createdBy u))
    (default (Lead.lastModifiedBy l) (LeadFields.lastModifiedBy u))
    (Lead.createdAt l)
    (Lead.lastModifiedAt l)
    (Lead.updatedAt l).

(** The Call schema's validators on a new document. *)
Definition validateCallData (d : CallData.t) : bool :=
  let on (v : option string) (p : string → bool) : bool :=
    match v with Some s => p s | None => true end in
  Js.includes Call.statuses (CallData.status d)
  && on (CallData.connectedResponse d)
       (λ s, Js.includes Call.connectedResponses s
             && (if CallData.status d =? "connected"
                 then Js.truthy (Some s) else true))
  && on (CallData.notConnectedReason d)
       (λ s, Js.includes Call.notConnectedReasons s
             && (if CallData.status d =? "not_connected"
                 then Js.truthy (Some s) else true)).

Section Models.

Variable env : Env.

(** An awaited database operation: it throws when the environment says
    so, before touching the store. *)
Definition await {A} (op : DbOp) (m : M A) : M A :=
  λ w, if fails env op then (Thrown "MongoError", w) else m w.

(** [Lead.findById(id)]: the document with its [_id], or null. *)
Definition Lead_findById (id : string) : M (option (string * Lead.t)) :=
  await LeadFindById
    (match ObjectId.cast id with
     | None => throw "CastError"
     | Some k => w ← getWorld; mret ((λ l, (k, l)) <$> leads w !! k)
     end).

(** [Lead.findByIdAndUpdate(id, update, { runValidators })]: casts,
    validates when asked to, stamps [updatedAt] and sets the fields on
    the stored document; answers the updated document, or null when no
    document has that id. *)
Definition Lead_findByIdAndUpdate (id : string) (update : LeadFields.t)
    (runValidators : bool) : M (option Lead.t) :=
  await LeadFindByIdAndUpdate
    (match ObjectId.cast id, castLeadFields update with
     | Some k, Some u =>
         if runValidators && negb (validateLeadFields u)
         then throw "ValidationError"
         else
           w ← getWorld;
           match leads w !! k with
           | Some l =>
               let l' := Lead.setUpdatedAt (now env) (setLeadFields u l) in
               putLeads (<[k := l']> (leads w));; mret (Some l')
           | None => mret None
           end
     | _, _ => throw "CastError"
     end).

(** [lead.save()] after the handler assigned [status] and
    [lastModifiedBy] on the loaded document: the pre-save hook stamps
    [lastModifiedAt], and the modified paths are written to the stored
    document with that [_id]. *)
Definition Lead_save (k : string) (status lastModifiedBy : string) : M unit :=
  await LeadSave
    (w ← getWorld;
     match leads w !! k with
     | Some l =>
         putLeads
           (<[k := Lead.setUpdatedAt (now env)
                     (Lead.setLastModifiedAt (now env)
                        (Lead.setLastModifiedBy lastModifiedBy
                           (Lead.setStatus status l)))]> (leads w))
     | None => throw "DocumentNotFoundError"
     end).

(** The document [Call.create(callData)] stores, [lead] being the cast
    of [callData.lead]; [callData.user] is [req.user._id], an ObjectId
    already. *)
Definition newCall (lead : string) (d : CallData.t) : Call.t :=
  Call.mk lead (CallData.user d) (CallData.status d) (CallData.duration d)
    (CallData.connectedResponse d) (CallData.notConnectedReason d)
    (Js.trim <$> CallData.notes d) (now env).

(** [Call.create(callData)] *)
Definition Call_create (d : CallData.t) : M Call.t :=
  await CallCreate
    (match ObjectId.cast (CallData.lead d) with
     | Some l =>
         if validateCallData d then
           w ← getWorld;
           putCalls (calls w ++ [newCall l d]);; mret (newCall l d)
         else throw "ValidationError"
     | None => throw "CastError"
     end).

(** [call.populate([{ path: 'user', ... }, { path: 'lead', ... }])] *)
Definition Call_populate (c : Call.t) : M PopulatedCall :=
  await CallPopulate
    (w ← getWorld;
     mret (mkPopulatedCall c
             ((λ u, (User.name u, User.username u)) <$> users w !! Call.user c)
             ((λ l, (Lead.name l, Lead.phone l, Lead.email l))
                <$> leads w !! Call.lead c))).

End Models.

(** ** controllers/callController.js: createCall *)

Section CreateCall.

Variable env : Env.

(** The status the connected branch computes from the loaded lead. *)
Definition newStatus (leadStatus : string) (connectedResponse : option string)
  : string :=
  let s := if leadStatus =? "new" then "contacted" else leadStatus in
  if (match connectedResponse with Some r => r =? "interested" | None => false end)
     && Js.includes ["new"; "contacted"] leadStatus
  then "qualified" else s.

Definition callData (u : AuthUser) (b : CallBody.t) : CallData.t :=
  let status := CallValidation.str (CallBody.status b) in
  let d := CallData.mk (CallValidation.str (CallBody.lead b)) (_id u) status
             (Js.orDefault (CallBody.duration b) 0) (CallBody.notes b)
             None None in
  if (status =? "connected") && Js.truthy (CallBody.connectedResponse b)
  then CallData.setConnectedResponse
         (CallValidation.str (CallBody.connectedResponse b)) d
  else if (status =? "not_connected")
          && Js.truthy (CallBody.notConnectedReason b)
  then CallData.setNotConnectedReason
         (CallValidation.str (CallBody.notConnectedReason b)) d
  else d.

Definition createCall (req : CallReq) : World → Response PopulatedCall * World :=
  let u := cr_user req in
  let b := cr_body req in
  let errs := CallValidation.run b in
  let leadId := CallValidation.str (CallBody.lead b) in
  let status := CallValidation.str (CallBody.status b) in
  match errs with
  | _ :: _ => λ w, (jsonErrors errs, w)
  | [] =>
    tryCatch
      (found ← Lead_findById env leadId;
       match found with
       | None => mret (jsonMessage 404 false "Lead not found")
       | Some (k, lead) =>
         if (role u =? "telecaller") && negb (Lead.createdBy lead =? _id u)
         then mret (jsonMessage 403 false
                      "Not authorized to log calls for this lead")
         else
           call ← Call_create env (callData u b);
           (if Lead.status lead =? "new"
            then Lead_findByIdAndUpdate env leadId
                   (LeadFields.onlyStatus "contacted") false;; mret tt
            else mret tt);;
           populated ← Call_populate env call;
           (if status =? "connected" then
              let s := newStatus (Lead.status lead) (CallBody.connectedResponse b) in
              if negb (s =? Lead.status lead)
              then Lead_save env k s (_id u)
              else mret tt
            else mret tt);;
           mret (jsonData 201 populated)
       end)
      (serverError "Error creating call:")
  end.

End CreateCall.

(** ** controllers/leadController.js: getLeads and updateLead *)

(** The filter object of a Lead query: each key that is present is an
    equality condition. *)
Record LeadQuery := mkLeadQuery {
  lq_status : option string;
  lq_source : option string;
  lq_createdBy : option string
}.

Definition matchesLead (q : LeadQuery) (l : Lead.t) : bool :=
  let on (v : option string) (x : string) : bool :=
    match v with Some s => x =? s | None => true end in
  on (lq_status q) (Lead.status l)
  && on (lq_source q) (Lead.source l)
  && on (lq_createdBy q) (Lead.createdBy l).

(** The value of a path for sorting, in BSON order: a missing value
    first, then numbers and dates, then strings and ids. *)
Inductive SortKey :=
| KNull
| KNum (n : Z)
| KStr (s : string).

Definition sortKey (field : string) (d : string * Lead.t) : SortKey :=
  let l := d.2 in
  let opt (v : option string) := match v with Some s => KStr s | None => KNull end in
  if field =? "_id" then KStr d.1
  else if field =? "name" then KStr (Lead.name l)
  else if field =? "company" then opt (Lead.company l)
  else if field =? "phone" then KStr (Lead.phone l)
  else if field =? "email" then opt (Lead.email l)
  else if field =? "address" then KStr (Lead.address l)
  else if field =? "source" then KStr (Lead.source l)
  else if field =? "status" then KStr (Lead.status l)
  else if field =? "notes" then opt (Lead.notes l)
  else if field =? "createdBy" then KStr (Lead.createdBy l)
  else if field =? "lastModifiedBy" then KStr (Lead.lastModifiedBy l)
  else if field =? "createdAt" then KNum (Lead.createdAt l)
  else if field =? "lastModifiedAt" then KNum (Lead.lastModifiedAt l)
  else if field =? "updatedAt" then KNum (Lead.updatedAt l)
  else KNull.

Definition keyLeb (a b : SortKey) : bool :=
  match a, b with
  | KNull, _ => true
  | _, KNull => false
  | KNum x, KNum y => (x <=? y)%Z
  | KNum _, KStr _ => true
  | KStr _, KNum _ => false
  | KStr x, KStr y => String.leb x y
  end.

(** The order [{ [field]: order }] puts documents in: ascending for 1,
    descending for -1. *)
Definition sortsBefore (field : string) (order : Z) (a b : string * Lead.t) : Prop :=
  if (order =? 1)%Z then keyLeb (sortKey field a) (sortKey field b)
  else keyLeb (sortKey field b) (sortKey field a).

#[export] Instance sortsBefore_dec field order a b
  : Decision (sortsBefore field order a b).
Proof. unfold sortsBefore. destruct (order =? 1)%Z; apply _. Defined.

(** A lead with its two user references populated
    ([select: 'name username']). *)
Record PopulatedLead := mkPopulatedLead {
  pl_id : string;
  pl_lead : Lead.t;
  pl_createdBy : option (string * string);
  pl_lastModifiedBy : option (string * string)
}.

Definition populateLead (w : World) (d : string * Lead.t) : PopulatedLead :=
  let ref (id : string) := (λ u, (User.name u, User.username u)) <$> users w !! id in
  mkPopulatedLead d.1 d.2 (ref (Lead.createdBy d.2)) (ref (Lead.lastModifiedBy d.2)).

(** GET /api/leads: the query string, with [page] and [limit] as
    [parseInt] reads them ([None] for NaN). *)
Record LeadsReq := mkLeadsReq {
  lr_user : AuthUser;
  lr_status : option string;
  lr_source : option string;
  lr_sort_by : option string;
  lr_sort_order : option string;
  lr_page : option Z;
  lr_limit : option Z
}.

Record LeadsPage := mkLeadsPage {
  lp_count : nat;
  lp_total : nat;
  lp_pages : Z;
  lp_page : Z;
  lp_limit : Z;
  lp_data : list PopulatedLead
}.

Record UpdateLeadReq := mkUpdateLeadReq {
  ur_user : AuthUser;
  ur_id : string;
  ur_body : LeadFields.t
}.

Section LeadController.

Variable env : Env.

(** [Lead.find(query).sort(sort).skip(skip).limit(limit).populate(..)]:
    a negative skip is refused by the server; a negative limit is read
    as its absolute value. *)
Definition Lead_find (q : LeadQuery) (field : string) (order skip limit : Z)
  : M (list PopulatedLead) :=
  await env LeadFind
    (if (skip <? 0)%Z then throw "MongoServerError"
     else
       w ← getWorld;
       let matched := filter (λ d, matchesLead q d.2) (map_to_list (leads w)) in
       let sorted := merge_sort (sortsBefore field order) matched in
       mret (populateLead w
               <$> take (Z.to_nat (Z.abs limit)) (drop (Z.to_nat skip) sorted))).

Definition Lead_countDocuments (q : LeadQuery) : M nat :=
  await env LeadCountDocuments
    (w ← getWorld;
     mret (length (filter (λ d, matchesLead q d.2) (map_to_list (leads w))))).

(** The filter [getLeads] builds from the query string and the caller. *)
Definition leadsQuery (req : LeadsReq) : LeadQuery :=
  mkLeadQuery
    (if Js.truthy (lr_status req) then lr_status req else None)
    (if Js.truthy (lr_source req) then lr_source req else None)
    (if role (lr_user req) =? "telecaller" then Some (_id (lr_user req)) else None).

(** [Math.ceil(total / limit)], on the integers. *)
Definition ceilDiv (a b : Z) : Z := (- ((- a) / b))%Z.

Definition getLeads (req : LeadsReq) : World → Response LeadsPage * World :=
  tryCatch
    (let query := leadsQuery req in
     let sortField :=
       if Js.truthy (lr_sort_by req) then default "" (lr_sort_by req)
       else "createdAt" in
     let sortOrder :=
       if default "" (lr_sort_order req) =? "asc" then 1%Z else (-1)%Z in
     let page := Js.orDefault (lr_page req) 1 in
     let limit := Js.orDefault (lr_limit req) 100 in
     let skip := ((page - 1) * limit)%Z in
     found ← Lead_find query sortField sortOrder skip limit;
     total ← Lead_countDocuments query;
     mret (jsonData 200
             (mkLeadsPage (length found) total (ceilDiv (Z.of_nat total) limit)
                page limit found)))
    (serverError "Error getting leads:").

(** routes/leads.js, [updateLeadValidation]: every check is optional. *)
Definition updateLeadValidation (b : LeadFields.t) : list string :=
  let on (v : option string) (p : string → bool) (msg : string) : list string :=
    match v with Some s => CallValidation.check (p s) msg | None => [] end in
  on (LeadFields.name b) (λ s, negb (s =? "")) "Name is required"
  ++ on (LeadFields.phone b) (λ s, negb (s =? "")) "Phone is required"
  ++ on (LeadFields.source b) (Js.includes Lead.sources)
       "Source must be a valid option"
  ++ on (LeadFields.status b) (Js.includes Lead.statuses) "Status is invalid"
  ++ on (LeadFields.email b) (isEmail env) "Invalid email format".

Definition updateLead (req : UpdateLeadReq)
  : World → Response (option PopulatedLead) * World :=
  let u := ur_user req in
  let errs := updateLeadValidation (ur_body req) in
  match errs with
  | _ :: _ => λ w, (jsonErrors errs, w)
  | [] =>
    tryCatch
      (found ← Lead_findById env (ur_id req);
       match found with
       | None => mret (jsonMessage 404 false "Lead not found")
       | Some (k, lead) =>
         if (role u =? "telecaller") && negb (Lead.createdBy lead =? _id u)
         then mret (jsonMessage 403 false "Not authorized")
         else
           let updateData := LeadFields.withLastModifiedBy (_id u) (ur_body req) in
           updated ← Lead_findByIdAndUpdate env (ur_id req) updateData true;
           match updated with
           | Some l =>
               await env LeadPopulateUpdated
                 (w ← getWorld;
                  mret (jsonData 200 (Some (populateLead w (k, l)))))
           | None => mret (jsonData 200 None)
           end
       end)
      (serverError "Error updating lead:")
  end.

End LeadController.

(** ** controllers/callController.js: getCallTrends and getDashboardStats *)

(** Dates, for a server at a fixed offset from UTC. *)
Module Date.

Definition msPerDay : Z := 86400000.

(** [d.setDate(d.getDate() + n)] *)
Definition addDays (t n : Z) : Z := (t + n * msPerDay)%Z.

(** [d.setHours(0, 0, 0, 0)]: midnight of [t]'s local day. *)
Definition startOfLocalDay (tz t : Z) : Z :=
  ((t + tz) / msPerDay * msPerDay - tz)%Z.

(** The day of [d.toISOString().split('T')[0]], and of
    [$dateToString: { format: '%Y-%m-%d' }]: both read the UTC day. *)
Definition utcDay (t : Z) : Z := (t / msPerDay)%Z.

End Date.

(** An element of the array [getCallTrends] answers with: a group of the
    aggregation carries [_id], [count] and [connected]; an object the
    handler makes up carries [date], [count] and [connected]. *)
Module TrendItem.

Record t := mk {
  _id : option Z;
  date : option Z;
  count : nat;
  connected : nat
}.

End TrendItem.

Record CallQuery := mkCallQuery {
  cq_user : option string;
  cq_status : option string;
  cq_createdAt : option (Z * option Z)
}.

Definition matchesCall (q : CallQuery) (c : Call.t) : bool :=
  let on (v : option string) (x : string) : bool :=
    match v with Some s => x =? s | None => true end in
  on (cq_user q) (Call.user c)
  && on (cq_status q) (Call.status c)
  && match cq_createdAt q with
     | Some (gte, lte) =>
         (gte <=? Call.createdAt c)%Z
         && match lte with Some e => (Call.createdAt c <=? e)%Z | None => true end
     | None => true
     end.

(** One more call for the group of [day], the groups kept in ascending
    order of [_id] ([$group] followed by [$sort: { _id: 1 }]). *)
Fixpoint addToGroup (day : Z) (isConnected : bool) (gs : list (Z * (nat * nat)))
  : list (Z * (nat * nat)) :=
  let one := if isConnected then 1%nat else 0%nat in
  match gs with
  | [] => [(day, (1%nat, one))]
  | (d, (n, k)) :: r =>
      if (day =? d)%Z then (d, (S n, (k + one)%nat)) :: r
      else if (day <? d)%Z then (day, (1%nat, one)) :: gs
      else (d, (n, k)) :: addToGroup day isConnected r
  end.

Definition groupByDay (cs : list Call.t) : list TrendItem.t :=
  (λ g : Z * (nat * nat), TrendItem.mk (Some g.1) None g.2.1 g.2.2)
    <$> foldl (λ gs c, addToGroup (Date.utcDay (Call.createdAt c))
                          (Call.status c =? "connected") gs) [] cs.

(** [Number.prototype.toFixed(2)] on a binary64 value. *)
Module Number.

(** A count as a Number (counts stay far below 2^53). *)
Definition ofNat (n : nat) : float :=
  PrimFloat.of_uint63 (Uint63.of_Z (Z.of_nat n)).

(** The integer [n] for which [n / 100 - m * 2^e] is closest to zero,
    the larger one of two. *)
Definition hundredths (m : positive) (e : Z) : Z :=
  if (0 <=? e)%Z then (100 * Z.pos m * 2 ^ e)%Z
  else ((200 * Z.pos m + 2 ^ (- e)) / (2 * 2 ^ (- e)))%Z.

Definition digit (n : Z) : ascii := ascii_of_nat (48 + Z.to_nat n).

(** The digits of [n] with a point before the last two. *)
Definition fixed2 (n : Z) : string :=
  NilZero.string_of_uint (N.to_uint (Z.to_N (n / 100)))
  ++ "." ++ String (digit (n mod 100 / 10)) (String (digit (n mod 10)) "").

(** Values of 1e21 and more, which [toFixed] writes with an exponent,
    are not among the percentages a handler formats; they are written
    in full here. *)
Definition toFixed2 (x : float) : string :=
  match Prim2SF x with
  | S754_nan => "NaN"
  | S754_infinity s => if s then "-Infinity" else "Infinity"
  | S754_zero _ => "0.00"
  | S754_finite s m e => (if s then "-" else "") ++ fixed2 (hundredths m e)
  end.

End Number.

Record TrendsReq := mkTrendsReq {
  tr_user : AuthUser;
  tr_days : option Z
}.

Record DashboardStats := mkDashboardStats {
  totalLeads : nat;
  totalCalls : nat;
  connectedCalls : nat;
  connectionRate : string;
  totalTelecallers : nat
}.

Section CallReports.

Variable env : Env.

(** [Call.aggregate([{ $match }, { $group }, { $sort }])] *)
Definition Call_aggregate (q : CallQuery) : M (list TrendItem.t) :=
  await env CallAggregate
    (w ← getWorld; mret (groupByDay (filter (λ c, matchesCall q c) (calls w)))).

Definition Call_countDocuments (op : DbOp) (q : CallQuery) : M nat :=
  await env op
    (w ← getWorld; mret (length (filter (λ c, matchesCall q c) (calls w)))).

Definition User_countDocuments (r : string) : M nat :=
  await env UserCountDocuments
    (w ← getWorld;
     mret (length (filter (λ d : string * User.t, User.role d.2 =? r)
                     (map_to_list (users w))))).

(** The body of the loop of [getCallTrends] for index [i]. *)
Definition trendAt (startDate : Z) (callTrends : list TrendItem.t) (i : Z)
  : TrendItem.t :=
  let date := Date.addDays startDate i in
  let dateStr := Date.utcDay date in
  let existing :=
    find (λ item, bool_decide (TrendItem._id item = Some dateStr)) callTrends in
  default (TrendItem.mk None (Some dateStr) 0 0) existing.

Definition getCallTrends (req : TrendsReq)
  : World → Response (list TrendItem.t) * World :=
  tryCatch
    (let days := Js.orDefault (tr_days req) 7 in
     let endDate := now env in
     let startDate :=
       Date.startOfLocalDay (tzOffset env)
         (Date.addDays (now env) (- days + 1)) in
     let matchQuery :=
       mkCallQuery
         (if role (tr_user req) =? "telecaller" then Some (_id (tr_user req)) else None)
         None
         (Some (startDate, Some endDate)) in
     callTrends ← Call_aggregate matchQuery;
     mret (jsonData 200 (trendAt startDate callTrends <$> seqZ 0 days)))
    (serverError "Error getting call trends:").

Definition connectionRateOf (totalCalls connectedCalls : nat) : string :=
  if (totalCalls =? 0)%nat then "0%"
  else Number.toFixed2
         (PrimFloat.mul
            (PrimFloat.div (Number.ofNat connectedCalls) (Number.ofNat totalCalls))
            (Number.ofNat 100))
       ++ "%".

Definition getDashboardStats (u : AuthUser)
  : World → Response DashboardStats * World :=
  tryCatch
    (let isTelecaller := role u =? "telecaller" in
     let query := mkLeadQuery None None (if isTelecaller then Some (_id u) else None) in
     let callQuery := mkCallQuery (if isTelecaller then Some (_id u) else None) None None in
     totalLeads ← Lead_countDocuments env query;
     totalCalls ← Call_countDocuments CallCountDocuments callQuery;
     connectedCalls ← Call_countDocuments CallCountConnected
                        (mkCallQuery (cq_user callQuery) (Some "connected") None);
     totalTelecallers ← User_countDocuments "telecaller";
     mret (jsonData 200
             (mkDashboardStats totalLeads totalCalls connectedCalls
                (connectionRateOf totalCalls connectedCalls) totalTelecallers)))
    (serverError "Error getting dashboard stats:").

End CallReports.

(** ** Vocabulary of the statements *)

(** The position of a status in the schema's enumeration: the stage of
    the pipeline new, contacted, qualified, proposal, converted, lost. *)
Fixpoint indexOf (s : string) (xs : list string) : nat :=
  match xs with
  | [] => 0
  | x :: r => if s =? x then 0%nat else S (indexOf s r)
  end.

Definition stage (status : string) : nat := indexOf status Lead.statuses.

(** What recording a call may do to a stored lead: nothing to its owner,
    and to its status one of the three moves of the handler. *)
Definition callMove (l l' : Lead.t) : Prop :=
  Lead.createdBy l' = Lead.createdBy l
  ∧ (Lead.status l' = Lead.status l
     ∨ (Lead.status l = "new" ∧ Lead.status l' = "contacted")
     ∨ ((Lead.status l = "new" ∨ Lead.status l = "contacted")
        ∧ Lead.status l' = "qualified")).

(** The call is connected and the lead said to be interested. *)
Definition interested (b : CallBody.t) : bool :=
  (CallValidation.str (CallBody.status b) =? "connected")
  && (CallValidation.str (CallBody.connectedResponse b) =? "interested").

(** The conditions the query string of [getLeads] puts on a lead: its
    [status] and [source] parameters, when given; nothing on the owner. *)
Definition matchesParams (req : LeadsReq) (l : Lead.t) : bool :=
  (if Js.truthy (lr_status req)
   then Lead.status l =? default "" (lr_status req) else true)
  && (if Js.truthy (lr_source req)
      then Lead.source l =? default "" (lr_source req) else true).

(** [n] hundredths is as close to [m * 2^e] as hundredths get, and the
    larger one when two are: [n - 100 * m * 2^e] lies above -1/2 and not
    above 1/2 (both sides multiplied by twice the denominator). *)
Definition nearestHundredth (m : positive) (e : Z) (n : Z) : Prop :=
  (- 2 ^ Z.max (- e) 0
   < 2 * (n * 2 ^ Z.max (- e) 0 - 100 * Z.pos m * 2 ^ Z.max e 0)
   ≤ 2 ^ Z.max (- e) 0)%Z.

(** The request for page [n] of the same list. *)
Definition atPage (n : Z) (req : LeadsReq) : LeadsReq :=
  mkLeadsReq (lr_user req) (lr_status req) (lr_source req) (lr_sort_by req)
    (lr_sort_order req) (Some n) (lr_limit req).

(** The stored leads that meet the parameters of the query string,
    whoever owns them, in the order asked for. *)
Definition unscopedLeads (req : LeadsReq) (w : World) : list (string * Lead.t) :=
  merge_sort
    (sortsBefore
       (if Js.truthy (lr_sort_by req) then default "" (lr_sort_by req)
        else "createdAt")
       (if default "" (lr_sort_order req) =? "asc" then 1%Z else (-1)%Z))
    (filter (λ d : string * Lead.t, matchesParams req d.2)
       (map_to_list (leads w))).

(** The finite binary64 value [x] is the integer [n]. *)
Definition represents (x : float) (n : Z) : Prop :=
  match Prim2SF x with
  | S754_zero _ => n = 0%Z
  | S754_finite s m e => s = false ∧ (e ≤ 0)%Z ∧ Z.pos m = (n * 2 ^ (- e))%Z
  | _ => False
  end.

(** The value of a decimal digit. *)
Definition digitValue (c : ascii) : option Z :=
  let n := nat_of_ascii c in
  if ((48 <=? n) && (n <=? 57))%nat then Some (Z.of_nat n - 48)%Z else None.

(** Reads digits up to a point: their value after [acc], and the text
    that follows the point. *)
Fixpoint readWhole (s : string) (acc : Z) : option (Z * string) :=
  match s with
  | String c r =>
      if Ascii.eqb c "." then Some (acc, r)
      else match digitValue c with
           | Some d => readWhole r (10 * acc + d)
           | None => None
           end
  | EmptyString => None
  end.

(** The number of hundredths that a text made of digits, a point and
    two digits denotes. *)
Definition readFixed2 (s : string) : option Z :=
  match readWhole s 0 with
  | Some (whole, String a (String b EmptyString)) =>
      match digitValue a, digitValue b with
      | Some da, Some db => Some (100 * whole + 10 * da + db)%Z
      | _, _ => None
      end
  | _ => None
  end.

(** The value of a decimal numeral, read after [acc]. *)
Fixpoint uintValue (d : Decimal.uint) (acc : Z) : Z :=
  match d with
  | Decimal.Nil => acc
  | Decimal.D0 r => uintValue r (10 * acc)
  | Decimal.D1 r => uintValue r (10 * acc + 1)
  | Decimal.D2 r => uintValue r (10 * acc + 2)
  | Decimal.D3 r => uintValue r (10 * acc + 3)
  | Decimal.D4 r => uintValue r (10 * acc + 4)
  | Decimal.D5 r => uintValue r (10 * acc + 5)
  | Decimal.D6 r => uintValue r (10 * acc + 6)
  | Decimal.D7 r => uintValue r (10 * acc + 7)
  | Decimal.D8 r => uintValue r (10 * acc + 8)
  | Decimal.D9 r => uintValue r (10 * acc + 9)
  end.

(** The calls a caller's dashboard counts: their own for a telecaller,
    all of them otherwise. *)
Definition inScope (u : AuthUser) (c : Call.t) : bool :=
  if role u =? "telecaller" then Call.user c =? _id u else true.


(** Sample data: two telecallers, an admin and one lead of the first
    telecaller. *)
Module Sample.

Definition tele1 : string := "aaaaaaaaaaaaaaaaaaaaaaaa".
Definition tele2 : string := "bbbbbbbbbbbbbbbbbbbbbbbb".
Definition boss : string := "cccccccccccccccccccccccc".
Definition lead1 : string := "111111111111111111111111".

(** 2023-11-14T22:13:20Z on a server that runs in UTC, with a
    database that answers. *)
Definition env : Env := mkEnv 1700000000000 0 (λ _, false) (λ _, true).


Definition lead (status : string) : Lead.t :=
  Lead.mk "Asha Rao" None "5550100" None "1 Main St" "other" status None
    tele1 tele1 0 0 0.

Definition users : gmap string User.t :=
  {[ tele1 := User.mk "Tele One" "tele1" "telecaller";
     tele2 := User.mk "Tele Two" "tele2" "telecaller";
     boss := User.mk "The Boss" "boss" "admin" ]}.

Definition world (status : string) : World :=
  mkWorld {[ lead1 := lead status ]} [] users [].

Definition notConnected : CallBody.t :=
  CallBody.mk (Some lead1) (Some "not_connected") None None (Some "busy") None.
Definition connectedInterested : CallBody.t :=
  CallBody.mk (Some lead1) (Some "connected") (Some 30%Z) (Some "interested")
    None None.
Definition connectedDiscussed : CallBody.t :=
  CallBody.mk (Some lead1) (Some "connected") (Some 30%Z) (Some "discussed")
    None None.

(** The body [{ createdBy: tele2 }] of an update. *)
Definition giveAway : LeadFields.t :=
  LeadFields.mk None None None None None None None None (Some tele2) None.

Definition asTele1 (b : CallBody.t) : CallReq :=
  mkCallReq (mkAuthUser tele1 "telecaller") b.
Definition asTele2 (b : CallBody.t) : CallReq :=
  mkCallReq (mkAuthUser tele2 "telecaller") b.
Definition asBoss (b : CallBody.t) : CallReq :=
  mkCallReq (mkAuthUser boss "admin") b.

(** A call of the first telecaller, connected, an hour before [now]. *)
Definition callToday : Call.t :=
  Call.mk lead1 tele1 "connected" 60 (Some "discussed") None None 1699996400000.

Definition worldWithCall : World :=
  mkWorld {[ lead1 := lead "contacted" ]} [callToday] users [].

(** GET /api/leads with an empty query string. *)
Definition listAs (u : AuthUser) : LeadsReq :=
  mkLeadsReq u None None None None None None.

(** 2023-11-14T14:13:20Z on a server five and a half hours ahead of
    UTC: 19:43 of the same day there. *)
Definition envAhead : Env :=
  mkEnv 1699971200000 19800000 (λ _, false) (λ _, true).

End Sample.

(** ** The other handlers *)

(** The awaited database operations of the handlers below that the ones
    above do not use. *)
Inductive DbOp2 :=
| CallFind | CallDeleteMany | CallCountThisWeek
| LeadAggregate | LeadCreate | LeadPopulate | LeadDeleteOne
| UserFindById | UserDeleteOne | UserFind.

(** The environment of these handlers: the one above, which of the
    further operations throw, and the ObjectId the driver makes up for
    the next inserted document. *)
Record Driver := mkDriver {
  dr_env : Env;
  dr_fails : DbOp2 → bool;
  dr_newId : string
}.

Definition putUsers (us : gmap string User.t) : M unit :=
  λ w, (Val tt, mkWorld (leads w) (calls w) us (console w)).

(** The filter object of a [Call.find] or [Call.deleteMany]. *)
Record CallFilter := mkCallFilter {
  cf_lead : option string;
  cf_user : option string;
  cf_status : option string
}.

Definition matchesFilter (q : CallFilter) (c : Call.t) : bool :=
  let on (v : option string) (x : string) : bool :=
    match v with Some s => x =? s | None => true end in
  on (cf_lead q) (Call.lead c)
  && on (cf_user q) (Call.user c)
  && on (cf_status q) (Call.status c).

(** The order [{ createdAt: -1 }] puts calls in. *)
Definition newerFirst (a b : Call.t) : Prop :=
  (Call.createdAt b ≤ Call.createdAt a)%Z.

#[export] Instance newerFirst_dec a b : Decision (newerFirst a b).
Proof. unfold newerFirst. apply _. Defined.

Definition userRef (w : World) (id : string) : option (string * string) :=
  (λ u, (User.name u, User.username u)) <$> users w !! id.

(** [populate] of both references of a call, as [Call_populate] does. *)
Definition populateCall (w : World) (c : Call.t) : PopulatedCall :=
  mkPopulatedCall c (userRef w (Call.user c))
    ((λ l, (Lead.name l, Lead.phone l, Lead.email l)) <$> leads w !! Call.lead c).

(** [$group: { _id: key, ... }]: the documents with the same key, one
    group per key, in the order the keys first appear. *)
Fixpoint insertGroup {A} (k : string) (x : A) (gs : list (string * list A))
  : list (string * list A) :=
  match gs with
  | [] => [(k, [x])]
  | (k', xs) :: r =>
      if k =? k' then (k', (xs ++ [x])%list) :: r
      else (k', xs) :: insertGroup k x r
  end.

Definition groupBy {A} (key : A → string) (l : list A) : list (string * list A) :=
  foldl (λ gs x, insertGroup (key x) x gs) [] l.

(** The order [{ count: -1 }] (or [{ totalCalls: -1 }]) puts rows in. *)
Definition largerFirst {A} (size : A → nat) (a b : A) : Prop :=
  (size b ≤ size a)%nat.

#[export] Instance largerFirst_dec {A} (size : A → nat) a b
  : Decision (largerFirst size a b).
Proof. unfold largerFirst. apply _. Defined.


(** [Math.round] on a binary64 value and the decimal rendering of its
    result inside a template string. *)
Module Round.

(** The integer nearest to [±m * 2^e], the larger one of two. *)
Definition nearest (negative : bool) (m : positive) (e : Z) : Z :=
  let n := if negative then Z.neg m else Z.pos m in
  if (0 <=? e)%Z then (n * 2 ^ e)%Z
  else ((2 * n + 2 ^ (- e)) / (2 * 2 ^ (- e)))%Z.

Definition digits (n : Z) : string :=
  (if (n <? 0)%Z then "-" else "")
  ++ NilZero.string_of_uint (N.to_uint (Z.to_N (Z.abs n))).

(** Values of 1e21 and more, which are written with an exponent, are
    not among the percentages a handler formats; they are written in
    full here. *)
Definition toString (x : float) : string :=
  match Prim2SF x with
  | S754_nan => "NaN"
  | S754_infinity s => if s then "-Infinity" else "Infinity"
  | S754_zero _ => "0"
  | S754_finite s m e => digits (nearest s m e)
  end.

End Round.

Record IdReq := mkIdReq {
  ir_user : AuthUser;
  ir_id : string
}.

Record LimitReq := mkLimitReq {
  lm_user : AuthUser;
  lm_limit : option Z
}.

(** The request of [createLead]. Its body is read through the paths of
    [LeadFields]; a body that also sets [_id] or one of the timestamps
    is outside this record. *)
Record CreateLeadReq := mkCreateLeadReq {
  cl_user : AuthUser;
  cl_body : LeadFields.t
}.

(** What [createLead] answers with: the new lead, [createdBy] populated. *)
Record CreatedLead := mkCreatedLead {
  cd_id : string;
  cd_lead : Lead.t;
  cd_createdBy : option (string * string)
}.

(** What [getLeadById] answers with: [{ ...lead._doc, calls }]. *)
Record LeadWithCalls := mkLeadWithCalls {
  lw_lead : PopulatedLead;
  lw_calls : list (Call.t * option (string * string))
}.

Record UserStats := mkUserStats {
  us_totalCalls : nat;
  us_connectedCalls : nat;
  us_connectionRate : string;
  us_callsThisWeek : nat
}.

(** The document [Lead.create] builds from the fields it is given: the
    [trim] setters, the schema's defaults for [source] and [status], and
    the three timestamps set to the time of the insert. The two user
    references are [req.user._id]. *)
Definition trimLeadFields (f : LeadFields.t) : LeadFields.t :=
  LeadFields.mk
    (Js.trim <$> LeadFields.name f)
    (Js.trim <$> LeadFields.company f)
    (Js.trim <$> LeadFields.phone f)
    (Js.trim <$> LeadFields.email f)
    (LeadFields.address f)
    (LeadFields.source f)
    (LeadFields.status f)
    (Js.trim <$> LeadFields.notes f)
    (LeadFields.createdBy f)
    (LeadFields.lastModifiedBy f).

Definition newLead (time : Z) (f : LeadFields.t) : Lead.t :=
  Lead.mk
    (default "" (LeadFields.name f))
    (LeadFields.company f)
    (default "" (LeadFields.phone f))
    (LeadFields.email f)
    (default "" (LeadFields.address f))
    (default "other" (LeadFields.source f))
    (default "new" (LeadFields.status f))
    (LeadFields.notes f)
    (default "" (LeadFields.createdBy f))
    (default "" (LeadFields.lastModifiedBy f))
    time time time.

(** The validators of the Lead schema on a new document: the ones of
    the paths that are set, and the required paths. *)
Definition validateNewLead (f : LeadFields.t) : bool :=
  validateLeadFields f
  && bool_decide (is_Some (LeadFields.name f))
  && bool_decide (is_Some (LeadFields.phone f))
  && bool_decide (is_Some (LeadFields.address f))
  && bool_decide (is_Some (LeadFields.createdBy f))
  && bool_decide (is_Some (LeadFields.lastModifiedBy f)).

Section MoreModels.

Variable dr : Driver.

Definition await2 {A} (op : DbOp2) (m : M A) : M A :=
  λ w, if dr_fails dr op then (Thrown "MongoError", w) else m w.

(** [Call.find(query).sort({ createdAt: -1 })], with [.limit(n)] when a
    limit is given (a negative one is read as its absolute value). The
    filter's ids are cast already. *)
Definition Call_find (q : CallFilter) (limit : option Z) : M (list Call.t) :=
  await2 CallFind
    (w ← getWorld;
     let sorted := merge_sort newerFirst (filter (λ c, matchesFilter q c) (calls w)) in
     mret (match limit with
           | Some n => take (Z.to_nat (Z.abs n)) sorted
           | None => sorted
           end)).

(** [Call.deleteMany({ lead: id })] *)
Definition Call_deleteMany (id : string) : M unit :=
  await2 CallDeleteMany
    (match ObjectId.cast id with
     | None => throw "CastError"
     | Some k =>
         w ← getWorld;
         putCalls (filter (λ c, negb (Call.lead c =? k)) (calls w))
     end).

(** [lead.deleteOne()] on the loaded document with id [k]. *)
Definition Lead_deleteOne (k : string) : M unit :=
  await2 LeadDeleteOne (w ← getWorld; putLeads (delete k (leads w))).

(** [Lead.create(fields)]: the new document under the id the driver
    made up; an id that is taken is a duplicate key error. *)
Definition Lead_create (f : LeadFields.t) : M (string * Lead.t) :=
  await2 LeadCreate
    (let f' := trimLeadFields f in
     if validateNewLead f' then
       w ← getWorld;
       match leads w !! dr_newId dr with
       | Some _ => throw "MongoServerError"
       | None =>
           let l := newLead (now (dr_env dr)) f' in
           putLeads (<[dr_newId dr := l]> (leads w));;
           mret (dr_newId dr, l)
       end
     else throw "ValidationError").

(** [User.findById(id)] *)
Definition User_findById (id : string) : M (option (string * User.t)) :=
  await2 UserFindById
    (match ObjectId.cast id with
     | None => throw "CastError"
     | Some k => w ← getWorld; mret ((λ u, (k, u)) <$> users w !! k)
     end).

(** [user.deleteOne()] on the loaded document with id [k]. *)
Definition User_deleteOne (k : string) : M unit :=
  await2 UserDeleteOne (w ← getWorld; putUsers (delete k (users w))).

(** [Lead.aggregate([{ $group: { _id: '$path', count: { $sum: 1 } } },
    { $project }, { $sort: { count: -1 } }])] *)
Definition Lead_aggregate (path : Lead.t → string) : M (list (string * nat)) :=
  await2 LeadAggregate
    (w ← getWorld;
     mret (merge_sort (largerFirst snd)
             ((λ g : string * list Lead.t, (g.1, length g.2))
                <$> groupBy path (snd <$> map_to_list (leads w))))).

End MoreModels.

(** ** controllers/callController.js: the other handlers *)

Section MoreCalls.

Variable dr : Driver.

Definition getConnectedCalls (req : LimitReq)
  : World → Response (list PopulatedCall) * World :=
  tryCatch
    (let query :=
       mkCallFilter None
         (if role (lm_user req) =? "telecaller" then Some (_id (lm_user req)) else None)
         (Some "connected") in
     let limit := Js.orDefault (lm_limit req) 10 in
     found ← Call_find dr query (Some limit);
     w ← getWorld;
     mret (jsonData 200 (populateCall w <$> found)))
    (serverError "Error getting connected calls:").

Definition getCallsByLead (req : IdReq)
  : World → Response (list (Call.t * option (string * string))) * World :=
  let u := ir_user req in
  tryCatch
    (found ← Lead_findById (dr_env dr) (ir_id req);
     match found with
     | None => mret (jsonMessage 404 false "Lead not found")
     | Some (k, lead) =>
       if (role u =? "telecaller") && negb (Lead.createdBy lead =? _id u)
       then mret (jsonMessage 403 false "Not authorized to access this lead")
       else
         found ← Call_find dr (mkCallFilter (Some k) None None) None;
         w ← getWorld;
         mret (jsonData 200 ((λ c, (c, userRef w (Call.user c))) <$> found))
     end)
    (serverError "Error getting calls by lead:").



End MoreCalls.

(** ** controllers/leadController.js: the other handlers *)

(** routes/leads.js, [leadValidation]: [name], [phone] and [source] are
    checked whether present or not; only [email] is optional. *)
Definition leadValidation (dr : Driver) (b : LeadFields.t) : list string :=
  CallValidation.check (negb (CallValidation.str (LeadFields.name b) =? ""))
    "Name is required"
  ++ CallValidation.check (negb (CallValidation.str (LeadFields.phone b) =? ""))
       "Phone is required"
  ++ CallValidation.check
       (Js.includes Lead.sources (CallValidation.str (LeadFields.source b)))
       "Source must be a valid option"
  ++ match LeadFields.email b with
     | Some s => CallValidation.check (isEmail (dr_env dr) s) "Invalid email format"
     | None => []
     end.

(** [{ ...req.body, createdBy: u, lastModifiedBy: u }] *)
Definition withOwner (u : string) (b : LeadFields.t) : LeadFields.t :=
  LeadFields.mk (LeadFields.name b) (LeadFields.company b) (LeadFields.phone b)
    (LeadFields.email b) (LeadFields.address b) (LeadFields.source b)
    (LeadFields.status b) (LeadFields.notes b) (Some u) (Some u).

Section MoreLeads.

Variable dr : Driver.

Definition getLeadById (req : IdReq) : World → Response LeadWithCalls * World :=
  let u := ir_user req in
  tryCatch
    (found ← Lead_findById (dr_env dr) (ir_id req);
     w ← getWorld;
     match found with
     | None => mret (jsonMessage 404 false "Lead not found")
     | Some (k, l) =>
       let lead := populateLead w (k, l) in
       (if role u =? "telecaller" then
          match pl_createdBy lead with
          | None => throw "TypeError"
          | Some _ => mret (negb (Lead.createdBy l =? _id u))
          end
        else mret false) ≫= λ denied : bool,
       if denied then mret (jsonMessage 403 false "Not authorized")
       else
         found ← Call_find dr (mkCallFilter (Some k) None None) None;
         w ← getWorld;
         mret (jsonData 200
                 (mkLeadWithCalls lead
                    ((λ c, (c, userRef w (Call.user c))) <$> found)))
     end)
    (serverError "Error getting lead by ID:").

Definition createLead (req : CreateLeadReq) : World → Response CreatedLead * World :=
  let u := cl_user req in
  let errs := leadValidation dr (cl_body req) in
  match errs with
  | _ :: _ => λ w, (jsonErrors errs, w)
  | [] =>
    tryCatch
      (created ← Lead_create dr (withOwner (_id u) (cl_body req));
       await2 dr LeadPopulate
         (w ← getWorld;
          mret (jsonData 201
                  (mkCreatedLead created.1 created.2
                     (userRef w (Lead.createdBy created.2))))))
      (serverError "Error creating lead:")
  end.

Definition deleteLead (req : IdReq) : World → Response unit * World :=
  let u := ir_user req in
  tryCatch
    (found ← Lead_findById (dr_env dr) (ir_id req);
     match found with
     | None => mret (jsonMessage 404 false "Lead not found")
     | Some (k, lead) =>
       if (role u =? "telecaller") && negb (Lead.createdBy lead =? _id u)
       then mret (jsonMessage 403 false "Not authorized")
       else
         Call_deleteMany dr (ir_id req);;
         Lead_deleteOne dr k;;
         mret (jsonMessage 200 true
                 "Lead and associated calls deleted successfully")
     end)
    (serverError "Error deleting lead:").

Definition getLeadSources : World → Response (list (string * nat)) * World :=
  tryCatch
    (sources ← Lead_aggregate dr Lead.source; mret (jsonData 200 sources))
    (serverError "Error getting lead sources:").

Definition getLeadStatuses : World → Response (list (string * nat)) * World :=
  tryCatch
    (statuses ← Lead_aggregate dr Lead.status; mret (jsonData 200 statuses))
    (serverError "Error getting lead statuses:").

End MoreLeads.

(** ** controllers/userController.js: deleteUser and getUserStats *)

Section Users.

Variable dr : Driver.

Definition deleteUser (req : IdReq) : World → Response unit * World :=
  tryCatch
    (found ← User_findById dr (ir_id req);
     match found with
     | None => mret (jsonMessage 404 false "User not found")
     | Some (k, _) =>
       if _id (ir_user req) =? ir_id req
       then mret (jsonMessage 400 false "Cannot delete your own account")
       else
         User_deleteOne dr k;;
         mret (jsonMessage 200 true "User deleted successfully")
     end)
    (serverError "Error deleting user:").

(** [totalCalls ? `${Math.round((connectedCalls / totalCalls) * 100)}%` : '0%'] *)
Definition roundedRateOf (totalCalls connectedCalls : nat) : string :=
  if (totalCalls =? 0)%nat then "0%"
  else Round.toString
         (PrimFloat.mul
            (PrimFloat.div (Number.ofNat connectedCalls) (Number.ofNat totalCalls))
            (Number.ofNat 100))
       ++ "%".

Definition countCalls (op : DbOp + DbOp2) (id : string) (q : string → CallQuery)
  : M nat :=
  λ w,
    if match op with
       | inl o => fails (dr_env dr) o
       | inr o => dr_fails dr o
       end
    then (Thrown "MongoError", w)
    else match ObjectId.cast id with
         | None => (Thrown "CastError", w)
         | Some k => (Val (length (filter (λ c, matchesCall (q k) c) (calls w))), w)
         end.

Definition getUserStats (req : IdReq) : World → Response UserStats * World :=
  tryCatch
    (found ← User_findById dr (ir_id req);
     match found with
     | None => mret (jsonMessage 404 false "User not found")
     | Some _ =>
       let isSelf := _id (ir_user req) =? ir_id req in
       if negb isSelf && negb (role (ir_user req) =? "admin")
       then mret (jsonMessage 403 false "Not authorized to view stats")
       else
         totalCalls ← countCalls (inl CallCountDocuments) (ir_id req)
                        (λ k, mkCallQuery (Some k) None None);
         connectedCalls ← countCalls (inl CallCountConnected) (ir_id req)
                            (λ k, mkCallQuery (Some k) (Some "connected") None);
         let oneWeekAgo := Date.addDays (now (dr_env dr)) (-7) in
         callsThisWeek ← countCalls (inr CallCountThisWeek) (ir_id req)
                           (λ k, mkCallQuery (Some k) None (Some (oneWeekAgo, None)));
         mret (jsonData 200
                 (mkUserStats totalCalls connectedCalls
                    (roundedRateOf totalCalls connectedCalls) callsThisWeek))
     end)
    (serverError "Error getting user stats:").

End Users.

(** ** Vocabulary of the further statements *)

(** The first instant of the window of [getCallTrends], and the filter
    of its [$match] stage. *)
Definition trendStart (env : Env) (req : TrendsReq) : Z :=
  Date.startOfLocalDay (tzOffset env)
    (Date.addDays (now env) (- Js.orDefault (tr_days req) 7 + 1)).

Definition trendQuery (env : Env) (req : TrendsReq) : CallQuery :=
  mkCallQuery
    (if role (tr_user req) =? "telecaller" then Some (_id (tr_user req)) else None)
    None
    (Some (trendStart env req, Some (now env))).

(** The calls made on a UTC day. *)
Definition callsOn (day : Z) (cs : list Call.t) : list Call.t :=
  filter (λ c, Date.utcDay (Call.createdAt c) = day) cs.

Definition connectedOf (cs : list Call.t) : list Call.t :=
  filter (λ c, Call.status c =? "connected") cs.

(** The group of a day among the groups [addToGroup] keeps. *)
Definition groupOf (day : Z) (gs : list (Z * (nat * nat))) : option (nat * nat) :=
  snd <$> find (λ g : Z * (nat * nat), (g.1 =? day)%Z) gs.

Definition dayKeys (gs : list (Z * (nat * nat))) : list Z := fst <$> gs.

(** The groups [groupByDay] makes its rows from. *)
Definition dayGroups (cs : list Call.t) : list (Z * (nat * nat)) :=
  foldl (λ gs c, addToGroup (Date.utcDay (Call.createdAt c))
                   (Call.status c =? "connected") gs) [] cs.

(** The documents of the group with key [k]. *)
Definition groupAt {A} (k : string) (gs : list (string * list A)) : option (list A) :=
  snd <$> find (λ g : string * list A, g.1 =? k) gs.


Definition callsOfUser (uid : string) (cs : list Call.t) : list Call.t :=
  filter (λ c, Call.user c = uid) cs.

Definition callsOfLead (k : string) (cs : list Call.t) : list Call.t :=
  filter (λ c, Call.lead c = k) cs.

Definition leadsWith (path : Lead.t → string) (v : string) (w : World)
  : list Lead.t :=
  filter (λ l, path l = v) (snd <$> map_to_list (leads w)).

(** The calls made since an instant. *)
Definition callsSince (t : Z) (cs : list Call.t) : list Call.t :=
  filter (λ c, (t ≤ Call.createdAt c)%Z) cs.

(** The leads a caller's dashboard counts: their own for a telecaller,
    all of them otherwise. *)
Definition ownLead (u : AuthUser) (l : Lead.t) : bool :=
  if role u =? "telecaller" then Lead.createdBy l =? _id u else true.

(** More sample data: drivers over the sample environment, the three
    callers, and a store whose only lead has lost its creator. *)
Module Demo.

Definition newLeadId : string := "222222222222222222222222".

Definition driver : Driver := mkDriver Sample.env (λ _, false) newLeadId.

Definition driverPopulateDown : Driver :=
  mkDriver Sample.env
    (λ op, match op with LeadPopulate => true | _ => false end) newLeadId.

Definition driverDeleteOneDown : Driver :=
  mkDriver Sample.env
    (λ op, match op with LeadDeleteOne => true | _ => false end) newLeadId.

Definition tele1 : AuthUser := mkAuthUser Sample.tele1 "telecaller".
Definition tele2 : AuthUser := mkAuthUser Sample.tele2 "telecaller".
Definition boss : AuthUser := mkAuthUser Sample.boss "admin".

(** A body for a new lead that also names another user as its creator. *)
Definition leadBody : LeadFields.t :=
  LeadFields.mk (Some "Ravi Iyer") None (Some "5550111") None (Some "2 Side St")
    (Some "referral") None None (Some Sample.tele2) None.

Definition blankName : LeadFields.t :=
  LeadFields.mk (Some "  ") None None None None None None None None None.


(** The sample environment, but the populate chained to the update of a
    lead throws. *)
Definition envPopulateDown : Env :=
  mkEnv 1700000000000 0
    (λ op, match op with LeadPopulateUpdated => true | _ => false end)
    (λ _, true).

Definition toConverted : LeadFields.t :=
  LeadFields.mk None None None None None None (Some "converted") None None None.

Definition orphanWorld : World :=
  mkWorld {[ Sample.lead1 := Sample.lead "new" ]} []
    {[ Sample.tele2 := User.mk "Tele Two" "tele2" "telecaller" ]} [].

(** Three calls of the first telecaller on the sample lead, the first
    of them connected. *)
Definition missedCall (t : Z) : Call.t :=
  Call.mk Sample.lead1 Sample.tele1 "not_connected" 0 None (Some "busy") None t.

Definition worldOneInThree : World :=
  mkWorld {[ Sample.lead1 := Sample.lead "contacted" ]}
    [Sample.callToday; missedCall 1699996500000; missedCall 1699996600000]
    Sample.users [].

End Demo.

(** * Properties *)

(** ** Proof tools *)

Ltac unfold_ops :=
  unfold tryCatch, serverError, consoleError, Lead_findById,
    Lead_findByIdAndUpdate, Lead_save, Call_create, Call_populate,
    Lead_find, Lead_countDocuments, Call_aggregate, Call_countDocuments,
    User_countDocuments, await, throw, getWorld, putLeads, putCalls;
  unfold mbind, mret, M_bind, M_ret.

Ltac crunch := repeat (case_match; simplify_eq/=; eauto).

Ltac eqb_props :=
  repeat match goal with
    | H : (_ =? _) = true |- _ => apply String.eqb_eq in H
    | H : (_ =? _) = false |- _ => apply String.eqb_neq in H
    end.

Ltac lookups :=
  repeat match goal with
    | H : _ <$> _ !! _ = Some _ |- _ =>
        apply fmap_Some in H; destruct H as (? & ? & ?); simplify_eq
    end;
  repeat match goal with
    | |- context [ <[?a := _]> _ !! ?b ] =>
        destruct (decide (a = b));
        [subst; rewrite lookup_insert_eq | rewrite lookup_insert_ne by done]
    | H : context [ <[?a := _]> _ !! ?b ] |- _ =>
        first [rewrite lookup_insert_eq in H
              | rewrite lookup_insert_ne in H by done]
    end;
  simplify_eq.

Lemma includes_In xs s : Js.includes xs s = true → In s xs.
Proof.
  unfold Js.includes. rewrite existsb_exists.
  intros (x & Hx & Heq). apply String.eqb_eq in Heq. by subst.
Qed.

Lemma callMove_refl l : callMove l l.
Proof. split; auto. Qed.

Lemma newStatus_cases s r :
  newStatus s r = s
  ∨ (s = "new" ∧ newStatus s r = "contacted")
  ∨ ((s = "new" ∨ s = "contacted") ∧ newStatus s r = "qualified").
Proof.
  unfold newStatus, Js.includes; simpl.
  destruct (String.eqb_spec s "new") as [->|E1]; simpl.
  - destruct r as [r|]; [destruct (r =? "interested")|]; simpl; auto 6.
  - destruct (String.eqb_spec s "contacted") as [->|E2]; simpl.
    + destruct r as [r|]; [destruct (r =? "interested")|]; simpl; auto 6.
    + rewrite andb_false_r. auto.
Qed.

(** Whatever the request and whatever fails, [createCall] keeps every
    stored lead, and moves it by [callMove]. *)
Lemma createCall_leads env req w k l :
  leads w !! k = Some l →
  ∃ l', leads (createCall env req w).2 !! k = Some l' ∧ callMove l l'.
Proof.
  intros Hk.
  pose proof (callMove_refl l) as Hrefl.
  unfold createCall.
  destruct (CallValidation.run _) eqn:Hv; [|simpl; eauto].
  unfold_ops. crunch.
  all: lookups; eauto.
  all: eexists; split; [reflexivity|]; split; simpl; auto.
  all: eqb_props.
  all: first [apply newStatus_cases | auto].
Qed.

Lemma callMove_statuses l l' :
  callMove l l' →
  In (Lead.status l) Lead.statuses →
  In (Lead.status l') Lead.statuses
  ∧ (stage (Lead.status l) ≤ stage (Lead.status l'))%nat.
Proof.
  intros [_ Hs] Hin.
  destruct Hs as [-> | [[-> ->] | [[-> | ->] ->]]]; [auto | | |];
    (split; [simpl; auto 6 | unfold stage; simpl; lia]).
Qed.

Lemma callMove_settled l l' :
  callMove l l' →
  Lead.status l ≠ "new" → Lead.status l ≠ "contacted" →
  Lead.status l' = Lead.status l.
Proof. intros [_ Hs] ? ?. intuition congruence. Qed.

(** C2: the status logic of [createCall] is total and closed. Whatever
    the request, and whichever database operation fails, a stored lead
    whose status is one of the six is still stored afterwards with a
    status among the six that is not an earlier stage; a lead that is
    lost stays lost, one that is converted stays converted, and more
    generally only new and contacted leads ever change status. *)
Theorem createCall_status_closed_monotone env req w k l :
  leads w !! k = Some l →
  In (Lead.status l) Lead.statuses →
  ∃ l', leads (createCall env req w).2 !! k = Some l'
        ∧ In (Lead.status l') Lead.statuses
        ∧ (stage (Lead.status l) ≤ stage (Lead.status l'))%nat
        ∧ (Lead.status l = "lost" → Lead.status l' = "lost")
        ∧ (Lead.status l = "converted" → Lead.status l' = "converted")
        ∧ (Lead.status l ≠ "new" → Lead.status l ≠ "contacted" →
           Lead.status l' = Lead.status l).
Proof.
  intros Hk Hin.
  destruct (createCall_leads env req w k l Hk) as (l' & Hl' & Hmove).
  exists l'. destruct (callMove_statuses l l' Hmove Hin) as [Hin' Hle].
  repeat split; auto.
  - intros E. rewrite <- E. apply (callMove_settled l l' Hmove); by rewrite E.
  - intros E. rewrite <- E. apply (callMove_settled l l' Hmove); by rewrite E.
  - by apply callMove_settled.
Qed.

Lemma createCall_status_closed_monotone_witness :
  leads (Sample.world "lost") !! Sample.lead1 = Some (Sample.lead "lost")
  ∧ In "lost" Lead.statuses
  ∧ ∃ l', leads (createCall Sample.env
                   (Sample.asTele1 Sample.connectedInterested)
                   (Sample.world "lost")).2 !! Sample.lead1 = Some l'
          ∧ In (Lead.status l') Lead.statuses
          ∧ (stage "lost" ≤ stage (Lead.status l'))%nat
          ∧ ("lost" = "lost" → Lead.status l' = "lost")
          ∧ ("lost" = "converted" → Lead.status l' = "converted")
          ∧ ("lost" ≠ "new" → "lost" ≠ "contacted" → Lead.status l' = "lost").
Proof.
  split; [reflexivity|]. split; [simpl; auto 7|].
  apply (createCall_status_closed_monotone Sample.env
           (Sample.asTele1 Sample.connectedInterested)
           (Sample.world "lost") Sample.lead1 (Sample.lead "lost")).
  - reflexivity.
  - simpl; auto 7.
Defined.

Lemma interested_connected b :
  interested b = true →
  CallValidation.str (CallBody.status b) = "connected"
  ∧ CallBody.connectedResponse b = Some "interested".
Proof.
  unfold interested, CallValidation.str.
  intros [H1 H2]%andb_true_iff. apply String.eqb_eq in H1, H2.
  split; [done|]. destruct (CallBody.connectedResponse b); simpl in *; by subst.
Qed.

Lemma recorded_status_facts s b :
  (interested b = true → CallValidation.str (CallBody.status b) = "connected")
  ∧ (CallValidation.str (CallBody.status b) = "connected" →
     interested b = false → s = "new" →
     newStatus s (CallBody.connectedResponse b) = "contacted")
  ∧ (interested b = true → s = "new" ∨ s = "contacted" →
     newStatus s (CallBody.connectedResponse b) = "qualified").
Proof.
  split; [by intros [? _]%interested_connected|]. split.
  - unfold interested, CallValidation.str. intros -> Hi ->. simpl in Hi.
    unfold newStatus. simpl.
    destruct (CallBody.connectedResponse b) as [r|]; simpl in *; [|done].
    by rewrite Hi.
  - intros [_ ->]%interested_connected Hs. unfold newStatus, Js.includes. simpl.
    destruct Hs as [-> | ->]; reflexivity.
Qed.

Ltac status_facts l b :=
  pose proof (recorded_status_facts (Lead.status l) b) as (? & ? & ?);
  repeat match goal with
    | H : negb _ = true |- _ => apply negb_true_iff in H
    | H : negb _ = false |- _ => apply negb_false_iff in H
    end;
  eqb_props; try congruence; try (intuition congruence).

(** C1: for every call that [createCall] records (it answers 201) against
    a stored lead: a new lead ends up contacted, whether the call was
    connected or not, unless the call was connected with the response
    'interested'; and for such a call a lead that was new or contacted
    ends up qualified. *)
Theorem createCall_recorded_status env req w k l :
  ObjectId.cast (CallValidation.str (CallBody.lead (cr_body req))) = Some k →
  leads w !! k = Some l →
  code (createCall env req w).1 = 201 →
  ∃ l', leads (createCall env req w).2 !! k = Some l'
        ∧ (Lead.status l = "new" → interested (cr_body req) = false →
           Lead.status l' = "contacted")
        ∧ (interested (cr_body req) = true →
           Lead.status l = "new" ∨ Lead.status l = "contacted" →
           Lead.status l' = "qualified").
Proof.
  intros Hcast Hk. unfold createCall.
  destruct (CallValidation.run _) eqn:Hv; [|simpl; discriminate].
  unfold_ops. rewrite Hcast.
  crunch.
  all: lookups; eauto.
  all: intros ?; simplify_eq.
  all: first [exists l; split; [exact Hk|] | eexists; split; [reflexivity|]];
    simpl.
  all: clear Hv Hcast; split; intros.
  all: status_facts l (cr_body req).
Qed.

Lemma createCall_recorded_status_witness :
  ObjectId.cast (CallValidation.str (CallBody.lead
     (cr_body (Sample.asTele1 Sample.connectedInterested)))) = Some Sample.lead1
  ∧ leads (Sample.world "new") !! Sample.lead1 = Some (Sample.lead "new")
  ∧ code (createCall Sample.env (Sample.asTele1 Sample.connectedInterested)
            (Sample.world "new")).1 = 201
  ∧ ∃ l', leads (createCall Sample.env
                   (Sample.asTele1 Sample.connectedInterested)
                   (Sample.world "new")).2 !! Sample.lead1 = Some l'
          ∧ (Lead.status (Sample.lead "new") = "new" →
             interested Sample.connectedInterested = false →
             Lead.status l' = "contacted")
          ∧ (interested Sample.connectedInterested = true →
             Lead.status (Sample.lead "new") = "new"
             ∨ Lead.status (Sample.lead "new") = "contacted" →
             Lead.status l' = "qualified").
Proof.
  split; [reflexivity|]. split; [reflexivity|]. split; [reflexivity|].
  apply (createCall_recorded_status Sample.env
           (Sample.asTele1 Sample.connectedInterested) (Sample.world "new")
           Sample.lead1 (Sample.lead "new")); reflexivity.
Defined.

(** ** The call that is stored *)

Lemma callData_fields u b :
  (CallData.connectedResponse (callData u b) ≠ None →
   CallData.status (callData u b) = "connected")
  ∧ (CallData.notConnectedReason (callData u b) ≠ None →
     CallData.status (callData u b) = "not_connected")
  ∧ (CallData.connectedResponse (callData u b) = None
     ∨ CallData.notConnectedReason (callData u b) = None).
Proof.
  unfold callData.
  destruct (String.eqb_spec (CallValidation.str (CallBody.status b)) "connected")
    as [E1|E1]; simpl.
  - destruct (Js.truthy (CallBody.connectedResponse b)); simpl.
    + repeat split; auto; congruence.
    + rewrite E1. simpl. repeat split; auto; congruence.
  - destruct (String.eqb_spec (CallValidation.str (CallBody.status b))
                "not_connected") as [E2|E2]; simpl.
    + destruct (Js.truthy (CallBody.notConnectedReason b)); simpl;
        repeat split; auto; congruence.
    + repeat split; auto; congruence.
Qed.

(** Whatever the request and whatever fails, [createCall] stores at most
    one call, the one built from [callData], and no user. *)
Lemma createCall_calls env req w :
  users (createCall env req w).2 = users w
  ∧ (calls (createCall env req w).2 = calls w
     ∨ ∃ k, calls (createCall env req w).2
            = (calls w ++ [newCall env k (callData (cr_user req) (cr_body req))])%list).
Proof.
  unfold createCall.
  destruct (CallValidation.run _) eqn:Hv; [|simpl; eauto].
  unfold_ops. crunch.
Qed.

(** C10: a call stored by [createCall] carries [connectedResponse] only
    with status 'connected', [notConnectedReason] only with status
    'not_connected', and never both. The handler stores nothing or
    appends exactly one call, and that call has these properties. *)
Theorem createCall_conditional_fields env req w :
  calls (createCall env req w).2 = calls w
  ∨ ∃ c, calls (createCall env req w).2 = (calls w ++ [c])%list
         ∧ (Call.connectedResponse c ≠ None → Call.status c = "connected")
         ∧ (Call.notConnectedReason c ≠ None → Call.status c = "not_connected")
         ∧ (Call.connectedResponse c = None ∨ Call.notConnectedReason c = None).
Proof.
  destruct (createCall_calls env req w) as [_ [H | [k H]]]; [by left|].
  right. eexists. split; [exact H|]. simpl.
  apply callData_fields.
Qed.

Lemma check_nil ok msg : CallValidation.check ok msg = [] → ok = true.
Proof. by destruct ok. Qed.



(** ** Authorization and partial failure of createCall *)

(** C6: a telecaller who asks to record a call against a stored lead that
    another user created changes nothing in the store (no call, no lead
    status, no user), in every case, and is never answered with success;
    when the body passes validation and the lookup of the lead does not
    throw, the answer is 403. *)
Theorem createCall_foreign_lead_forbidden env req w k l :
  role (cr_user req) = "telecaller" →
  ObjectId.cast (CallValidation.str (CallBody.lead (cr_body req))) = Some k →
  leads w !! k = Some l →
  Lead.createdBy l ≠ _id (cr_user req) →
  leads (createCall env req w).2 = leads w
  ∧ calls (createCall env req w).2 = calls w
  ∧ users (createCall env req w).2 = users w
  ∧ success (createCall env req w).1 = false
  ∧ (CallValidation.run (cr_body req) = [] →
     fails env LeadFindById = false →
     code (createCall env req w).1 = 403).
Proof.
  intros Hrole Hcast Hk Hne. apply String.eqb_neq in Hne.
  unfold createCall.
  destruct (CallValidation.run _) eqn:Hv; [|simpl; done].
  unfold_ops. rewrite Hcast, Hrole.
  destruct (fails env LeadFindById); simpl; [done|].
  rewrite Hk. simpl. rewrite Hne. simpl. done.
Qed.

Lemma createCall_foreign_lead_forbidden_witness :
  role (cr_user (Sample.asTele2 Sample.connectedInterested)) = "telecaller"
  ∧ ObjectId.cast (CallValidation.str (CallBody.lead
       (cr_body (Sample.asTele2 Sample.connectedInterested))))
    = Some Sample.lead1
  ∧ leads (Sample.world "new") !! Sample.lead1 = Some (Sample.lead "new")
  ∧ Lead.createdBy (Sample.lead "new")
    ≠ _id (cr_user (Sample.asTele2 Sample.connectedInterested))
  ∧ code (createCall Sample.env (Sample.asTele2 Sample.connectedInterested)
            (Sample.world "new")).1 = 403
  ∧ calls (createCall Sample.env (Sample.asTele2 Sample.connectedInterested)
             (Sample.world "new")).2 = calls (Sample.world "new").
Proof.
  split; [reflexivity|]. split; [reflexivity|]. split; [reflexivity|].
  split; [discriminate|].
  destruct (createCall_foreign_lead_forbidden Sample.env
              (Sample.asTele2 Sample.connectedInterested) (Sample.world "new")
              Sample.lead1 (Sample.lead "new"))
    as (_ & Hcalls & _ & _ & Hcode);
    [reflexivity | reflexivity | reflexivity | discriminate |].
  split; [apply Hcode; reflexivity | exact Hcalls].
Defined.




(** ** Who is recorded as the last modifier *)

(** C3, at the failing input: the admin records a call that did not
    connect against a new lead of the first telecaller. The call is
    recorded (201) and the stored lead becomes contacted, but its
    [lastModifiedBy] is still the first telecaller, not the admin. The
    same call reported as connected does set [lastModifiedBy] to the
    admin. *)
Theorem createCall_not_connected_keeps_lastModifiedBy :
  code (createCall Sample.env (Sample.asBoss Sample.notConnected)
          (Sample.world "new")).1 = 201
  ∧ (λ l, (Lead.status l, Lead.lastModifiedBy l))
      <$> leads (createCall Sample.env (Sample.asBoss Sample.notConnected)
                   (Sample.world "new")).2 !! Sample.lead1
    = Some ("contacted", Sample.tele1)
  ∧ (λ l, (Lead.status l, Lead.lastModifiedBy l))
      <$> leads (createCall Sample.env (Sample.asBoss Sample.connectedDiscussed)
                   (Sample.world "new")).2 !! Sample.lead1
    = Some ("contacted", Sample.boss).
Proof. vm_compute. auto. Qed.

(** ** The owner of a lead *)

Lemma castLeadFields_createdBy u u' :
  castLeadFields u = Some u' →
  LeadFields.createdBy u = None → LeadFields.createdBy u' = None.
Proof.
  unfold castLeadFields. intros H Hnone. rewrite Hnone in H.
  simpl in H. by simplify_eq.
Qed.

(** Whatever fails, [updateLead] with a body without [createdBy] keeps
    every stored lead and its owner. *)
Lemma updateLead_createdBy env req w k l :
  leads w !! k = Some l →
  LeadFields.createdBy (ur_body req) = None →
  ∃ l', leads (updateLead env req w).2 !! k = Some l'
        ∧ Lead.createdBy l' = Lead.createdBy l.
Proof.
  intros Hk Hnone. unfold updateLead.
  destruct (updateLeadValidation _ _) eqn:Hv; [|simpl; eauto].
  unfold_ops. crunch.
  all: lookups; eauto.
  all: eexists; split; [reflexivity|]; simpl.
  all: match goal with
       | H : castLeadFields _ = Some _ |- _ =>
           apply castLeadFields_createdBy in H; [by rewrite H | done]
       end.
Qed.

(** The owner of a stored lead is the same after an [updateLead] whose
    body carries no [createdBy] key, and after any [createCall],
    whatever else the request holds and whatever fails. *)
Lemma createdBy_kept_without_createdBy_key env w k l :
  leads w !! k = Some l →
  (∀ req, LeadFields.createdBy (ur_body req) = None →
     ∃ l', leads (updateLead env req w).2 !! k = Some l'
           ∧ Lead.createdBy l' = Lead.createdBy l)
  ∧ (∀ req, ∃ l', leads (createCall env req w).2 !! k = Some l'
                  ∧ Lead.createdBy l' = Lead.createdBy l).
Proof.
  intros Hk. split.
  - intros req Hnone. by apply updateLead_createdBy.
  - intros req. destruct (createCall_leads env req w k l Hk) as (l' & ? & ? & _).
    eauto.
Qed.

(** ** The leads a caller sees *)

Lemma Lead_find_elem env q field order skip limit w found w' p :
  Lead_find env q field order skip limit w = (Val found, w') →
  p ∈ found →
  leads w !! pl_id p = Some (pl_lead p) ∧ matchesLead q (pl_lead p) = true.
Proof.
  unfold Lead_find. unfold_ops.
  destruct (fails env LeadFind); [done|].
  destruct (skip <? 0)%Z; [done|]. intros [= <- <-] Hp.
  apply list_elem_of_fmap in Hp as ([k l] & -> & Hd).
  apply subseteq_take, subseteq_drop in Hd.
  rewrite merge_sort_Permutation in Hd.
  apply list_elem_of_filter in Hd as [Hm Hd].
  apply elem_of_map_to_list in Hd. simpl in *.
  split; [done|]. by apply Is_true_true.
Qed.

Lemma matchesLead_createdBy q l u :
  lq_createdBy q = Some u → matchesLead q l = true → Lead.createdBy l = u.
Proof.
  unfold matchesLead. intros ->.
  intros [_ H]%andb_true_iff. by apply String.eqb_eq.
Qed.

Lemma matchesLead_params req l :
  role (lr_user req) ≠ "telecaller" →
  matchesLead (leadsQuery req) l = matchesParams req l.
Proof.
  intros Hr%String.eqb_neq. unfold matchesLead, leadsQuery, matchesParams.
  rewrite Hr. simpl. rewrite andb_true_r.
  destruct (lr_status req) as [s|], (lr_source req) as [s'|]; simpl;
    repeat (destruct (negb _)); reflexivity.
Qed.

(** For a caller who is no telecaller [getLeads] pages through the
    leads of every owner. *)
Lemma getLeads_unscoped env req w :
  role (lr_user req) ≠ "telecaller" →
  fails env LeadFind = false → fails env LeadCountDocuments = false →
  (0 ≤ (Js.orDefault (lr_page req) 1 - 1) * Js.orDefault (lr_limit req) 100)%Z →
  let sorted := unscopedLeads req w in
    getLeads env req w
      = (jsonData 200
           (mkLeadsPage
              (length (take (Z.to_nat (Z.abs (Js.orDefault (lr_limit req) 100)))
                         (drop (Z.to_nat ((Js.orDefault (lr_page req) 1 - 1)
                                          * Js.orDefault (lr_limit req) 100))
                            sorted)))
              (length sorted)
              (ceilDiv (Z.of_nat (length sorted)) (Js.orDefault (lr_limit req) 100))
              (Js.orDefault (lr_page req) 1)
              (Js.orDefault (lr_limit req) 100)
              (populateLead w
                 <$> take (Z.to_nat (Z.abs (Js.orDefault (lr_limit req) 100)))
                       (drop (Z.to_nat ((Js.orDefault (lr_page req) 1 - 1)
                                        * Js.orDefault (lr_limit req) 100))
                          sorted))), w).
Proof.
  intros Hne Hfind Hcount Hskip.
  assert (filter (λ d : string * Lead.t, matchesLead (leadsQuery req) d.2)
            (map_to_list (leads w))
          = filter (λ d : string * Lead.t, matchesParams req d.2)
              (map_to_list (leads w))) as Hf.
  { apply list_filter_iff. intros [k l]. simpl.
    by rewrite matchesLead_params. }
  unfold unscopedLeads. rewrite <- Hf.
  unfold getLeads, Lead_find, Lead_countDocuments. unfold_ops.
  rewrite Hfind, Hcount.
  destruct (_ <? 0)%Z eqn:Hlt; [apply Z.ltb_lt in Hlt; lia|].
  cbn [fst snd]. rewrite length_fmap.
  set (sorted := merge_sort _ _).
  replace (length (filter _ _)) with (length sorted); [reflexivity|].
  apply Permutation_length, merge_sort_Permutation.
Qed.

Lemma unscopedLeads_perm req w :
  unscopedLeads req w
  ≡ₚ filter (λ d : string * Lead.t, matchesParams req d.2)
       (map_to_list (leads w)).
Proof. apply merge_sort_Permutation. Qed.

Lemma pl_id_populateLead w (l : list (string * Lead.t)) :
  pl_id <$> (populateLead w <$> l) = fst <$> l.
Proof. rewrite <- list_fmap_compose. by apply list_fmap_ext. Qed.

(** C5: at every state of the store, whatever the query string and
    whatever fails, every lead in the page [getLeads] answers a
    telecaller with is a stored lead created by that telecaller. For an
    admin (any caller who is no telecaller) the owner plays no part:
    when the two queries succeed and the skip is not negative, the total
    counts the stored leads of every owner that meet the [status] and
    [source] parameters, the page holds distinct stored leads that meet
    them, as many as the limit allows of those the skip leaves; and with
    a positive limit every such lead, whoever owns it, is on one of the
    pages. *)
Theorem getLeads_scope env req w :
  (role (lr_user req) = "telecaller" →
   ∀ page p,
     data (getLeads env req w).1 = Some page → p ∈ lp_data page →
     leads w !! pl_id p = Some (pl_lead p)
     ∧ Lead.createdBy (pl_lead p) = _id (lr_user req))
  ∧ (role (lr_user req) ≠ "telecaller" →
     fails env LeadFind = false → fails env LeadCountDocuments = false →
     (0 ≤ (Js.orDefault (lr_page req) 1 - 1) * Js.orDefault (lr_limit req) 100)%Z →
     ∃ page,
       getLeads env req w = (jsonData 200 page, w)
       ∧ lp_total page
         = length (filter (λ d : string * Lead.t, matchesParams req d.2)
                     (map_to_list (leads w)))
       ∧ (∀ p, p ∈ lp_data page →
            leads w !! pl_id p = Some (pl_lead p)
            ∧ matchesParams req (pl_lead p) = true)
       ∧ NoDup (pl_id <$> lp_data page)
       ∧ lp_count page = length (lp_data page)
       ∧ Z.of_nat (lp_count page)
         = Z.min (Z.abs (Js.orDefault (lr_limit req) 100))
             (Z.max 0 (Z.of_nat (lp_total page)
                       - (Js.orDefault (lr_page req) 1 - 1)
                         * Js.orDefault (lr_limit req) 100)))
  ∧ (role (lr_user req) ≠ "telecaller" →
     fails env LeadFind = false → fails env LeadCountDocuments = false →
     (0 < Js.orDefault (lr_limit req) 100)%Z →
     ∀ k l, leads w !! k = Some l → matchesParams req l = true →
       ∃ n page p,
         (1 ≤ n)%Z
         ∧ getLeads env (atPage n req) w = (jsonData 200 page, w)
         ∧ p ∈ lp_data page ∧ pl_id p = k ∧ pl_lead p = l).
Proof.
  split; [|split].
  - intros Hrole page p. unfold getLeads, tryCatch, serverError.
    unfold mbind, mret, M_bind, M_ret.
    destruct (Lead_find env _ _ _ _ _ w) as [[found|e] w1] eqn:Hfind; [|done].
    destruct (Lead_countDocuments env _ w1) as [[total|e] w2]; [|done].
    simpl. intros [= <-] Hp. simpl in Hp.
    destruct (Lead_find_elem _ _ _ _ _ _ _ _ _ p Hfind Hp) as [Hl Hm].
    split; [done|].
    apply (matchesLead_createdBy (leadsQuery req)); [|done].
    unfold leadsQuery. by rewrite Hrole.
  - intros Hne Hfind Hcount Hskip.
    rewrite (getLeads_unscoped env req w Hne Hfind Hcount Hskip).
    pose proof (unscopedLeads_perm req w) as Hperm.
    set (sorted := unscopedLeads req w) in *.
    eexists. split; [reflexivity|].
    cbn [lp_total lp_data lp_count].
    split; [by rewrite Hperm|]. split; [|split; [|split]].
    + intros p Hp. apply list_elem_of_fmap in Hp as ([k l] & -> & Hd).
      apply subseteq_take, subseteq_drop in Hd. rewrite Hperm in Hd.
      apply list_elem_of_filter in Hd as [Hm Hd].
      apply elem_of_map_to_list in Hd. simpl in *.
      split; [done|]. by apply Is_true_true.
    + rewrite pl_id_populateLead.
      assert (NoDup (fst <$> sorted)) as Hnd.
      { rewrite Hperm.
        eapply sublist_NoDup; [apply (NoDup_fst_map_to_list (leads w))|].
        apply fmap_sublist, sublist_filter. }
      eapply sublist_NoDup; [exact Hnd|]. apply fmap_sublist.
      etrans; [apply sublist_take|apply sublist_drop].
    + by rewrite length_fmap.
    + rewrite length_take, length_drop. lia.
  - intros Hne Hfind Hcount Hlimit k l Hk Hm.
    set (L := Js.orDefault (lr_limit req) 100) in *.
    assert ((k, l) ∈ unscopedLeads req w) as Hin.
    { rewrite unscopedLeads_perm. apply list_elem_of_filter. split.
      - by apply Is_true_true.
      - by apply elem_of_map_to_list. }
    apply list_elem_of_lookup in Hin as [i Hi].
    pose (n := (Z.of_nat i / L + 1)%Z).
    assert (0 ≤ Z.of_nat i / L)%Z as Hq by (apply Z.div_pos; lia).
    assert (Js.orDefault (lr_page (atPage n req)) 1 = n) as Hn.
    { unfold atPage, Js.orDefault. cbn [lr_page].
      destruct (n =? 0)%Z eqn:E; [apply Z.eqb_eq in E; lia|done]. }
    assert (Js.orDefault (lr_limit (atPage n req)) 100 = L) as HL by done.
    assert (0 ≤ (n - 1) * L)%Z as Hskip by (unfold n; nia).
    exists n. eexists.
    exists (populateLead w (k, l)).
    split; [lia|]. split.
    { rewrite (getLeads_unscoped env (atPage n req) w); [|done..|by rewrite Hn, HL].
      rewrite Hn, HL. reflexivity. }
    cbn [lp_data]. split; [|done].
    apply list_elem_of_fmap_2.
    change (unscopedLeads (atPage n req) w) with (unscopedLeads req w).
    apply list_elem_of_lookup.
    exists (i - Z.to_nat ((n - 1) * L))%nat.
    assert (Z.to_nat ((n - 1) * L) = (i / Z.to_nat L * Z.to_nat L)%nat) as ->.
    { unfold n. replace (Z.of_nat i / L + 1 - 1)%Z with (Z.of_nat i / L)%Z by lia.
      rewrite Z2Nat.inj_mul by lia. f_equal.
      rewrite <- (Nat2Z.id (i / Z.to_nat L)). f_equal.
      rewrite Nat2Z.inj_div. f_equal. lia. }
    assert (Z.to_nat L ≠ 0)%nat as HL0 by lia.
    pose proof (Nat.div_mod_eq i (Z.to_nat L)) as Hdm.
    pose proof (Nat.mod_upper_bound i (Z.to_nat L) HL0) as Hub.
    rewrite lookup_take_lt by (rewrite Z.abs_eq by lia; lia).
    rewrite lookup_drop. rewrite <- Hi. f_equal. lia.
Qed.

Lemma getLeads_scope_witness :
  (∃ page p,
     data (getLeads Sample.env (Sample.listAs Demo.tele1)
             (Sample.world "new")).1 = Some page
     ∧ p ∈ lp_data page
     ∧ leads (Sample.world "new") !! pl_id p = Some (pl_lead p)
     ∧ Lead.createdBy (pl_lead p) = Sample.tele1)
  ∧ (∃ page,
       getLeads Sample.env (Sample.listAs Demo.boss) (Sample.world "new")
       = (jsonData 200 page, Sample.world "new")
       ∧ Z.of_nat (lp_count page) = 1%Z)
  ∧ (∃ n page p,
       (1 ≤ n)%Z
       ∧ getLeads Sample.env (atPage n (Sample.listAs Demo.boss))
           (Sample.world "new")
         = (jsonData 200 page, Sample.world "new")
       ∧ p ∈ lp_data page ∧ pl_id p = Sample.lead1
       ∧ pl_lead p = Sample.lead "new").
Proof.
  split; [|split].
  - destruct (getLeads_scope Sample.env (Sample.listAs Demo.tele1)
                (Sample.world "new")) as (Htele & _ & _).
    assert (∃ page p,
              data (getLeads Sample.env (Sample.listAs Demo.tele1)
                      (Sample.world "new")).1 = Some page
              ∧ p ∈ lp_data page) as (page & p & Hd & Hp).
    { vm_compute. eexists _, _. split; [reflexivity|]. constructor. }
    exists page, p. split; [exact Hd|]. split; [exact Hp|].
    exact (Htele eq_refl page p Hd Hp).
  - destruct (getLeads_scope Sample.env (Sample.listAs Demo.boss)
                (Sample.world "new")) as (_ & Hadmin & _).
    destruct Hadmin as (page & Hrun & Htot & _ & _ & _ & Hcount);
      [discriminate|reflexivity|reflexivity|vm_compute; discriminate|].
    exists page. split; [exact Hrun|]. rewrite Hcount, Htot. reflexivity.
  - destruct (getLeads_scope Sample.env (Sample.listAs Demo.boss)
                (Sample.world "new")) as (_ & _ & Hcover).
    apply Hcover;
      [discriminate|reflexivity|reflexivity|reflexivity|reflexivity|reflexivity].
Defined.

(** ** The dashboard's connection rate *)

Lemma hundredths_nearest m e : nearestHundredth m e (Number.hundredths m e).
Proof.
  unfold nearestHundredth, Number.hundredths.
  destruct (Z.leb_spec 0 e) as [He|He].
  - rewrite (Z.max_r (- e) 0), (Z.max_l e 0) by lia. simpl. lia.
  - rewrite (Z.max_l (- e) 0), (Z.max_r e 0) by lia.
    assert (0 < 2 ^ (- e))%Z as Hd by (apply Z.pow_pos_nonneg; lia).
    set (d := (2 ^ (- e))%Z) in *.
    pose proof (Z.div_mod (200 * Z.pos m + d) (2 * d) ltac:(lia)) as Hdm.
    pose proof (Z.mod_pos_bound (200 * Z.pos m + d) (2 * d) ltac:(lia)) as Hr.
    set (n := ((200 * Z.pos m + d) / (2 * d))%Z) in *.
    rewrite Z.pow_0_r. nia.
Qed.

Lemma toFixed2_finite x s m e :
  Prim2SF x = S754_finite s m e →
  Number.toFixed2 x
  = (if s then "-" else "") ++ Number.fixed2 (Number.hundredths m e).
Proof. unfold Number.toFixed2. by intros ->. Qed.

Lemma count_scope u q w :
  length (filter (λ c, matchesCall
                         (mkCallQuery (if role u =? "telecaller"
                                       then Some (_id u) else None) q None) c)
            (calls w))
  = length (filter (λ c, inScope u c
                         && match q with
                            | Some s => Call.status c =? s
                            | None => true
                            end) (calls w)).
Proof.
  f_equal. apply list_filter_iff. intros c.
  unfold matchesCall, inScope. simpl.
  destruct (role u =? "telecaller"); simpl; by rewrite andb_true_r.
Qed.

Lemma iter_xO_value p k : Z.pos (Pos.iter xO p k) = (Z.pos p * 2 ^ Z.pos k)%Z.
Proof.
  induction k as [|k IH] using Pos.peano_ind.
  - simpl. lia.
  - rewrite Pos.iter_succ, Pos2Z.inj_xO, IH, Pos2Z.inj_succ, Z.pow_succ_r; lia.
Qed.

Lemma iter_xO_digits p k :
  digits2_pos (Pos.iter xO p k) = (digits2_pos p + k)%positive.
Proof.
  induction k as [|k IH] using Pos.peano_ind.
  - simpl. lia.
  - rewrite Pos.iter_succ. simpl. rewrite IH. lia.
Qed.

Lemma digits2_pos_bound p : (2 ^ (Z.pos (digits2_pos p) - 1) ≤ Z.pos p)%Z.
Proof.
  induction p as [p IH|p IH|]; cbn [digits2_pos]; [| |simpl; lia].
  all: rewrite Pos2Z.inj_succ.
  all: replace (Z.succ (Z.pos (digits2_pos p)) - 1)%Z
         with (Z.succ (Z.pos (digits2_pos p) - 1))%Z by lia.
  all: rewrite Z.pow_succ_r by lia; lia.
Qed.

Lemma digits2_pos_upper p : (Z.pos p < 2 ^ Z.pos (digits2_pos p))%Z.
Proof.
  induction p as [p IH|p IH|]; cbn [digits2_pos]; [| |simpl; lia].
  all: rewrite Pos2Z.inj_succ, Z.pow_succ_r by lia; lia.
Qed.

Lemma digits2_pos_le p k :
  (Z.pos p < 2 ^ k)%Z → (Z.pos (digits2_pos p) ≤ k)%Z.
Proof.
  intros H. pose proof (digits2_pos_bound p) as Hb.
  destruct (Z_le_gt_dec (Z.pos (digits2_pos p)) k) as [|Hgt]; [done|].
  assert (2 ^ k ≤ 2 ^ (Z.pos (digits2_pos p) - 1))%Z; [|lia].
  apply Z.pow_le_mono_r; lia.
Qed.

(** A positive integer below 2^53 is a binary64 value, with its mantissa
    shifted up to fifty-three bits. *)
Lemma binary_normalize_small p :
  (Z.pos p < 2 ^ 53)%Z →
  ∃ m e, binary_normalize prec emax (Z.pos p) 0 false = S754_finite false m e
         ∧ (-52 ≤ e ≤ 0)%Z ∧ Z.pos m = (Z.pos p * 2 ^ (- e))%Z
         ∧ (Z.pos m < 2 ^ 53)%Z.
Proof.
  intros Hp. pose proof (digits2_pos_le p 53 Hp) as Hd.
  unfold binary_normalize, binary_round, shl_align.
  set (d := digits2_pos p) in *.
  assert (fexp prec emax (Z.pos d + 0) = Z.pos d - 53)%Z as Hfexp.
  { unfold fexp, SpecFloat.emin, prec, emax. lia. }
  rewrite Hfexp.
  assert (∀ m e, Z.pos (digits2_pos m) = 53%Z → (-52 ≤ e ≤ 0)%Z →
                 binary_round_aux prec emax false (Z.pos m) e loc_Exact
                 = S754_finite false m e) as Haux.
  { intros m e Hm He. unfold binary_round_aux, shr_fexp.
    cbn [Zdigits2 shr_record_of_loc]. rewrite Hm.
    assert (fexp prec emax (53 + e) - e = 0)%Z as ->.
    { unfold fexp, SpecFloat.emin, prec, emax. lia. }
    cbn [shr shr_m loc_of_shr_record round_nearest_even Zdigits2].
    rewrite Hm.
    assert (fexp prec emax (53 + e) - e = 0)%Z as ->.
    { unfold fexp, SpecFloat.emin, prec, emax. lia. }
    cbn [shr shr_m].
    destruct (e <=? emax - prec)%Z eqn:E; [done|].
    apply Z.leb_gt in E. unfold emax, prec in E. lia. }
  assert (∀ m, Z.pos (digits2_pos m) = 53%Z → (Z.pos m < 2 ^ 53)%Z) as Hlt.
  { intros m Hm. rewrite <- Hm. apply digits2_pos_upper. }
  destruct (Z.pos d - 53 - 0)%Z as [|q|q] eqn:Hq.
  - exists p, 0%Z. rewrite Haux by lia. split; [done|]. split; [lia|].
    split; [simpl; lia|done].
  - lia.
  - assert (Z.pos (digits2_pos (Pos.iter xO p q)) = 53%Z) as Hd53.
    { rewrite iter_xO_digits. fold d. lia. }
    exists (Pos.iter xO p q), (Z.pos d - 53)%Z.
    rewrite Haux by (done || lia).
    split; [done|]. split; [lia|]. split; [|by apply Hlt].
    rewrite iter_xO_value. f_equal. f_equal. lia.
Qed.

(** The shape of a count as a binary64 value. *)
Lemma ofNat_shape n :
  (Z.of_nat n < 2 ^ 53)%Z →
  (n = 0%nat ∧ Prim2SF (Number.ofNat n) = S754_zero false)
  ∨ (n ≠ 0%nat
     ∧ ∃ m e, Prim2SF (Number.ofNat n) = S754_finite false m e
              ∧ (-52 ≤ e ≤ 0)%Z ∧ Z.pos m = (Z.of_nat n * 2 ^ (- e))%Z
              ∧ (Z.pos m < 2 ^ 53)%Z).
Proof.
  intros Hn. unfold Number.ofNat.
  rewrite of_uint63_spec, Uint63.of_Z_spec.
  rewrite Z.mod_small.
  2:{ split; [lia|]. eapply Z.lt_trans; [exact Hn|]. reflexivity. }
  destruct (Z.of_nat n) as [|p|p] eqn:E; [left|right|lia].
  - split; [lia|done].
  - split; [lia|]. by apply binary_normalize_small.
Qed.

Lemma ofNat_represents n :
  (Z.of_nat n < 2 ^ 53)%Z →
  represents (Number.ofNat n) (Z.of_nat n).
Proof.
  intros Hn. unfold represents.
  destruct (ofNat_shape n Hn) as [[-> ->] | (_ & m & e & -> & He & Hm & _)];
    [done|].
  split; [done|]. split; [lia|done].
Qed.

Lemma readWhole_string_of_uint d rest acc :
  readWhole (NilEmpty.string_of_uint d ++ String "." rest)%string acc
  = Some (uintValue d acc, rest).
Proof.
  revert acc. induction d; intros acc; cbn [NilEmpty.string_of_uint uintValue].
  all: try change (String ?c ?s ++ ?r)%string with (String c (s ++ r)%string).
  all: simpl; try done.
  all: rewrite IHd; do 3 f_equal.
  all: set (k := (Z.of_nat _ - 48)%Z); vm_compute in k; subst k; lia.
Qed.

Lemma of_uint_acc_value d acc :
  Z.pos (Pos.of_uint_acc d acc) = uintValue d (Z.pos acc).
Proof.
  revert acc. induction d; intros acc; cbn [Pos.of_uint_acc uintValue];
    rewrite ?IHd; try done; f_equal; lia.
Qed.

Lemma of_uint_value d : Z.of_N (Pos.of_uint d) = uintValue d 0.
Proof.
  induction d; cbn [Pos.of_uint uintValue]; try done;
    rewrite ?N2Z.inj_pos, ?of_uint_acc_value; try done.
Qed.

Lemma readWhole_to_uint n rest :
  readWhole
    (NilZero.string_of_uint (N.to_uint n) ++ String "." rest)%string 0
  = Some (Z.of_N n, rest).
Proof.
  pose proof (DecimalN.Unsigned.of_to n) as Hn.
  unfold N.of_uint in Hn.
  destruct (N.to_uint n) as [|d|d|d|d|d|d|d|d|d|d] eqn:E;
    unfold NilZero.string_of_uint;
    rewrite ?readWhole_string_of_uint, <- Hn, of_uint_value; try done.
Qed.

Lemma digitValue_digit k :
  (0 ≤ k ≤ 9)%Z → digitValue (Number.digit k) = Some k.
Proof.
  intros Hk. assert (k = 0 ∨ k = 1 ∨ k = 2 ∨ k = 3 ∨ k = 4 ∨ k = 5 ∨ k = 6
                     ∨ k = 7 ∨ k = 8 ∨ k = 9)%Z as H by lia.
  repeat destruct H as [-> | H]; try subst; reflexivity.
Qed.

(** What [fixed2] writes reads back as the same number of hundredths. *)
Lemma readFixed2_fixed2 n :
  (0 ≤ n)%Z → readFixed2 (Number.fixed2 n) = Some n.
Proof.
  intros Hn. unfold readFixed2, Number.fixed2.
  change ("." ++ ?s)%string with (String "." s).
  rewrite readWhole_to_uint.
  assert (0 ≤ n mod 100 / 10 ≤ 9)%Z as H1.
  { pose proof (Z.mod_pos_bound n 100 ltac:(lia)).
    split; [apply Z.div_pos; lia|].
    apply Z.lt_succ_r, Z.div_lt_upper_bound; lia. }
  assert (0 ≤ n mod 10 ≤ 9)%Z as H0.
  { pose proof (Z.mod_pos_bound n 10 ltac:(lia)). lia. }
  rewrite (digitValue_digit _ H1), (digitValue_digit _ H0).
  f_equal. rewrite Z2N.id by (apply Z.div_pos; lia).
  pose proof (Z.div_mod n 100 ltac:(lia)).
  pose proof (Z.div_mod (n mod 100) 10 ltac:(lia)).
  assert (n mod 100 mod 10 = n mod 10)%Z as Hmm.
  { apply Z.mod_mod_divide. by exists 10%Z. }
  lia.
Qed.

(** *** Binary64 rounding keeps small values finite *)

Lemma Zdigits2_le m D :
  (0 ≤ m)%Z → (0 ≤ D)%Z → (m < 2 ^ D)%Z → (Zdigits2 m ≤ D)%Z.
Proof.
  intros Hm HD H. destruct m as [|p|p]; [done| |lia].
  by apply digits2_pos_le.
Qed.

Lemma Zdigits2_upper m : (0 ≤ m)%Z → (m < 2 ^ Zdigits2 m)%Z.
Proof.
  intros Hm. destruct m as [|p|p]; [done| |lia]. apply digits2_pos_upper.
Qed.

Lemma Zdigits2_nonneg m : (0 ≤ Zdigits2 m)%Z.
Proof. by destruct m. Qed.

Lemma shr_1_half mrs :
  (0 ≤ shr_m mrs)%Z → shr_m (shr_1 mrs) = (shr_m mrs / 2)%Z.
Proof.
  destruct mrs as [m r s]. cbn [shr_m]. intros Hm.
  destruct m as [|[p|p|]|p]; cbn [shr_1 shr_m]; try done; try lia.
  - apply Z.div_unique with 1%Z; lia.
  - apply Z.div_unique with 0%Z; lia.
Qed.

Lemma iter_shr_1 p mrs :
  (0 ≤ shr_m mrs)%Z →
  shr_m (SpecFloat.iter_pos shr_1 p mrs) = (shr_m mrs / 2 ^ Z.pos p)%Z.
Proof.
  revert mrs. induction p as [p IH|p IH|]; intros mrs Hm; cbn [SpecFloat.iter_pos].
  - assert (0 ≤ shr_m (shr_1 mrs))%Z as H1.
    { rewrite shr_1_half by done. apply Z.div_pos; lia. }
    assert (0 ≤ shr_m (SpecFloat.iter_pos shr_1 p (shr_1 mrs)))%Z as H2.
    { rewrite IH by done. apply Z.div_pos; [done|]. apply Z.pow_pos_nonneg; lia. }
    rewrite IH, IH, shr_1_half by done.
    rewrite !Z.div_div by (try apply Z.pow_pos_nonneg; lia).
    f_equal. replace (Z.pos p~1) with (1 + Z.pos p + Z.pos p)%Z by lia.
    rewrite !Z.pow_add_r by lia. lia.
  - assert (0 ≤ shr_m (SpecFloat.iter_pos shr_1 p mrs))%Z as H2.
    { rewrite IH by done. apply Z.div_pos; [done|]. apply Z.pow_pos_nonneg; lia. }
    rewrite IH, IH by done.
    rewrite !Z.div_div by (try apply Z.pow_pos_nonneg; lia).
    f_equal. replace (Z.pos p~0) with (Z.pos p + Z.pos p)%Z by lia.
    rewrite !Z.pow_add_r by lia. lia.
  - by apply shr_1_half.
Qed.

Lemma shr_record_of_loc_m m l : shr_m (shr_record_of_loc m l) = m.
Proof. by destruct l as [|[]]. Qed.

(** [shr_fexp] on a value below 2^D: the mantissa stays non-negative and
    drops below 2^53, and the exponent is the larger of [e] and
    [fexp (digits + e)]. *)
Lemma shr_fexp_bounds m e l D :
  (0 ≤ m)%Z → (0 ≤ D)%Z → (m < 2 ^ D)%Z →
  ∃ mrs e',
    shr_fexp prec emax m e l = (mrs, e')
    ∧ (0 ≤ shr_m mrs < 2 ^ 53)%Z
    ∧ ((-1074 ≤ e')%Z ∨ e' = e)
    ∧ (e ≤ e')%Z
    ∧ (e' ≤ Z.max e (Z.max (D + e - 53) (-1074)))%Z.
Proof.
  intros Hm HD Hlt. unfold shr_fexp, shr.
  pose proof (Zdigits2_le m D Hm HD Hlt) as Hd.
  pose proof (Zdigits2_upper m Hm) as Hu.
  pose proof (Zdigits2_nonneg m) as Hn.
  set (d := Zdigits2 m) in *.
  assert (fexp prec emax (d + e) = Z.max (d + e - 53) (-1074))%Z as Hf
    by reflexivity.
  destruct (fexp prec emax (d + e) - e)%Z as [|n|n] eqn:Hshift.
  - eexists _, _. split; [reflexivity|]. rewrite shr_record_of_loc_m.
    split; [|lia]. split; [done|].
    eapply Z.lt_le_trans; [exact Hu|]. apply Z.pow_le_mono_r; lia.
  - eexists _, _. split; [reflexivity|].
    rewrite iter_shr_1, shr_record_of_loc_m by (by rewrite shr_record_of_loc_m).
    split; [|lia]. split; [apply Z.div_pos; [done|apply Z.pow_pos_nonneg; lia]|].
    apply Z.div_lt_upper_bound; [apply Z.pow_pos_nonneg; lia|].
    eapply Z.lt_le_trans; [exact Hu|].
    rewrite <- Z.pow_add_r by lia. apply Z.pow_le_mono_r; lia.
  - eexists _, _. split; [reflexivity|]. rewrite shr_record_of_loc_m.
    split; [|lia]. split; [done|].
    eapply Z.lt_le_trans; [exact Hu|]. apply Z.pow_le_mono_r; lia.
Qed.

Lemma round_nearest_even_bounds m l :
  (m ≤ round_nearest_even m l ≤ m + 1)%Z.
Proof.
  unfold round_nearest_even. destruct l as [|[]]; try lia.
  destruct (Z.even m); lia.
Qed.

(** Rounding a non-negative value below 2^D at an exponent that leaves
    room below the largest one gives zero or a finite number of the same
    sign: never NaN, never Infinity. *)
Lemma binary_round_aux_finite s m e l D :
  (0 ≤ m)%Z → (0 ≤ D)%Z → (m < 2 ^ D)%Z →
  (e ≤ 900)%Z → (D + e ≤ 900)%Z →
  binary_round_aux prec emax s m e l = S754_zero s
  ∨ ∃ m' e', binary_round_aux prec emax s m e l = S754_finite s m' e'
             ∧ (e' ≤ Z.max e (Z.max (D + e - 53) (-1074)) + 1)%Z.
Proof.
  intros Hm HD Hlt He HDe. unfold binary_round_aux.
  destruct (shr_fexp_bounds m e l D Hm HD Hlt)
    as (mrs1 & e1 & -> & [Hm1 Hm1'] & Hmin1 & Hle1 & Hub1).
  pose proof (round_nearest_even_bounds (shr_m mrs1) (loc_of_shr_record mrs1))
    as [Hr Hr'].
  set (m2 := round_nearest_even _ _) in *.
  destruct (shr_fexp_bounds m2 e1 loc_Exact 54) as
    (mrs2 & e2 & -> & [Hm2 Hm2'] & Hmin2 & Hle2 & Hub2); [lia|lia| |].
  { change (2 ^ 54)%Z with (2 * 2 ^ 53)%Z. lia. }
  assert (e2 ≤ Z.max e (Z.max (D + e - 53) (-1074)) + 1)%Z as Hub.
  { lia. }
  destruct (shr_m mrs2) as [|p|p] eqn:Hp; [by left| |lia].
  right. exists p, e2.
  destruct (e2 <=? emax - prec)%Z eqn:E; [done|].
  apply Z.leb_gt in E. unfold emax, prec in E. lia.
Qed.

Lemma valid_mantissa s m e :
  valid_binary (S754_finite s m e) = true → (Z.pos m < 2 ^ 53)%Z.
Proof.
  unfold valid_binary, SpecFloat.valid_binary, bounded, canonical_mantissa.
  intros [Hc _]%andb_true_iff. apply Z.eqb_eq in Hc.
  pose proof (digits2_pos_upper m) as Hu.
  eapply Z.lt_le_trans; [exact Hu|]. apply Z.pow_le_mono_r; [lia|].
  unfold fexp, SpecFloat.emin, prec, emax in Hc. lia.
Qed.

(** The quotient of two counts is zero or finite, and not negative. *)
Lemma SFdiv_counts mx ex my ey :
  (Z.pos mx < 2 ^ 53)%Z → (-52 ≤ ex ≤ 0)%Z →
  (Z.pos my < 2 ^ 53)%Z → (-52 ≤ ey ≤ 0)%Z →
  SF64div (S754_finite false mx ex) (S754_finite false my ey) = S754_zero false
  ∨ ∃ m e, SF64div (S754_finite false mx ex) (S754_finite false my ey)
           = S754_finite false m e ∧ (e ≤ 53)%Z.
Proof.
  intros Hmx Hex Hmy Hey. unfold SF64div, SFdiv, SFdiv_core_binary.
  cbn [Zdigits2 xorb].
  pose proof (digits2_pos_le mx 53 Hmx) as Hd1.
  pose proof (digits2_pos_le my 53 Hmy) as Hd2.
  set (d1 := Z.pos (digits2_pos mx)) in *.
  set (d2 := Z.pos (digits2_pos my)) in *.
  set (e' := Z.min (fexp prec emax (d1 + ex - (d2 + ey))) (ex - ey)).
  assert (e' ≤ ex - ey)%Z as He' by (unfold e'; lia).
  assert (-1074 ≤ e')%Z as He'min.
  { unfold e', fexp, SpecFloat.emin, prec, emax. lia. }
  set (s := (ex - ey - e')%Z) in *.
  set (m' := match s with
             | 0%Z => Z.pos mx
             | Z.pos _ => Z.shiftl (Z.pos mx) s
             | Z.neg _ => 0%Z
             end).
  assert (0 ≤ m' < 2 ^ (53 + s))%Z as Hm'.
  { unfold m'. destruct s as [|p|p] eqn:Hs; [simpl; lia| |lia].
    rewrite Z.shiftl_mul_pow2 by lia.
    rewrite Z.pow_add_r by lia. nia. }
  destruct (Z.div_eucl m' (Z.pos my)) as [q r] eqn:Hqr.
  assert (q = m' / Z.pos my)%Z as Hq by (unfold Z.div; by rewrite Hqr).
  assert (0 ≤ q ≤ m')%Z as Hqb.
  { rewrite Hq. split; [apply Z.div_pos; lia|].
    apply Z.div_le_upper_bound; nia. }
  destruct (binary_round_aux_finite false q e' (new_location (Z.pos my) r)
              (53 + s)) as [-> | (m & e & -> & He)]; [lia..| |].
  - by left.
  - right. exists m, e. split; [done|]. lia.
Qed.

(** The product of a finite binary64 value of moderate exponent with one
    hundred is zero or finite. *)
Lemma SFmul_hundred s mx ex my ey :
  (Z.pos mx < 2 ^ 53)%Z → (ex ≤ 53)%Z →
  (Z.pos my < 2 ^ 53)%Z → (ey ≤ 0)%Z →
  SF64mul (S754_finite s mx ex) (S754_finite false my ey) = S754_zero s
  ∨ ∃ m e, SF64mul (S754_finite s mx ex) (S754_finite false my ey)
           = S754_finite s m e.
Proof.
  intros Hmx Hex Hmy Hey. unfold SF64mul, SFmul. rewrite xorb_false_r.
  destruct (binary_round_aux_finite s (Z.pos (mx * my)) (ex + ey) loc_Exact 106)
    as [-> | (m & e & -> & _)]; [lia|lia| |lia|lia|by left|right; eauto].
  rewrite Pos2Z.inj_mul. change (2 ^ 106)%Z with (2 ^ 53 * 2 ^ 53)%Z. nia.
Qed.

(** The value [getDashboardStats] formats: never NaN, never Infinity,
    never negative, and zero when no call is connected. *)
Lemma rate_value_shape c t :
  (Z.of_nat c < 2 ^ 53)%Z → (0 < Z.of_nat t < 2 ^ 53)%Z →
  let x := PrimFloat.mul (PrimFloat.div (Number.ofNat c) (Number.ofNat t))
             (Number.ofNat 100) in
  (c = 0%nat → ∃ s, Prim2SF x = S754_zero s)
  ∧ ((∃ s, Prim2SF x = S754_zero s)
     ∨ ∃ m e, Prim2SF x = S754_finite false m e).
Proof.
  intros Hc Ht x. unfold x. rewrite FloatAxioms.mul_spec.
  pose proof (Prim2SF_valid (PrimFloat.div (Number.ofNat c) (Number.ofNat t)))
    as Hvalid.
  rewrite FloatAxioms.div_spec in Hvalid |- *.
  destruct (ofNat_shape t) as [[-> _] | (_ & mt & et & Hpt & Het & _ & Hmt)];
    [lia|lia|].
  destruct (ofNat_shape 100) as [[? _] | (_ & mh & eh & Hph & Heh & _ & Hmh)];
    [done|done|].
  rewrite Hpt, Hph in *.
  destruct (ofNat_shape c Hc)
    as [[-> Hpc] | (Hc0 & mc & ec & Hpc & Hec & _ & Hmc)]; rewrite Hpc in *.
  - cbn [SF64div SFdiv SF64mul SFmul xorb]. split; [eauto|left; eauto].
  - split; [done|].
    destruct (SFdiv_counts mc ec mt et) as [Hq | (mq & eq & Hq & Heq)];
      [done..| |]; rewrite Hq in *.
    + left. cbn [SF64mul SFmul xorb]. eauto.
    + apply valid_mantissa in Hvalid.
      destruct (SFmul_hundred false mq eq mh eh) as [-> | (m & e & ->)];
        [done|done|done|lia|left; eauto|right; eauto].
Qed.

Lemma hundredths_nonneg m e : (0 ≤ Number.hundredths m e)%Z.
Proof.
  unfold Number.hundredths. destruct (Z.leb_spec 0 e) as [He|He].
  - pose proof (Z.pow_nonneg 2 e). nia.
  - assert (0 < 2 ^ (- e))%Z by (apply Z.pow_pos_nonneg; lia).
    apply Z.div_pos; lia.
Qed.

(** C9: when its four counts succeed, [getDashboardStats] answers 200 and
    leaves the store alone. Its [connectionRate] is exactly '0%' when the
    caller has no call in scope: nothing is divided. Otherwise, the
    counts being below 2^53, they and 100 are binary64 values without
    error, the rate is formed from [x], the binary64 quotient of the
    connected calls by all calls times 100, and [x] is zero or finite and
    not negative, never NaN or Infinity. The rate is then a text
    followed by '%' that reads as digits, a point and two digits, and the
    number of hundredths it denotes is the one nearest to [x], the upper
    one of two; it is '0.00%' when no call is connected. *)
Theorem getDashboardStats_connectionRate env u w :
  fails env LeadCountDocuments = false →
  fails env CallCountDocuments = false →
  fails env CallCountConnected = false →
  fails env UserCountDocuments = false →
  ∃ stats,
    getDashboardStats env u w = (jsonData 200 stats, w)
    ∧ totalCalls stats = length (filter (λ c, inScope u c) (calls w))
    ∧ connectedCalls stats
      = length (filter (λ c, inScope u c && (Call.status c =? "connected"))
                  (calls w))
    ∧ (connectedCalls stats ≤ totalCalls stats)%nat
    ∧ (totalCalls stats = 0%nat → connectionRate stats = "0%")
    ∧ (totalCalls stats ≠ 0%nat →
       (Z.of_nat (totalCalls stats) < 2 ^ 53)%Z →
       represents (Number.ofNat (connectedCalls stats))
         (Z.of_nat (connectedCalls stats))
       ∧ represents (Number.ofNat (totalCalls stats))
           (Z.of_nat (totalCalls stats))
       ∧ represents (Number.ofNat 100) 100
       ∧ let x := PrimFloat.mul
                    (PrimFloat.div (Number.ofNat (connectedCalls stats))
                       (Number.ofNat (totalCalls stats)))
                    (Number.ofNat 100) in
         (connectedCalls stats = 0%nat → connectionRate stats = "0.00%")
         ∧ (((∃ s, Prim2SF x = S754_zero s)
             ∧ connectionRate stats = "0.00%")
            ∨ ∃ m e h text,
                Prim2SF x = S754_finite false m e
                ∧ connectionRate stats = text ++ "%"
                ∧ readFixed2 text = Some h
                ∧ nearestHundredth m e h)).
Proof.
  intros H1 H2 H3 H4.
  unfold getDashboardStats, Lead_countDocuments, Call_countDocuments,
    User_countDocuments. unfold_ops.
  rewrite H1, H2, H3, H4. cbn [fst snd].
  eexists. split; [reflexivity|].
  cbn [totalCalls connectedCalls connectionRate cq_user].
  rewrite (count_scope u (Some "connected") w).
  assert (length (filter (λ c, matchesCall
                                 (mkCallQuery (if role u =? "telecaller"
                                               then Some (_id u) else None)
                                    None None) c) (calls w))
          = length (filter (λ c, inScope u c) (calls w))) as ->.
  { rewrite (count_scope u None w). f_equal. apply list_filter_iff.
    intros c. by rewrite andb_true_r. }
  set (total := length (filter (λ c, inScope u c) (calls w))).
  set (connected := length (filter _ (calls w))).
  assert (connected ≤ total)%nat as Hle.
  { unfold connected, total.
    etrans; [|apply (length_filter (λ c, Call.status c =? "connected"))].
    apply Nat.eq_le_incl. f_equal. rewrite list_filter_filter.
    apply list_filter_iff. intros c. rewrite andb_True. tauto. }
  split; [done|]. split; [done|]. split; [exact Hle|].
  unfold connectionRateOf. split.
  - by intros ->.
  - intros Hne Hbig. pose proof Hne as Hne'%Nat.eqb_neq. rewrite Hne'.
    split; [apply ofNat_represents; lia|].
    split; [by apply ofNat_represents|].
    split; [by apply ofNat_represents|].
    destruct (rate_value_shape connected total) as [Hzero Hshape]; [lia|lia|].
    cbv zeta in Hzero, Hshape |- *.
    set (x := PrimFloat.mul _ _) in *.
    split.
    + intros H0. destruct (Hzero H0) as [s Hs].
      unfold Number.toFixed2. by rewrite Hs.
    + destruct Hshape as [[s Hs] | (m & e & Hx)].
      * left. split; [eauto|]. unfold Number.toFixed2. by rewrite Hs.
      * right. exists m, e, (Number.hundredths m e),
          (Number.fixed2 (Number.hundredths m e)).
        split; [done|]. split.
        { by rewrite (toFixed2_finite x false m e Hx). }
        split; [|apply hundredths_nearest].
        apply readFixed2_fixed2.
        apply hundredths_nonneg.
Qed.

Lemma getDashboardStats_connectionRate_witness :
  (∃ stats,
     getDashboardStats Sample.env Demo.tele1 Demo.worldOneInThree
     = (jsonData 200 stats, Demo.worldOneInThree)
     ∧ connectionRate stats = "33.33%"
     ∧ ∃ m e h text,
         Prim2SF (PrimFloat.mul
                    (PrimFloat.div (Number.ofNat (connectedCalls stats))
                       (Number.ofNat (totalCalls stats)))
                    (Number.ofNat 100)) = S754_finite false m e
         ∧ connectionRate stats = text ++ "%"
         ∧ readFixed2 text = Some h
         ∧ nearestHundredth m e h)
  ∧ connectionRate
      <$> data (getDashboardStats Sample.env Demo.tele2
                  Sample.worldWithCall).1 = Some "0%".
Proof.
  split.
  - destruct (getDashboardStats_connectionRate Sample.env Demo.tele1
                Demo.worldOneInThree)
      as (stats & Hrun & _ & _ & _ & _ & Hrate); [reflexivity..|].
    pose proof Hrun as Hc. vm_compute in Hc. injection Hc as <-.
    eexists. split; [exact Hrun|]. split; [vm_compute; reflexivity|].
    destruct Hrate as (_ & _ & _ & _ & [[_ H0] | H]);
      [discriminate|vm_compute; reflexivity| |exact H].
    vm_compute in H0. discriminate.
  - destruct (getDashboardStats_connectionRate Sample.env Demo.tele2
                Sample.worldWithCall)
      as (stats & Hrun & Htotal & _ & _ & Hzero & _); [reflexivity..|].
    rewrite Hrun. simpl. f_equal. apply Hzero. rewrite Htotal. reflexivity.
Defined.

Example connectionRateOf_no_calls : connectionRateOf 0 0 = "0%".
Proof. reflexivity. Qed.

Example connectionRateOf_one_in_three : connectionRateOf 3 1 = "33.33%".
Proof. vm_compute. reflexivity. Qed.

Example connectionRateOf_two_in_three : connectionRateOf 3 2 = "66.67%".
Proof. vm_compute. reflexivity. Qed.

(** 201 calls in 20000 are 1.005 percent; the binary64 product lies just
    below, and is written as 1.00. *)
Example connectionRateOf_below_a_tie : connectionRateOf (Z.to_nat 20000) 201 = "1.00%".
Proof. vm_compute. reflexivity. Qed.

(** ** The daily trend *)

Lemma utcDay_addDays t i : Date.utcDay (Date.addDays t i) = (Date.utcDay t + i)%Z.
Proof. unfold Date.utcDay, Date.addDays. by rewrite Z.div_add. Qed.

(** On a server that runs in UTC the first label is [days - 1] days
    before today's. *)
Lemma startDate_utc t days :
  Date.utcDay (Date.startOfLocalDay 0 (Date.addDays t (- days + 1)))
  = (Date.utcDay t - days + 1)%Z.
Proof.
  unfold Date.startOfLocalDay. rewrite Z.add_0_r, Z.sub_0_r.
  fold (Date.utcDay (Date.addDays t (- days + 1))). rewrite utcDay_addDays.
  unfold Date.utcDay at 1. rewrite Z.div_mul by done. lia.
Qed.

Lemma groupByDay_no_date cs item :
  item ∈ groupByDay cs → TrendItem.date item = None.
Proof.
  unfold groupByDay. intros (g & -> & _)%list_elem_of_fmap. reflexivity.
Qed.

(** An element of the answer is a group of the aggregation for its day,
    which has no [date], or else a made-up object with [date] and zero
    counts. *)
Lemma trendAt_shape startDate cs i :
  let day := (Date.utcDay startDate + i)%Z in
  let item := trendAt startDate (groupByDay cs) i in
  (TrendItem._id item = Some day ∧ TrendItem.date item = None
   ∧ item ∈ groupByDay cs)
  ∨ item = TrendItem.mk None (Some day) 0 0.
Proof.
  unfold trendAt. rewrite utcDay_addDays. simpl.
  destruct (find _ (groupByDay cs)) as [item|] eqn:Hfind; simpl; [left|by right].
  apply find_some in Hfind as [Hin Hid].
  apply bool_decide_eq_true in Hid. apply list_elem_of_In in Hin.
  split; [done|]. split; [by eapply groupByDay_no_date|done].
Qed.

(** What does hold of the daily trend: when the aggregation succeeds,
    the answer has [days] elements, the i-th being for the i-th day from
    the first label on; on a server that runs in UTC the first label is
    [days - 1] days before today's. *)
Lemma getCallTrends_buckets env req w :
  fails env CallAggregate = false →
  ∃ items first,
    data (getCallTrends env req w).1 = Some items
    ∧ length items = Z.to_nat (Js.orDefault (tr_days req) 7)
    ∧ (tzOffset env = 0%Z →
       first = (Date.utcDay (now env) - Js.orDefault (tr_days req) 7 + 1)%Z)
    ∧ ∀ i item, items !! i = Some item →
        (TrendItem._id item = Some (first + Z.of_nat i)%Z
         ∧ TrendItem.date item = None)
        ∨ item = TrendItem.mk None (Some (first + Z.of_nat i)%Z) 0 0.
Proof.
  intros Hagg. unfold getCallTrends, Call_aggregate. unfold_ops.
  rewrite Hagg. simpl.
  eexists _, (Date.utcDay
                (Date.startOfLocalDay (tzOffset env)
                   (Date.addDays (now env) (- Js.orDefault (tr_days req) 7 + 1)))).
  split; [reflexivity|].
  split; [by rewrite length_fmap, length_seqZ|].
  split; [intros ->; apply startDate_utc|].
  intros i item Hi. apply list_lookup_fmap_Some in Hi as (j & -> & Hj).
  apply lookup_seqZ in Hj as [-> _]. rewrite Z.add_0_l.
  match goal with
  | |- context [trendAt ?s (groupByDay ?cs) ?i] =>
      destruct (trendAt_shape s cs i) as [(? & ? & _) | ?]; [left|right]; eauto
  end.
Qed.

(** C8, at the failing input: on a server in UTC, three days are asked
    for and the store holds one connected call made today. The answer
    has three elements with the labels of the last three days in order,
    and the two days without calls are zero objects with [date]; but the
    element of today, the day with a call, is the group of the
    aggregation as it came: it carries [_id] and no [date]. *)
Theorem getCallTrends_active_day_has_no_date :
  data (getCallTrends Sample.env
          (mkTrendsReq (mkAuthUser Sample.boss "admin") (Some 3%Z))
          Sample.worldWithCall).1
  = Some [TrendItem.mk None (Some 19673%Z) 0 0;
          TrendItem.mk None (Some 19674%Z) 0 0;
          TrendItem.mk (Some 19675%Z) None 1 1]
  ∧ Date.utcDay (now Sample.env) = 19675%Z.
Proof. vm_compute. auto. Qed.

(** On a server ahead of UTC the labels, read off in UTC from local
    midnights, fall one day back: at 19:43 local time of day 19675 (in
    UTC and locally) the three labels end with day 19674. *)
Example getCallTrends_ahead_of_utc_stops_yesterday :
  data (getCallTrends Sample.envAhead
          (mkTrendsReq (mkAuthUser Sample.boss "admin") (Some 3%Z))
          (Sample.world "new")).1
  = Some [TrendItem.mk None (Some 19672%Z) 0 0;
          TrendItem.mk None (Some 19673%Z) 0 0;
          TrendItem.mk None (Some 19674%Z) 0 0]
  ∧ Date.utcDay (now Sample.envAhead) = 19675%Z
  ∧ Date.utcDay (now Sample.envAhead + tzOffset Sample.envAhead) = 19675%Z.
Proof. vm_compute. auto. Qed.

(** * Further properties *)

Local Open Scope list_scope.

(** ** createCall: what each answer means for the store *)

(** X1: When [createCall] answers 400, 403 or 404, the store and the console
    are exactly as before. *)
Theorem createCall_client_errors_write_nothing env req w :
  code (createCall env req w).1 = 400
  ∨ code (createCall env req w).1 = 403
  ∨ code (createCall env req w).1 = 404 →
  (createCall env req w).2 = w.
Proof.
  unfold createCall.
  destruct (CallValidation.run _) eqn:Hv; [|simpl; done].
  unfold_ops. crunch.
  all: intros [? | [? | ?]]; simplify_eq.
Qed.

Lemma createCall_client_errors_write_nothing_witness :
  (createCall Sample.env (Sample.asTele2 Sample.connectedInterested)
     (Sample.world "new")).2 = Sample.world "new".
Proof.
  apply createCall_client_errors_write_nothing. right. left. reflexivity.
Defined.

Lemma callData_lead u b :
  CallData.lead (callData u b) = CallValidation.str (CallBody.lead b).
Proof. unfold callData. repeat case_match; reflexivity. Qed.

Lemma callData_status u b :
  CallData.status (callData u b) = CallValidation.str (CallBody.status b).
Proof. unfold callData. repeat case_match; reflexivity. Qed.

Lemma callData_user u b : CallData.user (callData u b) = _id u.
Proof. unfold callData. repeat case_match; reflexivity. Qed.

Lemma callData_duration u b :
  CallData.duration (callData u b) = Js.orDefault (CallBody.duration b) 0.
Proof. unfold callData. repeat case_match; reflexivity. Qed.

Lemma validation_status b :
  CallValidation.run b = [] →
  In (CallValidation.str (CallBody.status b)) Call.statuses.
Proof.
  unfold CallValidation.run. intros H.
  apply app_eq_nil in H as [_ H]. apply app_eq_nil in H as [Hs _].
  by apply check_nil, includes_In in Hs.
Qed.





Lemma createCall_201_inv env req w :
  code (createCall env req w).1 = 201 →
  ∃ k l p,
    ObjectId.cast (CallValidation.str (CallBody.lead (cr_body req))) = Some k
    ∧ leads w !! k = Some l
    ∧ (role (cr_user req) = "telecaller" → Lead.createdBy l = _id (cr_user req))
    ∧ data (createCall env req w).1 = Some p
    ∧ calls (createCall env req w).2 = (calls w ++ [pc_call p])%list
    ∧ Call.lead (pc_call p) = k
    ∧ Call.user (pc_call p) = _id (cr_user req)
    ∧ In (Call.status (pc_call p)) Call.statuses
    ∧ Call.status (pc_call p) = CallValidation.str (CallBody.status (cr_body req))
    ∧ Call.duration (pc_call p) = Js.orDefault (CallBody.duration (cr_body req)) 0
    ∧ Call.createdAt (pc_call p) = now env.
Proof.
  unfold createCall.
  destruct (CallValidation.run _) eqn:Hv; [|simpl; discriminate].
  unfold_ops.
  pose proof (callData_lead (cr_user req) (cr_body req)) as Hlead.
  pose proof (callData_status (cr_user req) (cr_body req)) as Hstatus.
  pose proof (callData_user (cr_user req) (cr_body req)) as Huser.
  pose proof (callData_duration (cr_user req) (cr_body req)) as Hdur.
  pose proof (validation_status _ Hv) as Hin.
  crunch.
  all: lookups.
  all: intros ?; simplify_eq.
  all: rewrite Hlead in *; simplify_eq.
  all: eexists _, _, _; split; [reflexivity|]; split; [eassumption|].
  all: split;
    [intros Hr; match goal with
                | H : _ && _ = false |- _ =>
                    rewrite Hr in H; simpl in H;
                    apply negb_false_iff in H; by apply String.eqb_eq in H
                end|].
  all: split; [reflexivity|]; simpl.
  all: rewrite Hstatus, Huser, Hdur.
  all: repeat split; try done; exact Hin.
Qed.

(** X2: A call that [createCall] answers 201 for is stored exactly once, at
    the end of the collection, against a stored lead the caller may log
    calls for; it is attributed to the caller whatever the body says,
    carries the validated status, the duration (0 when absent or 0) and
    the time of the request, and is the call of the answer. *)
Theorem createCall_201_appends_callers_call env req w :
  code (createCall env req w).1 = 201 →
  ∃ k l p,
    ObjectId.cast (CallValidation.str (CallBody.lead (cr_body req))) = Some k
    ∧ leads w !! k = Some l
    ∧ (role (cr_user req) = "telecaller" → Lead.createdBy l = _id (cr_user req))
    ∧ data (createCall env req w).1 = Some p
    ∧ calls (createCall env req w).2 = (calls w ++ [pc_call p])%list
    ∧ Call.lead (pc_call p) = k
    ∧ Call.user (pc_call p) = _id (cr_user req)
    ∧ In (Call.status (pc_call p)) Call.statuses
    ∧ Call.status (pc_call p) = CallValidation.str (CallBody.status (cr_body req))
    ∧ Call.duration (pc_call p) = Js.orDefault (CallBody.duration (cr_body req)) 0
    ∧ Call.createdAt (pc_call p) = now env.
Proof. apply createCall_201_inv. Qed.

Lemma createCall_201_appends_callers_call_witness :
  ∃ p, data (createCall Sample.env (Sample.asTele1 Sample.connectedInterested)
               (Sample.world "new")).1 = Some p
       ∧ Call.user (pc_call p) = Sample.tele1.
Proof.
  destruct (createCall_201_appends_callers_call Sample.env
              (Sample.asTele1 Sample.connectedInterested) (Sample.world "new"))
    as (k & l & p & _ & _ & _ & Hd & _ & _ & Hu & _); [reflexivity|].
  exists p. split; [exact Hd|exact Hu].
Defined.



Lemma createCall_unknown_lead_404 env req w k :
  CallValidation.run (cr_body req) = [] →
  fails env LeadFindById = false →
  ObjectId.cast (CallValidation.str (CallBody.lead (cr_body req))) = Some k →
  leads w !! k = None →
  createCall env req w = (jsonMessage 404 false "Lead not found", w).
Proof.
  intros Hv Hf Hcast Hk. unfold createCall. rewrite Hv.
  unfold_ops. rewrite Hf, Hcast. simpl. by rewrite Hk.
Qed.

(** ** updateLead *)

Lemma updateLeadValidation_status env b s :
  updateLeadValidation env b = [] →
  LeadFields.status b = Some s → In s Lead.statuses.
Proof.
  unfold updateLeadValidation. intros H Hs. rewrite Hs in H.
  apply app_eq_nil in H as [_ H]. apply app_eq_nil in H as [_ H].
  apply app_eq_nil in H as [_ H]. apply app_eq_nil in H as [H _].
  by apply check_nil, includes_In in H.
Qed.

Lemma castLeadFields_status u u' :
  castLeadFields u = Some u' →
  LeadFields.status u' = LeadFields.status u
  ∧ LeadFields.lastModifiedBy u' = LeadFields.lastModifiedBy u.
Proof.
  unfold castLeadFields. intros H.
  destruct (LeadFields.createdBy u) as [c|]; simpl in H.
  - destruct (ObjectId.cast c); simpl in H; by simplify_eq.
  - by simplify_eq.
Qed.

(** X4: [updateLead] never changes a call or a user, and it changes a
    lead only when it answers 200, with one exception: the populate
    chained to the update reads the users after the write, and when it
    throws, the answer is 500 although the lead of the request is
    rewritten. *)
Theorem updateLead_writes_on_200_or_failed_populate env req w :
  code (updateLead env req w).1 ≠ 200 →
  calls (updateLead env req w).2 = calls w
  ∧ users (updateLead env req w).2 = users w
  ∧ (leads (updateLead env req w).2 = leads w
     ∨ (code (updateLead env req w).1 = 500
        ∧ fails env LeadPopulateUpdated = true
        ∧ ∃ k l l',
            ObjectId.cast (ur_id req) = Some k
            ∧ leads w !! k = Some l
            ∧ leads (updateLead env req w).2 = <[k := l']> (leads w)
            ∧ Lead.lastModifiedBy l' = _id (ur_user req)
            ∧ Lead.updatedAt l' = now env)).
Proof.
  unfold updateLead.
  destruct (updateLeadValidation _ _) eqn:Hv; [|simpl; auto].
  unfold_ops. crunch.
  all: intros ?; try done.
  all: split; [done|]; split; [done|]; try (by left).
  all: right; split; [done|]; split; [done|].
  all: eexists _, _, _; split; [done|]; split; [eassumption|].
  all: split; [reflexivity|]; simpl.
  all: match goal with
       | H : castLeadFields _ = Some _ |- _ =>
           apply castLeadFields_status in H as [_ H]; by rewrite H
       end.
Qed.

Lemma updateLead_writes_on_200_or_failed_populate_witness :
  leads (updateLead Demo.envPopulateDown
           (mkUpdateLeadReq Demo.tele1 Sample.lead1 Demo.toConverted)
           (Sample.world "new")).2 ≠ leads (Sample.world "new")
  ∧ code (updateLead Demo.envPopulateDown
            (mkUpdateLeadReq Demo.tele1 Sample.lead1 Demo.toConverted)
            (Sample.world "new")).1 = 500
  ∧ users (updateLead Demo.envPopulateDown
             (mkUpdateLeadReq Demo.tele1 Sample.lead1 Demo.toConverted)
             (Sample.world "new")).2 = users (Sample.world "new").
Proof.
  destruct (updateLead_writes_on_200_or_failed_populate Demo.envPopulateDown
              (mkUpdateLeadReq Demo.tele1 Sample.lead1 Demo.toConverted)
              (Sample.world "new")) as (_ & Hu & [Hsame | (Hcode & _)]).
  - vm_compute. discriminate.
  - apply (f_equal (λ m, Lead.status <$> m !! Sample.lead1)) in Hsame.
    vm_compute in Hsame. discriminate.
  - split; [|split; [exact Hcode|exact Hu]].
    intros Hsame.
    apply (f_equal (λ m, Lead.status <$> m !! Sample.lead1)) in Hsame.
    vm_compute in Hsame. discriminate.
Defined.

(** X5: When [updateLead] answers 200, exactly the lead of the request was
    rewritten, the caller was allowed to (an owner, if a telecaller), the
    stored [lastModifiedBy] is the caller and [updatedAt] the time of the
    request, and a [status] in the body, any of the six, is the stored
    status: the update is not bound to the moves of [createCall]. *)
Theorem updateLead_200_effect env req w :
  code (updateLead env req w).1 = 200 →
  ∃ k l l',
    ObjectId.cast (ur_id req) = Some k
    ∧ leads w !! k = Some l
    ∧ (role (ur_user req) = "telecaller" → Lead.createdBy l = _id (ur_user req))
    ∧ leads (updateLead env req w).2 = <[k := l']> (leads w)
    ∧ calls (updateLead env req w).2 = calls w
    ∧ users (updateLead env req w).2 = users w
    ∧ Lead.lastModifiedBy l' = _id (ur_user req)
    ∧ Lead.updatedAt l' = now env
    ∧ Lead.createdAt l' = Lead.createdAt l
    ∧ match LeadFields.status (ur_body req) with
      | Some s => Lead.status l' = s ∧ In s Lead.statuses
      | None => Lead.status l' = Lead.status l
      end.
Proof.
  unfold updateLead.
  destruct (updateLeadValidation _ _) eqn:Hv; [|simpl; discriminate].
  pose proof (updateLeadValidation_status env (ur_body req)) as Hst.
  unfold_ops. crunch.
  all: lookups.
  all: intros ?; simplify_eq.
  all: match goal with
       | H : castLeadFields _ = Some _ |- _ =>
           apply castLeadFields_status in H as [Hs Hm]; simpl in Hs, Hm
       end.
  all: eexists _, _, _; split; [reflexivity|]; split; [eassumption|].
  all: split;
    [intros Hr; match goal with
                | H : _ && _ = false |- _ =>
                    rewrite Hr in H; simpl in H;
                    apply negb_false_iff in H; by apply String.eqb_eq in H
                end|].
  all: split; [reflexivity|]; simpl.
  all: rewrite Hs, Hm; simpl.
  all: repeat split; try done.
  all: try (rewrite Hs; simpl); try congruence; eauto.
  all: match goal with
       | H : LeadFields.status (ur_body _) = _ |- _ => by rewrite H
       end.
Qed.

Lemma updateLead_200_effect_witness :
  ∃ k l', leads (updateLead Sample.env
                   (mkUpdateLeadReq Demo.tele1 Sample.lead1 Demo.toConverted)
                   (Sample.world "new")).2
          = <[k := l']> (leads (Sample.world "new"))
          ∧ Lead.lastModifiedBy l' = Sample.tele1
          ∧ Lead.status l' = "converted".
Proof.
  destruct (updateLead_200_effect Sample.env
              (mkUpdateLeadReq Demo.tele1 Sample.lead1 Demo.toConverted)
              (Sample.world "new"))
    as (k & l & l' & _ & _ & _ & Hl & _ & _ & Hm & _ & _ & Hs & _);
    [reflexivity|].
  exists k, l'. split; [exact Hl|]. split; [exact Hm|exact Hs].
Defined.

Lemma castLeadFields_name u u' :
  castLeadFields u = Some u' →
  LeadFields.name u' = Js.trim <$> LeadFields.name u.
Proof.
  unfold castLeadFields. intros H.
  destruct (LeadFields.createdBy u) as [c|]; simpl in H.
  - destruct (ObjectId.cast c); simpl in H; by simplify_eq.
  - by simplify_eq.
Qed.

(** X6: A [name] of white space only passes the route's validation (it is
    not empty) but is trimmed to the empty string by the schema, whose
    required validator then throws: the answer is 500, not 400, and the
    lead is untouched. *)
Theorem updateLead_blank_name_is_500 env req w k l s :
  updateLeadValidation env (ur_body req) = [] →
  LeadFields.name (ur_body req) = Some s →
  Js.trim s = "" →
  fails env LeadFindById = false →
  ObjectId.cast (ur_id req) = Some k →
  leads w !! k = Some l →
  role (ur_user req) ≠ "telecaller" ∨ Lead.createdBy l = _id (ur_user req) →
  code (updateLead env req w).1 = 500
  ∧ leads (updateLead env req w).2 = leads w.
Proof.
  intros Hv Hname Htrim Hfind Hcast Hk Hauth.
  assert ((role (ur_user req) =? "telecaller")
          && negb (Lead.createdBy l =? _id (ur_user req)) = false) as Hauth'.
  { destruct Hauth as [H|H].
    - apply String.eqb_neq in H. by rewrite H.
    - apply String.eqb_eq in H. rewrite H. apply andb_false_r. }
  unfold updateLead. rewrite Hv. unfold_ops.
  rewrite Hfind, Hcast. simpl. rewrite Hk. simpl. rewrite Hauth'.
  destruct (fails env LeadFindByIdAndUpdate); [done|].
  destruct (castLeadFields _) as [u'|] eqn:Hu; [|done].
  apply castLeadFields_name in Hu. simpl in Hu. rewrite Hname in Hu.
  simpl in Hu. rewrite Htrim in Hu.
  unfold validateLeadFields. rewrite Hu. simpl. done.
Qed.

Lemma updateLead_blank_name_is_500_witness :
  code (updateLead Sample.env
          (mkUpdateLeadReq Demo.tele1 Sample.lead1 Demo.blankName)
          (Sample.world "new")).1 = 500
  ∧ leads (updateLead Sample.env
             (mkUpdateLeadReq Demo.tele1 Sample.lead1 Demo.blankName)
             (Sample.world "new")).2 = leads (Sample.world "new").
Proof.
  apply (updateLead_blank_name_is_500 Sample.env
           (mkUpdateLeadReq Demo.tele1 Sample.lead1 Demo.blankName)
           (Sample.world "new") Sample.lead1 (Sample.lead "new") "  ");
    [reflexivity..|right; reflexivity].
Defined.

(** ** getLeads: pages *)

(** X7: A page and limit whose product [(page - 1) * limit] is negative (a
    negative page, or a negative limit from page 2 on) make the query
    throw: [getLeads] answers 500 without data. *)
Theorem getLeads_negative_skip_is_500 env req w :
  ((Js.orDefault (lr_page req) 1 - 1) * Js.orDefault (lr_limit req) 100 < 0)%Z →
  code (getLeads env req w).1 = 500
  ∧ data (getLeads env req w).1 = None
  ∧ leads (getLeads env req w).2 = leads w.
Proof.
  intros Hskip%Z.ltb_lt. unfold getLeads, Lead_find. unfold_ops.
  rewrite Hskip. by destruct (fails env LeadFind).
Qed.

Lemma getLeads_negative_skip_is_500_witness :
  code (getLeads Sample.env
          (mkLeadsReq Demo.boss None None None None (Some (-1)%Z) None)
          (Sample.world "new")).1 = 500.
Proof.
  apply (getLeads_negative_skip_is_500 Sample.env
           (mkLeadsReq Demo.boss None None None None (Some (-1)%Z) None)
           (Sample.world "new")).
  reflexivity.
Defined.

Lemma Sorted_app_inv {A} (R : relation A) l1 l2 :
  Sorted R (l1 ++ l2) → Sorted R l1 ∧ Sorted R l2.
Proof.
  induction l1 as [|x l1 IH]; simpl; intros H.
  - split; [constructor|done].
  - inversion H as [|?? Hs Hh]; subst. destruct (IH Hs) as [H1 H2].
    split; [|done]. constructor; [done|].
    destruct l1; [constructor|]. inversion Hh; subst. by constructor.
Qed.

Lemma Sorted_take_drop {A} (R : relation A) l n m :
  Sorted R l → Sorted R (take n (drop m l)).
Proof.
  intros H. rewrite <- (take_drop m l) in H.
  apply Sorted_app_inv in H as [_ H].
  rewrite <- (take_drop n (drop m l)) in H.
  by apply Sorted_app_inv in H as [H _].
Qed.

Lemma keyLeb_total a b : keyLeb a b = true ∨ keyLeb b a = true.
Proof.
  destruct a as [|x|x], b as [|y|y]; simpl; auto.
  - destruct (Z.leb_spec x y), (Z.leb_spec y x); auto; lia.
  - apply String.leb_total.
Qed.

#[export] Instance sortsBefore_total field order : Total (sortsBefore field order).
Proof.
  intros a b. unfold sortsBefore. destruct (order =? 1)%Z.
  - destruct (keyLeb_total (sortKey field a) (sortKey field b)) as [->| ->]; auto.
  - destruct (keyLeb_total (sortKey field a) (sortKey field b)) as [->| ->]; auto.
Qed.

Lemma populateLead_back w (l : list (string * Lead.t)) :
  (λ p, (pl_id p, pl_lead p)) <$> (populateLead w <$> l) = l.
Proof.
  rewrite <- list_fmap_compose. rewrite <- (list_fmap_id l) at 2.
  apply list_fmap_ext. by intros ? [??].
Qed.

(** X8: When [getLeads] answers 200 the store is untouched; [total] counts
    the leads that match the filter, [count] is the length of the page,
    at most [total] and at most the absolute value of [limit]; and the
    page is in the order asked for ([createdAt] descending by default). *)
Theorem getLeads_200_page env req w :
  code (getLeads env req w).1 = 200 →
  ∃ page,
    data (getLeads env req w).1 = Some page
    ∧ (getLeads env req w).2 = w
    ∧ lp_page page = Js.orDefault (lr_page req) 1
    ∧ lp_limit page = Js.orDefault (lr_limit req) 100
    ∧ lp_total page
      = length (filter (λ d : string * Lead.t, matchesLead (leadsQuery req) d.2)
                  (map_to_list (leads w)))
    ∧ lp_count page = length (lp_data page)
    ∧ (lp_count page ≤ lp_total page)%nat
    ∧ (Z.of_nat (lp_count page) ≤ Z.abs (lp_limit page))%Z
    ∧ Sorted (sortsBefore
                (if Js.truthy (lr_sort_by req) then default "" (lr_sort_by req)
                 else "createdAt")
                (if default "" (lr_sort_order req) =? "asc" then 1%Z else (-1)%Z))
        ((λ p, (pl_id p, pl_lead p)) <$> lp_data page).
Proof.
  unfold getLeads, Lead_find, Lead_countDocuments. unfold_ops.
  destruct (fails env LeadFind); [simpl; discriminate|].
  destruct (_ <? 0)%Z; [simpl; discriminate|]. simpl.
  destruct (fails env LeadCountDocuments); [simpl; discriminate|]. simpl.
  intros _. eexists. split; [reflexivity|]. simpl.
  repeat split.
  - rewrite length_fmap, length_take, length_drop.
    erewrite Permutation_length by apply merge_sort_Permutation. lia.
  - rewrite length_fmap, length_take. lia.
  - rewrite populateLead_back. apply Sorted_take_drop, Sorted_merge_sort. apply _.
Qed.

Lemma getLeads_200_page_witness :
  ∃ page, data (getLeads Sample.env (Sample.listAs Demo.boss)
                  (Sample.world "new")).1 = Some page
          ∧ lp_count page = length (lp_data page)
          ∧ (lp_count page ≤ lp_total page)%nat.
Proof.
  destruct (getLeads_200_page Sample.env (Sample.listAs Demo.boss)
              (Sample.world "new"))
    as (page & Hd & _ & _ & _ & _ & Hc & Ht & _); [reflexivity|].
  exists page. split; [exact Hd|]. split; [exact Hc|exact Ht].
Defined.

(** ** getCallTrends: what the counts count *)

Lemma dayKeys_cons d v gs : dayKeys ((d, v) :: gs) = d :: dayKeys gs.
Proof. reflexivity. Qed.

Lemma groupOf_cons day d v gs :
  groupOf day ((d, v) :: gs) = if (d =? day)%Z then Some v else groupOf day gs.
Proof. unfold groupOf. simpl. by destruct (d =? day)%Z. Qed.

Lemma addToGroup_keys day b gs d :
  d ∈ dayKeys (addToGroup day b gs) → d = day ∨ d ∈ dayKeys gs.
Proof.
  induction gs as [|[d' [n k]] r IH]; cbn [addToGroup].
  - intros ->%list_elem_of_singleton. by left.
  - destruct (Z.eqb_spec day d') as [->|Hne]; [by right|].
    destruct (Z.ltb_spec day d'); rewrite !dayKeys_cons.
    + intros [->|Hd]%elem_of_cons; [by left|by right].
    + intros [->|Hd]%elem_of_cons; [right; left|].
      destruct (IH Hd) as [->|?]; [by left|right; by right].
Qed.

Lemma addToGroup_sorted day b gs :
  StronglySorted Z.lt (dayKeys gs) →
  StronglySorted Z.lt (dayKeys (addToGroup day b gs)).
Proof.
  induction gs as [|[d' [n k]] r IH]; intros Hs.
  - simpl. repeat constructor.
  - rewrite dayKeys_cons in Hs. apply StronglySorted_cons in Hs as [Hall Hs].
    cbn [addToGroup]. destruct (Z.eqb_spec day d') as [->|Hne].
    { rewrite dayKeys_cons. by apply StronglySorted_cons. }
    destruct (Z.ltb_spec day d'); rewrite !dayKeys_cons.
    + apply StronglySorted_cons. split.
      * constructor; [done|]. eapply Forall_impl; [exact Hall|]. simpl. lia.
      * by apply StronglySorted_cons.
    + apply StronglySorted_cons. split; [|by apply IH].
      apply Forall_forall. intros d Hd.
      apply addToGroup_keys in Hd as [->|Hd]; [lia|].
      by eapply Forall_forall in Hall.
Qed.

Lemma groupOf_None day gs : day ∉ dayKeys gs → groupOf day gs = None.
Proof.
  induction gs as [|[d' v] r IH]; [done|].
  rewrite dayKeys_cons, groupOf_cons, not_elem_of_cons. intros [Hne Hn].
  destruct (Z.eqb_spec d' day); [done|by apply IH].
Qed.

(** After one more call of day [day], the group of that day has one more
    call, and the other groups are as before. *)
Lemma addToGroup_groupOf day b gs d :
  StronglySorted Z.lt (dayKeys gs) →
  groupOf d (addToGroup day b gs)
  = if decide (d = day)
    then Some (S (default (0, 0) (groupOf d gs)).1,
               ((default (0, 0) (groupOf d gs)).2 + if b then 1 else 0))%nat
    else groupOf d gs.
Proof.
  induction gs as [|[d' [n k]] r IH]; intros Hs.
  - simpl. rewrite groupOf_cons.
    destruct (Z.eqb_spec day d) as [->|Hne]; case_decide; simpl; try done; lia.
  - rewrite dayKeys_cons in Hs. apply StronglySorted_cons in Hs as [Hall Hs].
    cbn [addToGroup]. destruct (Z.eqb_spec day d') as [->|Hne].
    { rewrite !groupOf_cons.
      destruct (Z.eqb_spec d' d) as [->|Hne']; case_decide; simpl; try done; lia. }
    destruct (Z.ltb_spec day d').
    + rewrite !groupOf_cons.
      destruct (Z.eqb_spec day d) as [->|Hne']; case_decide; simpl; try done;
        try lia.
      destruct (Z.eqb_spec d' d) as [->|Hne'']; [lia|].
      rewrite (groupOf_None d r); [done|].
      intros Hin. eapply Forall_forall in Hall; [|exact Hin]. lia.
    + rewrite !groupOf_cons, (IH Hs).
      destruct (Z.eqb_spec d' d) as [->|Hne']; case_decide; simpl; try done; lia.
Qed.

Lemma callsOn_snoc d cs c :
  callsOn d (cs ++ [c])
  = callsOn d cs ++ (if decide (Date.utcDay (Call.createdAt c) = d) then [c] else []).
Proof.
  unfold callsOn. rewrite filter_app, filter_cons, filter_nil.
  by case_decide.
Qed.

(** The groups of the aggregation are the days with calls, each with the
    number of its calls and of its connected calls. *)
Lemma dayGroups_spec cs :
  StronglySorted Z.lt (dayKeys (dayGroups cs))
  ∧ ∀ d, groupOf d (dayGroups cs)
         = if decide (callsOn d cs = [])
           then None
           else Some (length (callsOn d cs), length (connectedOf (callsOn d cs))).
Proof.
  unfold dayGroups. induction cs as [|c cs [IHs IH]] using rev_ind.
  - split; [constructor|]. intros d. reflexivity.
  - rewrite foldl_snoc. split; [by apply addToGroup_sorted|].
    intros d. rewrite addToGroup_groupOf by done. rewrite IH, callsOn_snoc.
    destruct (decide (d = Date.utcDay (Call.createdAt c))) as [->|Hne].
    + rewrite (decide_True (P := Date.utcDay _ = Date.utcDay _)) by done.
      rewrite (decide_False (P := _ ++ _ = [])) by (by destruct (callsOn _ cs)).
      unfold connectedOf. rewrite filter_app, !length_app, filter_cons, filter_nil.
      destruct (decide (callsOn _ cs = [])) as [E|E]; [rewrite E|]; simpl;
        destruct (Call.status c =? "connected"); simpl; f_equal; f_equal; lia.
    + rewrite (decide_False (P := Date.utcDay _ = d)) by done.
      by rewrite app_nil_r.
Qed.

Lemma find_groupByDay d cs :
  find (λ item, bool_decide (TrendItem._id item = Some d)) (groupByDay cs)
  = (λ v : nat * nat, TrendItem.mk (Some d) None v.1 v.2)
      <$> groupOf d (dayGroups cs).
Proof.
  unfold groupByDay. fold (dayGroups cs).
  induction (dayGroups cs) as [|[d' v] r IH]; [done|].
  rewrite groupOf_cons, fmap_cons. cbn [find TrendItem._id fst].
  destruct (Z.eqb_spec d' d) as [->|Hne].
  - by rewrite bool_decide_eq_true_2.
  - rewrite bool_decide_eq_false_2 by congruence. exact IH.
Qed.

(** X9: When the aggregation succeeds, the i-th element of the answer of
    [getCallTrends] counts exactly the calls of the window (and of the
    caller, for a telecaller) made on the i-th UTC day from the first
    label on, and the connected ones among them; it is the made-up zero
    object when there are none, and carries [_id] otherwise. *)
Theorem getCallTrends_counts env req w :
  fails env CallAggregate = false →
  ∃ items,
    data (getCallTrends env req w).1 = Some items
    ∧ (getCallTrends env req w).2 = w
    ∧ ∀ i item, items !! i = Some item →
        ∃ cs,
          cs = callsOn (Date.utcDay (trendStart env req) + Z.of_nat i)
                 (filter (λ c, matchesCall (trendQuery env req) c) (calls w))
          ∧ TrendItem.count item = length cs
          ∧ TrendItem.connected item = length (connectedOf cs)
          ∧ (cs = [] →
             item = TrendItem.mk None
                      (Some (Date.utcDay (trendStart env req) + Z.of_nat i)%Z) 0 0)
          ∧ (cs ≠ [] →
             TrendItem._id item
             = Some (Date.utcDay (trendStart env req) + Z.of_nat i)%Z).
Proof.
  intros Hagg. unfold getCallTrends, Call_aggregate. unfold_ops.
  rewrite Hagg. simpl. eexists. split; [reflexivity|]. split; [done|].
  intros i item Hi. apply list_lookup_fmap_Some in Hi as (j & -> & Hj).
  apply lookup_seqZ in Hj as [-> _]. rewrite Z.add_0_l.
  fold (trendStart env req). fold (trendQuery env req).
  eexists. split; [reflexivity|].
  unfold trendAt. rewrite utcDay_addDays, find_groupByDay.
  destruct (dayGroups_spec (filter (λ c, matchesCall (trendQuery env req) c) (calls w)))
    as [_ Hg].
  rewrite Hg. case_decide as Hnil.
  - rewrite Hnil. simpl. done.
  - simpl. done.
Qed.

Lemma getCallTrends_counts_witness :
  ∃ items, data (getCallTrends Sample.env (mkTrendsReq Demo.boss (Some 3%Z))
                   Sample.worldWithCall).1 = Some items
           ∧ (getCallTrends Sample.env (mkTrendsReq Demo.boss (Some 3%Z))
                Sample.worldWithCall).2 = Sample.worldWithCall.
Proof.
  destruct (getCallTrends_counts Sample.env (mkTrendsReq Demo.boss (Some 3%Z))
              Sample.worldWithCall) as (items & Hd & Hw & _); [reflexivity|].
  exists items. split; [exact Hd|exact Hw].
Defined.

(** ** Grouping *)

Section grouping.

Context {A : Type} (key : A → string).

Lemma groupAt_cons d k (xs : list A) gs :
  groupAt d ((k, xs) :: gs) = if decide (k = d) then Some xs else groupAt d gs.
Proof.
  unfold groupAt. simpl.
  destruct (String.eqb_spec k d); by case_decide.
Qed.

Lemma insertGroup_groupAt d k (x : A) gs :
  groupAt d (insertGroup k x gs)
  = if decide (d = k) then Some (default [] (groupAt d gs) ++ [x])
    else groupAt d gs.
Proof.
  induction gs as [|[k' xs] r IH]; cbn [insertGroup].
  - rewrite groupAt_cons. repeat case_decide; by simplify_eq.
  - destruct (String.eqb_spec k k') as [->|Hne]; rewrite !groupAt_cons.
    + repeat case_decide; by simplify_eq.
    + rewrite IH. repeat case_decide; by simplify_eq.
Qed.

Lemma insertGroup_keys k (x : A) gs :
  fst <$> insertGroup k x gs
  = if decide (k ∈ fst <$> gs) then fst <$> gs else (fst <$> gs) ++ [k].
Proof.
  induction gs as [|[k' xs] r IH]; cbn [insertGroup].
  - rewrite decide_False; [done|]. by intros ?%elem_of_nil.
  - destruct (String.eqb_spec k k') as [->|Hne].
    + rewrite decide_True; [done|]. rewrite fmap_cons. by left.
    + rewrite !fmap_cons, IH. cbn [fst].
      destruct (decide (k ∈ fst <$> r)) as [Hin|Hin].
      * rewrite decide_True; [done|]. by right.
      * rewrite decide_False; [done|]. by intros [?|?]%elem_of_cons.
Qed.

Lemma insertGroup_sizes k (x : A) gs :
  sum_list (length ∘ snd <$> insertGroup k x gs)
  = S (sum_list (length ∘ snd <$> gs)).
Proof.
  induction gs as [|[k' xs] r IH]; cbn [insertGroup]; [done|].
  destruct (k =? k'); rewrite !fmap_cons; simpl.
  - rewrite length_app. simpl. lia.
  - rewrite IH. lia.
Qed.

(** [groupBy] partitions: one group per key that occurs, holding the
    elements with that key in their order. *)
Lemma groupBy_spec (l : list A) :
  NoDup (fst <$> groupBy key l)
  ∧ sum_list (length ∘ snd <$> groupBy key l) = length l
  ∧ ∀ d, groupAt d (groupBy key l)
         = if decide (filter (λ x, key x = d) l = []) then None
           else Some (filter (λ x, key x = d) l).
Proof.
  unfold groupBy. induction l as [|x l (IHn & IHs & IH)] using rev_ind.
  - split; [constructor|]. split; [done|]. intros d. reflexivity.
  - rewrite foldl_snoc. split; [|split].
    + rewrite insertGroup_keys. case_decide as Hin; [done|].
      apply NoDup_app. split; [done|]. split; [|apply NoDup_singleton].
      by intros y Hy ->%list_elem_of_singleton.
    + rewrite insertGroup_sizes, IHs, length_app. simpl. lia.
    + intros d. rewrite insertGroup_groupAt, IH, filter_app, filter_cons, filter_nil.
      destruct (decide (d = key x)) as [->|Hne].
      * rewrite (decide_True (P := key x = key x)) by done.
        rewrite (decide_False (P := _ ++ _ = []))
          by (by destruct (filter _ l)).
        by case_decide as E; [rewrite E|].
      * rewrite (decide_False (P := key x = d)) by done.
        by rewrite app_nil_r.
Qed.

Lemma groupAt_elem d (xs : list A) gs :
  NoDup (fst <$> gs) → (d, xs) ∈ gs ↔ groupAt d gs = Some xs.
Proof.
  induction gs as [|[k ys] r IH]; intros Hnd.
  - split; [by intros ?%elem_of_nil|done].
  - rewrite fmap_cons in Hnd. apply NoDup_cons in Hnd as [Hk Hnd].
    rewrite groupAt_cons, elem_of_cons. case_decide as E.
    + subst k. split.
      * intros [[= -> ]|Hin]; [done|].
        destruct Hk. apply list_elem_of_fmap. by exists (d, xs).
      * intros [= ->]. by left.
    + rewrite <- (IH Hnd). split; [|by right].
      intros [[= ? ?]|?]; [by subst|done].
Qed.

Lemma groupBy_elem (l : list A) d xs :
  (d, xs) ∈ groupBy key l ↔ xs = filter (λ x, key x = d) l ∧ xs ≠ [].
Proof.
  destruct (groupBy_spec l) as (Hnd & _ & Hat).
  rewrite (groupAt_elem _ _ _ Hnd), Hat. case_decide as E.
  - split; [done|]. intros [-> ?]. done.
  - split; [by intros [= <-]|by intros [-> _]].
Qed.

End grouping.

#[export] Instance largerFirst_total {A} (size : A → nat) : Total (largerFirst size).
Proof. intros a b. unfold largerFirst. lia. Qed.

#[export] Instance largerFirst_trans {A} (size : A → nat)
  : Transitive (largerFirst size).
Proof. intros a b c. unfold largerFirst. lia. Qed.

#[export] Instance newerFirst_total : Total newerFirst.
Proof. intros a b. unfold newerFirst. lia. Qed.

#[export] Instance newerFirst_trans : Transitive newerFirst.
Proof. intros a b c. unfold newerFirst. lia. Qed.

(** ** Listing calls *)

Ltac unfold_ops2 :=
  unfold Call_find, Call_deleteMany, Lead_deleteOne, Lead_create,
    User_findById, User_deleteOne, Lead_aggregate, countCalls, await2,
    putUsers;
  unfold_ops.

Lemma filter_lead k cs :
  filter (λ c, matchesFilter (mkCallFilter (Some k) None None) c) cs
  = callsOfLead k cs.
Proof.
  apply list_filter_iff. intros c. unfold matchesFilter. simpl.
  rewrite !andb_true_r. split.
  - by intros ?%Is_true_true%String.eqb_eq.
  - intros ->. apply Is_true_true, String.eqb_refl.
Qed.

Lemma fst_userRows w (l : list Call.t) :
  fst <$> ((λ c, (c, userRef w (Call.user c))) <$> l) = l.
Proof. induction l as [|c l IH]; [done|]. rewrite !fmap_cons, IH. done. Qed.

(** X10: When [getCallsByLead] answers 200, the lead is stored and the caller
    may see it; the rows are all the calls of that lead and no others,
    newest first, each with the user it was made by; the store is
    untouched. *)
Theorem getCallsByLead_200 dr req w :
  code (getCallsByLead dr req w).1 = 200 →
  ∃ k l rows,
    ObjectId.cast (ir_id req) = Some k
    ∧ leads w !! k = Some l
    ∧ (role (ir_user req) = "telecaller" → Lead.createdBy l = _id (ir_user req))
    ∧ data (getCallsByLead dr req w).1 = Some rows
    ∧ (getCallsByLead dr req w).2 = w
    ∧ fst <$> rows ≡ₚ callsOfLead k (calls w)
    ∧ StronglySorted newerFirst (fst <$> rows)
    ∧ ∀ c r, (c, r) ∈ rows → r = userRef w (Call.user c).
Proof.
  unfold getCallsByLead. unfold_ops2. crunch.
  all: lookups.
  all: intros ?; simplify_eq.
  all: eexists _, _, _; split; [reflexivity|]; split; [eassumption|].
  all: split;
    [intros Hr; match goal with
                | H : _ && _ = false |- _ =>
                    rewrite Hr in H; simpl in H;
                    apply negb_false_iff in H; by apply String.eqb_eq in H
                end|].
  all: split; [reflexivity|]; split; [reflexivity|].
  all: rewrite fst_userRows, filter_lead.
  all: split; [apply merge_sort_Permutation|].
  all: split; [apply StronglySorted_merge_sort; apply _|].
  all: by intros c r (c' & [= -> ->] & _)%list_elem_of_fmap.
Qed.

Lemma getCallsByLead_200_witness :
  ∃ k rows, data (getCallsByLead Demo.driver (mkIdReq Demo.tele1 Sample.lead1)
                    Sample.worldWithCall).1 = Some rows
            ∧ fst <$> rows ≡ₚ callsOfLead k (calls Sample.worldWithCall).
Proof.
  destruct (getCallsByLead_200 Demo.driver (mkIdReq Demo.tele1 Sample.lead1)
              Sample.worldWithCall)
    as (k & l & rows & _ & _ & _ & Hd & _ & Hp & _); [reflexivity|].
  exists k, rows. split; [exact Hd|exact Hp].
Defined.

Lemma getCallsByLead_refused dr req w k :
  fails (dr_env dr) LeadFindById = false →
  ObjectId.cast (ir_id req) = Some k →
  (leads w !! k = None →
   getCallsByLead dr req w = (jsonMessage 404 false "Lead not found", w))
  ∧ (∀ l, leads w !! k = Some l →
          role (ir_user req) = "telecaller" →
          Lead.createdBy l ≠ _id (ir_user req) →
          getCallsByLead dr req w
          = (jsonMessage 403 false "Not authorized to access this lead", w)).
Proof.
  intros Hf Hcast. unfold getCallsByLead. unfold_ops2.
  rewrite Hf, Hcast. simpl. split.
  - by intros ->.
  - intros l -> -> Hne%String.eqb_neq. simpl. by rewrite Hne.
Qed.

(** X11: When the lookup succeeds, [getCallsByLead] answers 404 for an id
    that is not stored and 403 to a telecaller who did not create the
    lead; neither answer carries calls or touches the store. *)
Theorem getCallsByLead_refusals dr req w k :
  fails (dr_env dr) LeadFindById = false →
  ObjectId.cast (ir_id req) = Some k →
  (leads w !! k = None →
   getCallsByLead dr req w = (jsonMessage 404 false "Lead not found", w))
  ∧ (∀ l, leads w !! k = Some l →
          role (ir_user req) = "telecaller" →
          Lead.createdBy l ≠ _id (ir_user req) →
          getCallsByLead dr req w
          = (jsonMessage 403 false "Not authorized to access this lead", w)).
Proof. apply getCallsByLead_refused. Qed.

Lemma getCallsByLead_refusals_witness :
  getCallsByLead Demo.driver (mkIdReq Demo.tele2 Sample.lead1)
    Sample.worldWithCall
  = (jsonMessage 403 false "Not authorized to access this lead",
     Sample.worldWithCall).
Proof.
  destruct (getCallsByLead_refusals Demo.driver
              (mkIdReq Demo.tele2 Sample.lead1) Sample.worldWithCall
              Sample.lead1) as [_ H]; [reflexivity..|].
  apply (H (Sample.lead "contacted")); [reflexivity..|discriminate].
Defined.

Lemma filter_connected u (cs : list Call.t) c :
  c ∈ filter (λ c, matchesFilter
                     (mkCallFilter None
                        (if role u =? "telecaller" then Some (_id u) else None)
                        (Some "connected")) c) cs
  ↔ c ∈ cs ∧ Call.status c = "connected"
    ∧ (role u = "telecaller" → Call.user c = _id u).
Proof.
  rewrite list_elem_of_filter. unfold matchesFilter. simpl.
  destruct (String.eqb_spec (role u) "telecaller") as [Hr|Hr]; simpl.
  - rewrite Is_true_true, andb_true_iff, !String.eqb_eq. tauto.
  - rewrite Is_true_true, String.eqb_eq. tauto.
Qed.

(** X12: When [getConnectedCalls] answers 200: every row is a stored connected
    call (the caller's own, for a telecaller) with both references
    populated; there are at most |limit| rows (10 by default), newest
    first; and a connected call in scope that is left out is no newer
    than any row. *)
Theorem getConnectedCalls_200 dr req w :
  code (getConnectedCalls dr req w).1 = 200 →
  ∃ rows,
    data (getConnectedCalls dr req w).1 = Some rows
    ∧ (getConnectedCalls dr req w).2 = w
    ∧ (Z.of_nat (length rows) ≤ Z.abs (Js.orDefault (lm_limit req) 10))%Z
    ∧ StronglySorted newerFirst (pc_call <$> rows)
    ∧ (∀ p, p ∈ rows →
         pc_call p ∈ calls w
         ∧ Call.status (pc_call p) = "connected"
         ∧ (role (lm_user req) = "telecaller" →
            Call.user (pc_call p) = _id (lm_user req))
         ∧ p = populateCall w (pc_call p))
    ∧ (∀ c, c ∈ calls w → Call.status c = "connected" →
         (role (lm_user req) = "telecaller" → Call.user c = _id (lm_user req)) →
         c ∈ pc_call <$> rows
         ∨ ∀ p, p ∈ rows → (Call.createdAt c ≤ Call.createdAt (pc_call p))%Z).
Proof.
  unfold getConnectedCalls. unfold_ops2.
  destruct (dr_fails dr CallFind); [simpl; discriminate|].
  simpl. intros _. eexists. split; [reflexivity|]. split; [done|].
  set (q := mkCallFilter _ _ _).
  set (sorted := merge_sort newerFirst (filter (λ c, matchesFilter q c) (calls w))).
  set (n := Z.to_nat (Z.abs (Js.orDefault (lm_limit req) 10))).
  assert (StronglySorted newerFirst sorted) as Hsorted
    by (apply StronglySorted_merge_sort; apply _).
  assert (pc_call <$> (populateCall w <$> take n sorted) = take n sorted) as Hback.
  { induction (take n sorted) as [|c l IH]; [done|]. by rewrite !fmap_cons, IH. }
  assert (∀ c, c ∈ sorted ↔
               c ∈ calls w ∧ Call.status c = "connected"
               ∧ (role (lm_user req) = "telecaller" → Call.user c = _id (lm_user req)))
    as Hmem.
  { intros c. unfold sorted. rewrite merge_sort_Permutation. apply filter_connected. }
  split; [rewrite length_fmap, length_take; lia|].
  rewrite Hback. rewrite <- (take_drop n sorted) in Hsorted.
  split; [by apply StronglySorted_app_1_l in Hsorted|].
  split.
  - intros p (c & -> & Hc)%list_elem_of_fmap. simpl.
    apply subseteq_take, Hmem in Hc. destruct Hc as (? & ? & ?). auto.
  - intros c Hc Hs Hu.
    assert (c ∈ sorted) as Hin by (apply Hmem; done).
    rewrite <- (take_drop n sorted) in Hin. apply elem_of_app in Hin as [Hin|Hin].
    + by left.
    + right. intros p (c' & -> & Hc')%list_elem_of_fmap. simpl.
      apply (StronglySorted_app_1_elem_of _ _ _ c' c Hsorted Hc' Hin).
Qed.

Lemma getConnectedCalls_200_witness :
  ∃ rows, data (getConnectedCalls Demo.driver (mkLimitReq Demo.boss None)
                  Sample.worldWithCall).1 = Some rows
          ∧ (Z.of_nat (length rows) ≤ 10)%Z.
Proof.
  destruct (getConnectedCalls_200 Demo.driver (mkLimitReq Demo.boss None)
              Sample.worldWithCall) as (rows & Hd & _ & Hn & _); [reflexivity|].
  exists rows. split; [exact Hd|exact Hn].
Defined.

(** ** Grouped counts *)






(** ** Lead.aggregate: the counts by source and by status *)

Lemma Lead_aggregate_rows dr path w :
  dr_fails dr LeadAggregate = false →
  ∃ rows,
    Lead_aggregate dr path w = (Val rows, w)
    ∧ NoDup (fst <$> rows)
    ∧ StronglySorted (largerFirst snd) rows
    ∧ sum_list (snd <$> rows) = size (leads w)
    ∧ ∀ v n, (v, n) ∈ rows ↔ n = length (leadsWith path v w) ∧ n ≠ 0%nat.
Proof.
  intros Hf. unfold Lead_aggregate. unfold_ops2. rewrite Hf.
  eexists. split; [reflexivity|].
  set (gs := groupBy path (snd <$> map_to_list (leads w))).
  destruct (groupBy_spec path (snd <$> map_to_list (leads w))) as (Hnd & Hsum & _).
  fold gs in Hnd, Hsum.
  split; [|split; [|split]].
  - rewrite merge_sort_Permutation, <- list_fmap_compose. exact Hnd.
  - apply StronglySorted_merge_sort; apply _.
  - rewrite merge_sort_Permutation, <- list_fmap_compose.
    rewrite length_fmap, length_map_to_list in Hsum. exact Hsum.
  - intros v n. rewrite merge_sort_Permutation, list_elem_of_fmap. split.
    + intros ([v' xs] & [= -> ->] & Hg). apply groupBy_elem in Hg as [-> Hne].
      split; [done|]. simpl. by destruct (filter _ _).
    + intros [-> Hne]. exists (v, leadsWith path v w). split; [done|].
      apply groupBy_elem. split; [done|]. by intros E; rewrite E in Hne.
Qed.

(** X14: [getLeadSources] and [getLeadStatuses] take no account of the caller:
    when the aggregation succeeds, the rows count the leads of the whole
    store, one row for each source (status) that occurs, with the number
    of leads that have it, in descending order of count; the counts add
    up to the number of stored leads. *)
Theorem getLeadSources_getLeadStatuses_counts dr w :
  dr_fails dr LeadAggregate = false →
  (∃ rows,
     getLeadSources dr w = (jsonData 200 rows, w)
     ∧ NoDup (fst <$> rows)
     ∧ StronglySorted (largerFirst snd) rows
     ∧ sum_list (snd <$> rows) = size (leads w)
     ∧ ∀ v n, (v, n) ∈ rows ↔ n = length (leadsWith Lead.source v w) ∧ n ≠ 0%nat)
  ∧ (∃ rows,
       getLeadStatuses dr w = (jsonData 200 rows, w)
       ∧ NoDup (fst <$> rows)
       ∧ StronglySorted (largerFirst snd) rows
       ∧ sum_list (snd <$> rows) = size (leads w)
       ∧ ∀ v n, (v, n) ∈ rows ↔ n = length (leadsWith Lead.status v w) ∧ n ≠ 0%nat).
Proof.
  intros Hf. split.
  - destruct (Lead_aggregate_rows dr Lead.source w Hf) as (rows & Hrun & H).
    exists rows. split; [|exact H].
    unfold getLeadSources, tryCatch. unfold mbind, mret, M_bind, M_ret.
    by rewrite Hrun.
  - destruct (Lead_aggregate_rows dr Lead.status w Hf) as (rows & Hrun & H).
    exists rows. split; [|exact H].
    unfold getLeadStatuses, tryCatch. unfold mbind, mret, M_bind, M_ret.
    by rewrite Hrun.
Qed.

Lemma getLeadSources_getLeadStatuses_counts_witness :
  ∃ rows, getLeadSources Demo.driver Sample.worldWithCall
          = (jsonData 200 rows, Sample.worldWithCall)
          ∧ sum_list (snd <$> rows) = size (leads Sample.worldWithCall).
Proof.
  destruct (getLeadSources_getLeadStatuses_counts Demo.driver
              Sample.worldWithCall) as [(rows & Hrun & _ & _ & Hsum & _) _];
    [reflexivity|].
  exists rows. split; [exact Hrun|exact Hsum].
Defined.

(** ** createLead *)

Lemma leadValidation_source dr b :
  leadValidation dr b = [] →
  ∃ s, LeadFields.source b = Some s ∧ In s Lead.sources.
Proof.
  unfold leadValidation. intros H.
  apply app_eq_nil in H as [_ H]. apply app_eq_nil in H as [_ H].
  apply app_eq_nil in H as [H _]. apply check_nil, includes_In in H.
  destruct (LeadFields.source b) as [s|]; simpl in H; [by exists s|].
  simpl in H. intuition discriminate.
Qed.

Lemma validateNewLead_facts f :
  validateNewLead f = true →
  (∃ n, LeadFields.name f = Some n ∧ n ≠ "")
  ∧ (∃ p, LeadFields.phone f = Some p ∧ p ≠ "")
  ∧ (∃ a, LeadFields.address f = Some a ∧ a ≠ "")
  ∧ (∀ s, LeadFields.status f = Some s → In s Lead.statuses).
Proof.
  intros H. unfold validateNewLead in H.
  rewrite !andb_true_iff, !bool_decide_eq_true in H.
  destruct H as [[[[[Hv [n Hn]] [p Hp]] [a Ha]] _] _].
  unfold validateLeadFields in Hv. cbv zeta in Hv.
  rewrite !andb_true_iff in Hv.
  destruct Hv as [[[[[[Hvn _] Hvp] _] Hva] _] Hvs].
  rewrite Hn in Hvn. rewrite Hp in Hvp. rewrite Ha in Hva.
  apply andb_true_iff in Hvn as [Hvn _]. apply andb_true_iff in Hvp as [Hvp _].
  apply negb_true_iff, String.eqb_neq in Hvn, Hvp, Hva.
  repeat split; eauto.
  intros s Hs. rewrite Hs in Hvs. by apply includes_In.
Qed.

Lemma createLead_201_inv dr req w :
  code (createLead dr req w).1 = 201 →
  ∃ l,
    leads w !! dr_newId dr = None
    ∧ leads (createLead dr req w).2 = <[dr_newId dr := l]> (leads w)
    ∧ calls (createLead dr req w).2 = calls w
    ∧ users (createLead dr req w).2 = users w
    ∧ data (createLead dr req w).1
      = Some (mkCreatedLead (dr_newId dr) l (userRef w (_id (cl_user req))))
    ∧ Lead.createdBy l = _id (cl_user req)
    ∧ Lead.lastModifiedBy l = _id (cl_user req)
    ∧ Lead.status l = default "new" (LeadFields.status (cl_body req))
    ∧ In (Lead.status l) Lead.statuses
    ∧ In (Lead.source l) Lead.sources
    ∧ Lead.name l ≠ "" ∧ Lead.phone l ≠ "" ∧ Lead.address l ≠ ""
    ∧ Lead.createdAt l = now (dr_env dr).
Proof.
  unfold createLead.
  destruct (leadValidation _ _) eqn:Hv; [|simpl; discriminate].
  apply leadValidation_source in Hv as (src & Hsrc & Hin).
  unfold_ops2.
  destruct (dr_fails dr LeadCreate); [simpl; discriminate|].
  destruct (validateNewLead _) eqn:Hvalid; [|simpl; discriminate].
  simpl. destruct (leads w !! dr_newId dr) eqn:Hfree; [simpl; discriminate|].
  simpl. destruct (dr_fails dr LeadPopulate); [simpl; discriminate|].
  simpl. intros _.
  apply validateNewLead_facts in Hvalid
    as ((n & Hn & Hn') & (p & Hp & Hp') & (a & Ha & Ha') & Hst).
  simpl in *.
  eexists. split; [done|]. split; [reflexivity|].
  split; [done|]. split; [done|]. split; [reflexivity|]. simpl.
  rewrite Hn, Hp, Ha, Hsrc. simpl.
  repeat split; try done.
  destruct (LeadFields.status (cl_body req)) as [s|]; simpl; [by apply Hst|].
  auto.
Qed.

Lemma castLeadFields_createdBy_cast u u' c :
  castLeadFields u = Some u' →
  LeadFields.createdBy u = Some c →
  ∃ k, ObjectId.cast c = Some k ∧ LeadFields.createdBy u' = Some k.
Proof.
  unfold castLeadFields. intros H Hc. rewrite Hc in H. simpl in H.
  destruct (ObjectId.cast c) as [k|]; simpl in H; [|done].
  exists k. split; [done|]. by simplify_eq.
Qed.

(** C4: [createdBy] is not kept. [updateLead] hands a [createdBy] of the
    body to the store: whenever it answers 200 to such a body, the lead
    of the request belongs to the user the body names, whoever owned it.
    [createLead] builds its document in the same way and does put the
    caller over the body's [createdBy]; [updateLead] does so for
    [lastModifiedBy] only. *)
Theorem updateLead_hands_createdBy_to_the_store env req w dr creq :
  (code (updateLead env req w).1 = 200 →
   ∀ c, LeadFields.createdBy (ur_body req) = Some c →
     ∃ k l l' owner,
       ObjectId.cast (ur_id req) = Some k
       ∧ leads w !! k = Some l
       ∧ leads (updateLead env req w).2 !! k = Some l'
       ∧ ObjectId.cast c = Some owner
       ∧ Lead.createdBy l' = owner
       ∧ Lead.lastModifiedBy l' = _id (ur_user req))
  ∧ (code (createLead dr creq w).1 = 201 →
     ∃ l, leads (createLead dr creq w).2 !! dr_newId dr = Some l
          ∧ Lead.createdBy l = _id (cl_user creq)
          ∧ Lead.lastModifiedBy l = _id (cl_user creq)).
Proof.
  split.
  - unfold updateLead.
    destruct (updateLeadValidation _ _) eqn:Hv; [|simpl; discriminate].
    unfold_ops. crunch.
    all: intros ? c Hc; simplify_eq.
    all: match goal with
         | H : castLeadFields _ = Some _ |- _ =>
             pose proof (castLeadFields_createdBy_cast _ _ c H Hc)
               as (owner & Hcast & Hcb);
             apply castLeadFields_status in H as [_ Hm]; simpl in Hm
         end.
    all: lookups.
    all: eexists _, _, _, owner; split; [reflexivity|]; split; [eassumption|].
    all: split; [apply lookup_insert_eq|].
    all: split; [exact Hcast|]; simpl; by rewrite Hcb, Hm.
  - intros H. destruct (createLead_201_inv dr creq w H)
      as (l & _ & Hleads & _ & _ & _ & Hc & Hm & _).
    exists l. rewrite Hleads, lookup_insert_eq. done.
Qed.

Lemma updateLead_hands_createdBy_to_the_store_witness :
  Lead.createdBy <$> leads (Sample.world "new") !! Sample.lead1
  = Some Sample.tele1
  ∧ (∃ l', leads (updateLead Sample.env
                    (mkUpdateLeadReq Demo.tele1 Sample.lead1 Sample.giveAway)
                    (Sample.world "new")).2 !! Sample.lead1 = Some l'
           ∧ Lead.createdBy l' = Sample.tele2)
  ∧ (∃ l, leads (createLead Demo.driver
                   (mkCreateLeadReq Demo.tele1 Demo.leadBody)
                   (Sample.world "new")).2 !! Demo.newLeadId = Some l
          ∧ Lead.createdBy l = Sample.tele1).
Proof.
  destruct (updateLead_hands_createdBy_to_the_store Sample.env
              (mkUpdateLeadReq Demo.tele1 Sample.lead1 Sample.giveAway)
              (Sample.world "new") Demo.driver
              (mkCreateLeadReq Demo.tele1 Demo.leadBody)) as [Hup Hcr].
  split; [reflexivity|]. split.
  - destruct (Hup eq_refl Sample.tele2 eq_refl)
      as (k & l & l' & owner & Hk & _ & Hl' & Hcast & Hc & _).
    vm_compute in Hk. injection Hk as <-.
    vm_compute in Hcast. injection Hcast as <-.
    exists l'. split; [exact Hl'|exact Hc].
  - destruct (Hcr eq_refl) as (l & Hl & Hc & _).
    exists l. split; [exact Hl|exact Hc].
Defined.

(** X15: When [createLead] answers 201 to a body that sets neither [_id] nor
    a timestamp, one lead was inserted under the new id, stamped with
    the time of the request, and nothing else changed; its [createdBy]
    and [lastModifiedBy] are the caller, whatever the body says; its
    status is the body's, or 'new' when the body has none; status and
    source are in their enumerations, name, phone and address are not
    empty, and the answer carries the lead with its creator. *)
Theorem createLead_201 dr req w :
  code (createLead dr req w).1 = 201 →
  ∃ l,
    leads w !! dr_newId dr = None
    ∧ leads (createLead dr req w).2 = <[dr_newId dr := l]> (leads w)
    ∧ calls (createLead dr req w).2 = calls w
    ∧ users (createLead dr req w).2 = users w
    ∧ data (createLead dr req w).1
      = Some (mkCreatedLead (dr_newId dr) l (userRef w (_id (cl_user req))))
    ∧ Lead.createdBy l = _id (cl_user req)
    ∧ Lead.lastModifiedBy l = _id (cl_user req)
    ∧ Lead.status l = default "new" (LeadFields.status (cl_body req))
    ∧ In (Lead.status l) Lead.statuses
    ∧ In (Lead.source l) Lead.sources
    ∧ Lead.name l ≠ "" ∧ Lead.phone l ≠ "" ∧ Lead.address l ≠ ""
    ∧ Lead.createdAt l = now (dr_env dr).
Proof. apply createLead_201_inv. Qed.

Lemma createLead_201_witness :
  ∃ l, data (createLead Demo.driver (mkCreateLeadReq Demo.tele1 Demo.leadBody)
               (Sample.world "new")).1
       = Some (mkCreatedLead Demo.newLeadId l
                 (userRef (Sample.world "new") Sample.tele1))
       ∧ Lead.createdBy l = Sample.tele1.
Proof.
  destruct (createLead_201 Demo.driver
              (mkCreateLeadReq Demo.tele1 Demo.leadBody) (Sample.world "new"))
    as (l & _ & _ & _ & _ & Hd & Hc & _); [reflexivity|].
  exists l. split; [exact Hd|exact Hc].
Defined.

(** X16: When the lead is inserted and the populate that follows throws,
    [createLead] answers 500 although the lead is stored. *)
Theorem createLead_populate_failure_keeps_lead dr req w :
  leadValidation dr (cl_body req) = [] →
  dr_fails dr LeadCreate = false →
  validateNewLead (trimLeadFields (withOwner (_id (cl_user req)) (cl_body req)))
  = true →
  leads w !! dr_newId dr = None →
  dr_fails dr LeadPopulate = true →
  code (createLead dr req w).1 = 500
  ∧ success (createLead dr req w).1 = false
  ∧ is_Some (leads (createLead dr req w).2 !! dr_newId dr).
Proof.
  intros Hv Hc Hvalid Hfree Hp. unfold createLead. rewrite Hv.
  unfold_ops2. rewrite Hc, Hvalid. simpl. rewrite Hfree. simpl. rewrite Hp.
  simpl. rewrite lookup_insert_eq. eauto.
Qed.

Lemma createLead_populate_failure_keeps_lead_witness :
  code (createLead Demo.driverPopulateDown
          (mkCreateLeadReq Demo.tele1 Demo.leadBody) (Sample.world "new")).1 = 500
  ∧ success (createLead Demo.driverPopulateDown
               (mkCreateLeadReq Demo.tele1 Demo.leadBody)
               (Sample.world "new")).1 = false
  ∧ is_Some (leads (createLead Demo.driverPopulateDown
                      (mkCreateLeadReq Demo.tele1 Demo.leadBody)
                      (Sample.world "new")).2 !! Demo.newLeadId).
Proof.
  apply (createLead_populate_failure_keeps_lead Demo.driverPopulateDown
           (mkCreateLeadReq Demo.tele1 Demo.leadBody) (Sample.world "new"));
    reflexivity.
Defined.

(** ** deleteLead *)

Lemma filter_not_lead k (cs : list Call.t) :
  filter (λ c, negb (Call.lead c =? k)) cs = filter (λ c, Call.lead c ≠ k) cs.
Proof.
  apply list_filter_iff. intros c.
  rewrite Is_true_true, negb_true_iff. apply String.eqb_neq.
Qed.

Lemma deleteLead_200_inv dr req w :
  code (deleteLead dr req w).1 = 200 →
  ∃ k l,
    ObjectId.cast (ir_id req) = Some k
    ∧ leads w !! k = Some l
    ∧ (role (ir_user req) = "telecaller" → Lead.createdBy l = _id (ir_user req))
    ∧ leads (deleteLead dr req w).2 = delete k (leads w)
    ∧ calls (deleteLead dr req w).2 = filter (λ c, Call.lead c ≠ k) (calls w)
    ∧ users (deleteLead dr req w).2 = users w.
Proof.
  unfold deleteLead. unfold_ops2. crunch.
  all: lookups.
  all: intros ?; simplify_eq.
  all: eexists _, _; split; [reflexivity|]; split; [eassumption|].
  all: split;
    [intros Hr; match goal with
                | H : _ && _ = false |- _ =>
                    rewrite Hr in H; simpl in H;
                    apply negb_false_iff in H; by apply String.eqb_eq in H
                end|].
  all: split; [reflexivity|]; split; [apply filter_not_lead|reflexivity].
Qed.

(** X17: When [deleteLead] answers 200, the lead was stored and the caller
    allowed to delete it (its creator, if a telecaller); afterwards the
    lead is gone together with every call that referred to it, and all
    other leads, calls and users are as before. *)
Theorem deleteLead_200 dr req w :
  code (deleteLead dr req w).1 = 200 →
  ∃ k l,
    ObjectId.cast (ir_id req) = Some k
    ∧ leads w !! k = Some l
    ∧ (role (ir_user req) = "telecaller" → Lead.createdBy l = _id (ir_user req))
    ∧ leads (deleteLead dr req w).2 = delete k (leads w)
    ∧ calls (deleteLead dr req w).2 = filter (λ c, Call.lead c ≠ k) (calls w)
    ∧ users (deleteLead dr req w).2 = users w.
Proof. apply deleteLead_200_inv. Qed.

Lemma deleteLead_200_witness :
  ∃ k, leads (deleteLead Demo.driver (mkIdReq Demo.tele1 Sample.lead1)
                Sample.worldWithCall).2
       = delete k (leads Sample.worldWithCall)
       ∧ calls (deleteLead Demo.driver (mkIdReq Demo.tele1 Sample.lead1)
                  Sample.worldWithCall).2
         = filter (λ c, Call.lead c ≠ k) (calls Sample.worldWithCall).
Proof.
  destruct (deleteLead_200 Demo.driver (mkIdReq Demo.tele1 Sample.lead1)
              Sample.worldWithCall)
    as (k & l & _ & _ & _ & Hl & Hc & _); [reflexivity|].
  exists k. split; [exact Hl|exact Hc].
Defined.

(** X18: When [deleteLead] answers 403 or 404, the store and the console are
    exactly as before. *)
Theorem deleteLead_refusals_write_nothing dr req w :
  code (deleteLead dr req w).1 = 403 ∨ code (deleteLead dr req w).1 = 404 →
  (deleteLead dr req w).2 = w.
Proof.
  unfold deleteLead. unfold_ops2. crunch.
  all: intros [?|?]; simplify_eq.
Qed.

Lemma deleteLead_refusals_write_nothing_witness :
  (deleteLead Demo.driver (mkIdReq Demo.tele2 Sample.lead1)
     Sample.worldWithCall).2 = Sample.worldWithCall.
Proof.
  apply deleteLead_refusals_write_nothing. left. reflexivity.
Defined.

(** X19: The two deletes are separate writes: when the calls are deleted and
    the delete of the lead then throws, [deleteLead] answers 500, the
    lead is still stored and its calls are gone. *)
Theorem deleteLead_partial_failure dr req w k l :
  fails (dr_env dr) LeadFindById = false →
  ObjectId.cast (ir_id req) = Some k →
  leads w !! k = Some l →
  role (ir_user req) ≠ "telecaller" ∨ Lead.createdBy l = _id (ir_user req) →
  dr_fails dr CallDeleteMany = false →
  dr_fails dr LeadDeleteOne = true →
  code (deleteLead dr req w).1 = 500
  ∧ leads (deleteLead dr req w).2 = leads w
  ∧ calls (deleteLead dr req w).2 = filter (λ c, Call.lead c ≠ k) (calls w).
Proof.
  intros Hf Hcast Hk Hauth Hdm Hdo.
  assert ((role (ir_user req) =? "telecaller")
          && negb (Lead.createdBy l =? _id (ir_user req)) = false) as Hauth'.
  { destruct Hauth as [H|H].
    - apply String.eqb_neq in H. by rewrite H.
    - apply String.eqb_eq in H. rewrite H. apply andb_false_r. }
  unfold deleteLead. unfold_ops2.
  rewrite Hf, Hcast. simpl. rewrite Hk. simpl. rewrite Hauth', Hdm. simpl.
  rewrite Hdo. simpl. split; [done|]. split; [done|]. apply filter_not_lead.
Qed.

Lemma deleteLead_partial_failure_witness :
  code (deleteLead Demo.driverDeleteOneDown (mkIdReq Demo.tele1 Sample.lead1)
          Sample.worldWithCall).1 = 500
  ∧ leads (deleteLead Demo.driverDeleteOneDown (mkIdReq Demo.tele1 Sample.lead1)
             Sample.worldWithCall).2 = leads Sample.worldWithCall
  ∧ calls (deleteLead Demo.driverDeleteOneDown (mkIdReq Demo.tele1 Sample.lead1)
             Sample.worldWithCall).2
    = filter (λ c, Call.lead c ≠ Sample.lead1) (calls Sample.worldWithCall).
Proof.
  apply (deleteLead_partial_failure Demo.driverDeleteOneDown
           (mkIdReq Demo.tele1 Sample.lead1) Sample.worldWithCall Sample.lead1
           (Sample.lead "contacted"));
    [reflexivity..|right; reflexivity|reflexivity|reflexivity].
Defined.

(** ** getLeadById *)

(** X20: When [getLeadById] answers 200, the lead is stored, the caller may
    see it (for a telecaller: it is theirs and their user document is
    stored), the answer is the lead with its references populated and
    all the calls of the lead and no others, newest first; the store is
    untouched. *)
Theorem getLeadById_200 dr req w :
  code (getLeadById dr req w).1 = 200 →
  ∃ k l r,
    ObjectId.cast (ir_id req) = Some k
    ∧ leads w !! k = Some l
    ∧ (role (ir_user req) = "telecaller" →
       Lead.createdBy l = _id (ir_user req)
       ∧ is_Some (users w !! Lead.createdBy l))
    ∧ data (getLeadById dr req w).1 = Some r
    ∧ (getLeadById dr req w).2 = w
    ∧ lw_lead r = populateLead w (k, l)
    ∧ fst <$> lw_calls r ≡ₚ callsOfLead k (calls w)
    ∧ StronglySorted newerFirst (fst <$> lw_calls r).
Proof.
  unfold getLeadById, populateLead. unfold_ops2. simpl.
  destruct (fails _ LeadFindById); [simpl; discriminate|].
  destruct (ObjectId.cast (ir_id req)) as [k|]; [|simpl; discriminate]. simpl.
  destruct (leads w !! k) as [l|] eqn:Hk; [|simpl; discriminate]. simpl.
  destruct (String.eqb_spec (role (ir_user req)) "telecaller") as [Hr|Hr]; simpl.
  - destruct (users w !! Lead.createdBy l) as [cu|] eqn:Hcu;
      [|simpl; discriminate]. simpl.
    destruct (String.eqb_spec (Lead.createdBy l) (_id (ir_user req))) as [Ho|Ho];
      [|simpl; discriminate]. simpl.
    destruct (dr_fails dr CallFind); [simpl; discriminate|]. simpl. intros _.
    eexists k, l, _. repeat (split; [done|]).
    cbn [lw_calls lw_lead]. split; [by rewrite Hcu|].
    rewrite fst_userRows, filter_lead.
    split; [apply merge_sort_Permutation|apply StronglySorted_merge_sort; apply _].
  - destruct (dr_fails dr CallFind); [simpl; discriminate|]. simpl. intros _.
    eexists k, l, _. repeat (split; [done|]).
    cbn [lw_calls lw_lead]. rewrite fst_userRows, filter_lead.
    split; [apply merge_sort_Permutation|apply StronglySorted_merge_sort; apply _].
Qed.

Lemma getLeadById_200_witness :
  ∃ r, data (getLeadById Demo.driver (mkIdReq Demo.tele1 Sample.lead1)
               Sample.worldWithCall).1 = Some r
       ∧ (getLeadById Demo.driver (mkIdReq Demo.tele1 Sample.lead1)
            Sample.worldWithCall).2 = Sample.worldWithCall.
Proof.
  destruct (getLeadById_200 Demo.driver (mkIdReq Demo.tele1 Sample.lead1)
              Sample.worldWithCall)
    as (k & l & r & _ & _ & _ & Hd & Hw & _); [reflexivity|].
  exists r. split; [exact Hd|exact Hw].
Defined.

Lemma getLeadById_creator_gone dr req w k l :
  fails (dr_env dr) LeadFindById = false →
  ObjectId.cast (ir_id req) = Some k →
  leads w !! k = Some l →
  users w !! Lead.createdBy l = None →
  role (ir_user req) = "telecaller" →
  code (getLeadById dr req w).1 = 500
  ∧ data (getLeadById dr req w).1 = None.
Proof.
  intros Hf Hcast Hk Hu Hr. unfold getLeadById, populateLead. unfold_ops2.
  rewrite Hf, Hcast. simpl. rewrite Hk, Hr. simpl. rewrite Hu. simpl. done.
Qed.

(** X21: The ownership test of [getLeadById] reads [_id] of the populated
    creator: for a lead whose creator is no longer stored every
    telecaller is answered 500, not 403 or 200. *)
Theorem getLeadById_creator_gone_is_500 dr req w k l :
  fails (dr_env dr) LeadFindById = false →
  ObjectId.cast (ir_id req) = Some k →
  leads w !! k = Some l →
  users w !! Lead.createdBy l = None →
  role (ir_user req) = "telecaller" →
  code (getLeadById dr req w).1 = 500
  ∧ data (getLeadById dr req w).1 = None.
Proof. apply getLeadById_creator_gone. Qed.

Lemma getLeadById_creator_gone_is_500_witness :
  code (getLeadById Demo.driver (mkIdReq Demo.tele2 Sample.lead1)
          Demo.orphanWorld).1 = 500
  ∧ data (getLeadById Demo.driver (mkIdReq Demo.tele2 Sample.lead1)
            Demo.orphanWorld).1 = None.
Proof.
  apply (getLeadById_creator_gone_is_500 Demo.driver
           (mkIdReq Demo.tele2 Sample.lead1) Demo.orphanWorld Sample.lead1
           (Sample.lead "new")); reflexivity.
Defined.

(** ** deleteUser *)

Lemma deleteUser_200_inv dr req w :
  code (deleteUser dr req w).1 = 200 →
  ∃ k,
    ObjectId.cast (ir_id req) = Some k
    ∧ is_Some (users w !! k)
    ∧ ir_id req ≠ _id (ir_user req)
    ∧ users (deleteUser dr req w).2 = delete k (users w)
    ∧ leads (deleteUser dr req w).2 = leads w
    ∧ calls (deleteUser dr req w).2 = calls w.
Proof.
  unfold deleteUser. unfold_ops2. crunch.
  all: lookups.
  all: intros ?; simplify_eq.
  all: eexists; split; [reflexivity|]; split; [eauto|].
  all: split; [|done].
  all: match goal with
       | H : (_ =? _) = false |- _ => apply String.eqb_neq in H; congruence
       end.
Qed.

(** X22: When [deleteUser] answers 200, the user was stored, the id of the
    request is not the caller's id as a string, and only that user is
    removed: the leads they created and the calls they made stay. *)
Theorem deleteUser_200 dr req w :
  code (deleteUser dr req w).1 = 200 →
  ∃ k,
    ObjectId.cast (ir_id req) = Some k
    ∧ is_Some (users w !! k)
    ∧ ir_id req ≠ _id (ir_user req)
    ∧ users (deleteUser dr req w).2 = delete k (users w)
    ∧ leads (deleteUser dr req w).2 = leads w
    ∧ calls (deleteUser dr req w).2 = calls w.
Proof. apply deleteUser_200_inv. Qed.

Lemma deleteUser_200_witness :
  ∃ k, users (deleteUser Demo.driver (mkIdReq Demo.boss Sample.tele2)
                Sample.worldWithCall).2
       = delete k (users Sample.worldWithCall)
       ∧ leads (deleteUser Demo.driver (mkIdReq Demo.boss Sample.tele2)
                  Sample.worldWithCall).2 = leads Sample.worldWithCall.
Proof.
  destruct (deleteUser_200 Demo.driver (mkIdReq Demo.boss Sample.tele2)
              Sample.worldWithCall)
    as (k & _ & _ & _ & Hu & Hl & _); [reflexivity|].
  exists k. split; [exact Hu|exact Hl].
Defined.

(** X23: A caller who asks to delete the user with their own id is answered
    400 and nothing changes. *)
Theorem deleteUser_own_id_is_400 dr req w k :
  dr_fails dr UserFindById = false →
  ObjectId.cast (ir_id req) = Some k →
  is_Some (users w !! k) →
  ir_id req = _id (ir_user req) →
  deleteUser dr req w
  = (jsonMessage 400 false "Cannot delete your own account", w).
Proof.
  intros Hf Hcast [u0 Hu] Hid. unfold deleteUser. unfold_ops2.
  rewrite Hf, Hcast. simpl. rewrite Hu, Hid. simpl.
  by rewrite String.eqb_refl.
Qed.

Lemma deleteUser_own_id_is_400_witness :
  deleteUser Demo.driver (mkIdReq Demo.boss Sample.boss) Sample.worldWithCall
  = (jsonMessage 400 false "Cannot delete your own account",
     Sample.worldWithCall).
Proof.
  apply (deleteUser_own_id_is_400 Demo.driver (mkIdReq Demo.boss Sample.boss)
           Sample.worldWithCall Sample.boss);
    [reflexivity|reflexivity|by eexists|reflexivity].
Defined.

(** X24: After a user is deleted, a telecaller who asks for a lead that user
    created is answered 500. *)
Theorem deleteUser_then_getLeadById_is_500 dr req w k l viewer :
  code (deleteUser dr req w).1 = 200 →
  ObjectId.cast (ir_id req) = Some (Lead.createdBy l) →
  fails (dr_env dr) LeadFindById = false →
  ObjectId.cast (ir_id viewer) = Some k →
  leads w !! k = Some l →
  role (ir_user viewer) = "telecaller" →
  code (getLeadById dr viewer (deleteUser dr req w).2).1 = 500.
Proof.
  intros H200 Hcast Hf Hcastv Hk Hr.
  destruct (deleteUser_200_inv dr req w H200) as (k' & Hc' & _ & _ & Hu & Hl & _).
  rewrite Hcast in Hc'. injection Hc' as <-.
  apply (getLeadById_creator_gone dr viewer _ k l); try done.
  - by rewrite Hl.
  - rewrite Hu. apply lookup_delete_eq.
Qed.

Lemma deleteUser_then_getLeadById_is_500_witness :
  code (getLeadById Demo.driver (mkIdReq Demo.tele2 Sample.lead1)
          (deleteUser Demo.driver (mkIdReq Demo.boss Sample.tele1)
             Sample.worldWithCall).2).1 = 500.
Proof.
  apply (deleteUser_then_getLeadById_is_500 Demo.driver
           (mkIdReq Demo.boss Sample.tele1) Sample.worldWithCall Sample.lead1
           (Sample.lead "contacted") (mkIdReq Demo.tele2 Sample.lead1));
    reflexivity.
Defined.

(** ** getUserStats *)

Lemma filter_user_query k st since (cs : list Call.t) :
  filter (λ c, matchesCall (mkCallQuery (Some k) st since) c) cs
  = filter (λ c, matchesCall (mkCallQuery None st since) c) (callsOfUser k cs).
Proof.
  unfold callsOfUser. rewrite list_filter_filter. apply list_filter_iff.
  intros c. unfold matchesCall. simpl.
  rewrite !Is_true_true, !andb_true_iff, String.eqb_eq. tauto.
Qed.

Lemma filter_connected_query (cs : list Call.t) :
  filter (λ c, matchesCall (mkCallQuery None (Some "connected") None) c) cs
  = connectedOf cs.
Proof.
  apply list_filter_iff. intros c. unfold matchesCall. simpl.
  by rewrite andb_true_r.
Qed.

Lemma filter_since_query t (cs : list Call.t) :
  filter (λ c, matchesCall (mkCallQuery None None (Some (t, None))) c) cs
  = callsSince t cs.
Proof.
  apply list_filter_iff. intros c. unfold matchesCall. simpl.
  rewrite andb_true_r, Is_true_true. apply Z.leb_le.
Qed.

Lemma filter_all_query (cs : list Call.t) :
  filter (λ c, matchesCall (mkCallQuery None None None) c) cs = cs.
Proof.
  induction cs as [|c cs IH]; [done|].
  rewrite filter_cons_True by done. by rewrite IH.
Qed.

(** X25: When [getUserStats] answers 200, the user is stored and the caller is
    that user (by the id as a string) or an admin; the three counts are
    the user's calls, the connected ones, and the ones of the last seven
    days, so neither exceeds the total; the rate is '0%' for a user
    without calls; the store is untouched. *)
Theorem getUserStats_200 dr req w :
  code (getUserStats dr req w).1 = 200 →
  ∃ k s,
    ObjectId.cast (ir_id req) = Some k
    ∧ is_Some (users w !! k)
    ∧ (ir_id req = _id (ir_user req) ∨ role (ir_user req) = "admin")
    ∧ data (getUserStats dr req w).1 = Some s
    ∧ (getUserStats dr req w).2 = w
    ∧ us_totalCalls s = length (callsOfUser k (calls w))
    ∧ us_connectedCalls s = length (connectedOf (callsOfUser k (calls w)))
    ∧ us_callsThisWeek s
      = length (callsSince (Date.addDays (now (dr_env dr)) (-7))
                  (callsOfUser k (calls w)))
    ∧ (us_connectedCalls s ≤ us_totalCalls s)%nat
    ∧ (us_callsThisWeek s ≤ us_totalCalls s)%nat
    ∧ us_connectionRate s = roundedRateOf (us_totalCalls s) (us_connectedCalls s)
    ∧ (us_totalCalls s = 0%nat → us_connectionRate s = "0%").
Proof.
  unfold getUserStats. unfold_ops2.
  destruct (dr_fails dr UserFindById); [simpl; discriminate|].
  destruct (ObjectId.cast (ir_id req)) as [k|]; [|simpl; discriminate]. simpl.
  destruct (users w !! k) as [u0|] eqn:Hu; [|simpl; discriminate]. simpl.
  destruct (negb _ && negb _) eqn:Hauth; [simpl; discriminate|].
  destruct (fails _ CallCountDocuments); [simpl; discriminate|].
  destruct (fails _ CallCountConnected); [simpl; discriminate|].
  destruct (dr_fails dr CallCountThisWeek); [simpl; discriminate|].
  cbn [fst snd code]. intros _.
  rewrite !(filter_user_query k), filter_connected_query, filter_since_query,
    filter_all_query.
  eexists k, _. split; [done|]. split; [eauto|]. split.
  { apply andb_false_iff in Hauth as [H|H]; apply negb_false_iff in H;
      apply String.eqb_eq in H; auto. }
  split; [reflexivity|]. cbn [us_totalCalls us_connectedCalls us_callsThisWeek
                               us_connectionRate].
  repeat split; try apply length_filter.
  intros E. unfold roundedRateOf. by rewrite E.
Qed.

Lemma getUserStats_200_witness :
  ∃ s, data (getUserStats Demo.driver (mkIdReq Demo.tele1 Sample.tele1)
               Sample.worldWithCall).1 = Some s
       ∧ (us_connectedCalls s ≤ us_totalCalls s)%nat
       ∧ us_connectionRate s
         = roundedRateOf (us_totalCalls s) (us_connectedCalls s).
Proof.
  destruct (getUserStats_200 Demo.driver (mkIdReq Demo.tele1 Sample.tele1)
              Sample.worldWithCall)
    as (k & s & _ & _ & _ & Hd & _ & _ & _ & _ & Hle & _ & Hr & _);
    [reflexivity|].
  exists s. split; [exact Hd|]. split; [exact Hle|exact Hr].
Defined.

Lemma getUserStats_forbidden dr req w k :
  dr_fails dr UserFindById = false →
  ObjectId.cast (ir_id req) = Some k →
  is_Some (users w !! k) →
  ir_id req ≠ _id (ir_user req) →
  role (ir_user req) ≠ "admin" →
  getUserStats dr req w
  = (jsonMessage 403 false "Not authorized to view stats", w).
Proof.
  intros Hf Hcast [u0 Hu] Hid%not_eq_sym%String.eqb_neq Hr%String.eqb_neq.
  unfold getUserStats. unfold_ops2.
  rewrite Hf, Hcast. simpl. rewrite Hu. simpl. by rewrite Hid, Hr.
Qed.

(** ** How the handlers compose *)

Lemma fst_pairing {A B} (f : A → B) (l : list A) :
  fst <$> ((λ x, (x, f x)) <$> l) = l.
Proof. induction l as [|x l IH]; [done|]. by rewrite !fmap_cons, IH. Qed.

(** X26: A lead that [createLead] answered 201 for can be read back by its
    creator: [getLeadById] with the new id answers the same lead, with
    the same creator. *)
Theorem createLead_then_getLeadById dr req w :
  code (createLead dr req w).1 = 201 →
  ObjectId.cast (dr_newId dr) = Some (dr_newId dr) →
  fails (dr_env dr) LeadFindById = false →
  dr_fails dr CallFind = false →
  is_Some (users w !! _id (cl_user req)) →
  ∃ l r,
    data (createLead dr req w).1
    = Some (mkCreatedLead (dr_newId dr) l (userRef w (_id (cl_user req))))
    ∧ data (getLeadById dr (mkIdReq (cl_user req) (dr_newId dr))
              (createLead dr req w).2).1 = Some r
    ∧ pl_id (lw_lead r) = dr_newId dr
    ∧ pl_lead (lw_lead r) = l
    ∧ pl_createdBy (lw_lead r) = userRef w (_id (cl_user req))
    ∧ fst <$> lw_calls r ≡ₚ callsOfLead (dr_newId dr) (calls w).
Proof.
  intros H201 Hcast Hf Hcf [cu Hcu].
  destruct (createLead_201_inv dr req w H201)
    as (l & Hfree & Hleads & Hcalls & Husers & Hdata & Hown & _).
  exists l.
  set (w' := (createLead dr req w).2) in *.
  assert (leads w' !! dr_newId dr = Some l) as Hl
    by (rewrite Hleads; apply lookup_insert_eq).
  unfold getLeadById, populateLead. unfold_ops2.
  rewrite Hf. cbn [ir_id ir_user]. rewrite Hcast. simpl. rewrite Hl. simpl.
  rewrite Husers, Hown, Hcu. simpl. rewrite String.eqb_refl.
  destruct (role (cl_user req) =? "telecaller"); simpl; rewrite Hcf; simpl.
  all: eexists; split; [exact Hdata|]; split; [reflexivity|]; simpl.
  all: unfold userRef; rewrite Hcu; repeat split; try done.
  all: rewrite fst_pairing, filter_lead, Hcalls; apply merge_sort_Permutation.
Qed.

Lemma createLead_then_getLeadById_witness :
  ∃ l r,
    data (createLead Demo.driver (mkCreateLeadReq Demo.tele1 Demo.leadBody)
            (Sample.world "new")).1
    = Some (mkCreatedLead Demo.newLeadId l
              (userRef (Sample.world "new") Sample.tele1))
    ∧ data (getLeadById Demo.driver (mkIdReq Demo.tele1 Demo.newLeadId)
              (createLead Demo.driver
                 (mkCreateLeadReq Demo.tele1 Demo.leadBody)
                 (Sample.world "new")).2).1 = Some r
    ∧ pl_lead (lw_lead r) = l.
Proof.
  destruct (createLead_then_getLeadById Demo.driver
              (mkCreateLeadReq Demo.tele1 Demo.leadBody) (Sample.world "new"))
    as (l & r & Hd & Hr & _ & Hl & _); [reflexivity..|by eexists|].
  exists l, r. split; [exact Hd|]. split; [exact Hr|exact Hl].
Defined.

(** X27: After [deleteLead] answered 200 the lead is unknown to the other
    handlers: no call of it is left, [getCallsByLead] answers 404, and so
    does [createCall] for a valid body that names it. *)
Theorem deleteLead_then_lead_is_unknown dr req w :
  code (deleteLead dr req w).1 = 200 →
  fails (dr_env dr) LeadFindById = false →
  ∃ k,
    ObjectId.cast (ir_id req) = Some k
    ∧ leads (deleteLead dr req w).2 !! k = None
    ∧ callsOfLead k (calls (deleteLead dr req w).2) = []
    ∧ (∀ viewer, ObjectId.cast (ir_id viewer) = Some k →
         getCallsByLead dr viewer (deleteLead dr req w).2
         = (jsonMessage 404 false "Lead not found", (deleteLead dr req w).2))
    ∧ (∀ creq,
         CallValidation.run (cr_body creq) = [] →
         ObjectId.cast (CallValidation.str (CallBody.lead (cr_body creq))) = Some k →
         createCall (dr_env dr) creq (deleteLead dr req w).2
         = (jsonMessage 404 false "Lead not found", (deleteLead dr req w).2)).
Proof.
  intros H200 Hf.
  destruct (deleteLead_200_inv dr req w H200) as (k & l & Hcast & _ & _ & Hl & Hc & _).
  exists k. split; [done|].
  assert (leads (deleteLead dr req w).2 !! k = None) as Hgone
    by (rewrite Hl; apply lookup_delete_eq).
  split; [done|]. split; [|split].
  - rewrite Hc. unfold callsOfLead. rewrite list_filter_filter. clear Hc.
    induction (calls w) as [|c cs IH]; [done|].
    rewrite filter_cons_False; [exact IH|tauto].
  - intros viewer Hv.
    by apply (getCallsByLead_refused dr viewer _ k Hf Hv).
  - intros creq Hv Hk. by apply createCall_unknown_lead_404 with k.
Qed.

Lemma deleteLead_then_lead_is_unknown_witness :
  ∃ k, ObjectId.cast Sample.lead1 = Some k
       ∧ leads (deleteLead Demo.driver (mkIdReq Demo.tele1 Sample.lead1)
                  Sample.worldWithCall).2 !! k = None
       ∧ callsOfLead k
           (calls (deleteLead Demo.driver (mkIdReq Demo.tele1 Sample.lead1)
                     Sample.worldWithCall).2) = [].
Proof.
  destruct (deleteLead_then_lead_is_unknown Demo.driver
              (mkIdReq Demo.tele1 Sample.lead1) Sample.worldWithCall)
    as (k & Hk & Hl & Hc & _); [reflexivity..|].
  exists k. split; [exact Hk|]. split; [exact Hl|exact Hc].
Defined.

(** X28: A call that [createCall] answered 201 for is among the calls
    [getCallsByLead] answers the same caller with for that lead. *)
Theorem createCall_then_getCallsByLead dr req w :
  code (createCall (dr_env dr) req w).1 = 201 →
  fails (dr_env dr) LeadFindById = false →
  dr_fails dr CallFind = false →
  ∃ p rows,
    data (createCall (dr_env dr) req w).1 = Some p
    ∧ data (getCallsByLead dr
              (mkIdReq (cr_user req)
                 (CallValidation.str (CallBody.lead (cr_body req))))
              (createCall (dr_env dr) req w).2).1 = Some rows
    ∧ pc_call p ∈ fst <$> rows.
Proof.
  intros H201 Hf Hcf.
  destruct (createCall_201_inv _ req w H201)
    as (k & l & p & Hcast & Hk & Hauth & Hdata & Hcalls & Hlead & _).
  destruct (createCall_leads (dr_env dr) req w k l Hk) as (l' & Hk' & Hown & _).
  exists p. set (w' := (createCall (dr_env dr) req w).2) in *.
  unfold getCallsByLead. unfold_ops2.
  rewrite Hf. cbn [ir_id ir_user]. rewrite Hcast. simpl. rewrite Hk'. simpl.
  assert ((role (cr_user req) =? "telecaller")
          && negb (Lead.createdBy l' =? _id (cr_user req)) = false) as ->.
  { destruct (String.eqb_spec (role (cr_user req)) "telecaller") as [Hr|Hr];
      [|done]. simpl. rewrite Hown, (Hauth Hr). by rewrite String.eqb_refl. }
  rewrite Hcf. simpl. eexists. split; [done|]. split; [reflexivity|].
  rewrite fst_userRows, filter_lead, merge_sort_Permutation.
  apply list_elem_of_filter. split; [done|].
  rewrite Hcalls. apply elem_of_app. right. by apply list_elem_of_singleton.
Qed.

Lemma createCall_then_getCallsByLead_witness :
  ∃ p rows,
    data (createCall Sample.env (Sample.asTele1 Sample.connectedInterested)
            (Sample.world "new")).1 = Some p
    ∧ data (getCallsByLead Demo.driver (mkIdReq Demo.tele1 Sample.lead1)
              (createCall Sample.env
                 (Sample.asTele1 Sample.connectedInterested)
                 (Sample.world "new")).2).1 = Some rows
    ∧ pc_call p ∈ fst <$> rows.
Proof.
  apply (createCall_then_getCallsByLead Demo.driver
           (Sample.asTele1 Sample.connectedInterested) (Sample.world "new"));
    reflexivity.
Defined.

(** ** getDashboardStats: what the other counts count *)

Lemma length_filter_fmap {A B} (f : A → B) (P : B → bool) (l : list A) :
  length (filter (λ x, P x) (f <$> l)) = length (filter (λ x, P (f x)) l).
Proof.
  induction l as [|x l IH]; [done|].
  rewrite fmap_cons, !filter_cons. destruct (P (f x)); simpl; by rewrite IH.
Qed.

Lemma filter_all {A} (P : A → Prop) `{!∀ x, Decision (P x)} (l : list A) :
  (∀ x, P x) → filter P l = l.
Proof.
  intros HP. induction l as [|x l IH]; [done|].
  rewrite filter_cons_True by apply HP. by rewrite IH.
Qed.

Lemma count_by_owner (P : string → bool) (m m' : gmap string Lead.t) :
  Lead.createdBy <$> m' = Lead.createdBy <$> m →
  length (filter (λ d : string * Lead.t, P (Lead.createdBy d.2)) (map_to_list m'))
  = length (filter (λ d : string * Lead.t, P (Lead.createdBy d.2)) (map_to_list m)).
Proof.
  intros Heq.
  rewrite <- !(length_filter_fmap (prod_map id Lead.createdBy)
                 (λ d : string * string, P d.2)).
  rewrite <- !map_to_list_fmap. by rewrite Heq.
Qed.

Lemma matchesLead_owner u l :
  matchesLead (mkLeadQuery None None
                 (if role u =? "telecaller" then Some (_id u) else None)) l
  = ownLead u l.
Proof.
  unfold matchesLead, ownLead. simpl. by destruct (role u =? "telecaller").
Qed.

Lemma createCall_owners env req w :
  Lead.createdBy <$> leads (createCall env req w).2 = Lead.createdBy <$> leads w.
Proof.
  apply map_eq. intros k. rewrite !lookup_fmap.
  destruct (leads w !! k) as [l|] eqn:Hk.
  - destruct (createCall_leads env req w k l Hk) as (l' & -> & Ho & _).
    simpl. by rewrite Ho.
  - unfold createCall.
    destruct (CallValidation.run _) eqn:Hv; [|simpl; by rewrite Hk].
    unfold_ops. crunch.
    all: try by rewrite Hk.
    all: lookups; try by rewrite Hk.
    all: congruence.
Qed.

Lemma getDashboardStats_200_inv env u w :
  code (getDashboardStats env u w).1 = 200 →
  ∃ stats,
    getDashboardStats env u w = (jsonData 200 stats, w)
    ∧ totalLeads stats
      = length (filter (λ d : string * Lead.t, ownLead u d.2)
                  (map_to_list (leads w)))
    ∧ totalCalls stats = length (filter (λ c, inScope u c) (calls w))
    ∧ connectedCalls stats
      = length (filter (λ c, inScope u c && (Call.status c =? "connected"))
                  (calls w))
    ∧ totalTelecallers stats
      = length (filter (λ d : string * User.t, User.role d.2 =? "telecaller")
                  (map_to_list (users w))).
Proof.
  unfold getDashboardStats, Lead_countDocuments, Call_countDocuments,
    User_countDocuments. unfold_ops.
  destruct (fails env LeadCountDocuments); [discriminate|].
  destruct (fails env CallCountDocuments); [discriminate|].
  destruct (fails env CallCountConnected); [discriminate|].
  destruct (fails env UserCountDocuments); [discriminate|].
  intros _. cbn [fst snd]. eexists. split; [reflexivity|].
  cbn [totalLeads totalCalls connectedCalls totalTelecallers].
  split.
  { f_equal. apply list_filter_iff. intros d. by rewrite matchesLead_owner. }
  split.
  { rewrite (count_scope u None w). f_equal. apply list_filter_iff.
    intros c. by rewrite andb_true_r. }
  split; [exact (count_scope u (Some "connected") w)|done].
Qed.

(** X29: When [getDashboardStats] answers 200 the store is untouched and the
    counts are: for a telecaller, the leads they created and the calls
    they made; for any other role, every stored lead and call; in both
    cases the connected calls among those calls, and the telecallers of
    the whole store, whoever asks. *)
Theorem getDashboardStats_counts env u w :
  code (getDashboardStats env u w).1 = 200 →
  ∃ stats,
    getDashboardStats env u w = (jsonData 200 stats, w)
    ∧ (role u = "telecaller" →
       totalLeads stats
       = length (filter (λ d : string * Lead.t, Lead.createdBy d.2 = _id u)
                   (map_to_list (leads w)))
       ∧ totalCalls stats = length (callsOfUser (_id u) (calls w)))
    ∧ (role u ≠ "telecaller" →
       totalLeads stats = size (leads w)
       ∧ totalCalls stats = length (calls w))
    ∧ connectedCalls stats
      = length (connectedOf (filter (λ c, inScope u c) (calls w)))
    ∧ (connectedCalls stats ≤ totalCalls stats)%nat
    ∧ totalTelecallers stats
      = length (filter (λ d : string * User.t, User.role d.2 = "telecaller")
                  (map_to_list (users w))).
Proof.
  intros H. destruct (getDashboardStats_200_inv env u w H)
    as (stats & Hrun & Hl & Hc & Hcc & Ht).
  exists stats. split; [exact Hrun|].
  assert (connectedCalls stats
          = length (connectedOf (filter (λ c, inScope u c) (calls w)))) as Hcc'.
  { rewrite Hcc. unfold connectedOf. rewrite list_filter_filter.
    f_equal. apply list_filter_iff. intros c.
    rewrite andb_True. tauto. }
  split; [|split; [|split; [exact Hcc'|split]]].
  - intros Hr. apply String.eqb_eq in Hr. rewrite Hl, Hc.
    unfold inScope, ownLead. rewrite Hr. split; f_equal; apply list_filter_iff; intros x;
      (split; [intros Hx%Is_true_true%String.eqb_eq|intros ->]);
      try done; by rewrite String.eqb_refl.
  - intros Hr. apply String.eqb_neq in Hr. rewrite Hl, Hc.
    unfold inScope, ownLead. rewrite Hr. split.
    + rewrite <- length_map_to_list. f_equal. by apply filter_all.
    + f_equal. by apply filter_all.
  - rewrite Hcc', Hc. apply length_filter.
  - rewrite Ht. f_equal. apply list_filter_iff. intros d.
    split; [intros Hx%Is_true_true%String.eqb_eq; exact Hx|].
    intros ->. by rewrite String.eqb_refl.
Qed.

Lemma getDashboardStats_counts_witness :
  ∃ stats,
    getDashboardStats Sample.env Demo.tele2 Sample.worldWithCall
    = (jsonData 200 stats, Sample.worldWithCall)
    ∧ (connectedCalls stats ≤ totalCalls stats)%nat.
Proof.
  destruct (getDashboardStats_counts Sample.env Demo.tele2 Sample.worldWithCall)
    as (stats & Hrun & _ & _ & _ & Hle & _); [reflexivity|].
  exists stats. split; [exact Hrun|exact Hle].
Defined.

(** X30: A call that [createCall] answered 201 for shows on the caller's
    dashboard: one more call, one more connected call exactly when the
    call was connected, and the same numbers of leads and telecallers,
    although the call may have moved the lead to another status. *)
Theorem createCall_then_getDashboardStats env req w :
  code (createCall env req w).1 = 201 →
  code (getDashboardStats env (cr_user req) w).1 = 200 →
  ∃ before after,
    getDashboardStats env (cr_user req) w = (jsonData 200 before, w)
    ∧ getDashboardStats env (cr_user req) (createCall env req w).2
      = (jsonData 200 after, (createCall env req w).2)
    ∧ totalCalls after = S (totalCalls before)
    ∧ connectedCalls after
      = (connectedCalls before
         + (if (CallValidation.str (CallBody.status (cr_body req))
                =? "connected")%string
            then 1 else 0))%nat
    ∧ totalLeads after = totalLeads before
    ∧ totalTelecallers after = totalTelecallers before.
Proof.
  intros H201 H200.
  destruct (createCall_201_inv env req w H201)
    as (k & l & p & _ & _ & _ & _ & Hcalls & _ & Huser & _ & Hstatus & _).
  destruct (createCall_calls env req w) as [Husers _].
  pose proof (createCall_owners env req w) as Howners.
  destruct (getDashboardStats_200_inv env (cr_user req) w H200)
    as (before & Hb & Hbl & Hbc & Hbcc & Hbt).
  assert (code (getDashboardStats env (cr_user req)
                  (createCall env req w).2).1 = 200) as H200'.
  { revert H200. unfold getDashboardStats, Lead_countDocuments,
      Call_countDocuments, User_countDocuments. unfold_ops.
    by repeat case_match. }
  destruct (getDashboardStats_200_inv env (cr_user req) _ H200')
    as (after & Ha & Hal & Hac & Hacc & Hat).
  exists before, after. split; [exact Hb|]. split; [exact Ha|].
  assert (inScope (cr_user req) (pc_call p) = true) as Hin.
  { unfold inScope. rewrite Huser. rewrite String.eqb_refl. by case_match. }
  split; [|split; [|split]].
  - rewrite Hac, Hbc, Hcalls, filter_app, length_app.
    rewrite filter_cons_True by (by rewrite Hin). simpl. lia.
  - rewrite Hacc, Hbcc, Hcalls, filter_app, length_app. f_equal.
    rewrite filter_cons, Hin, Hstatus. simpl.
    by destruct (_ =? "connected").
  - rewrite Hal, Hbl.
    apply (count_by_owner
             (λ o, if role (cr_user req) =? "telecaller"
                   then o =? _id (cr_user req) else true) _ _ Howners).
  - by rewrite Hat, Hbt, Husers.
Qed.

Lemma createCall_then_getDashboardStats_witness :
  ∃ before after,
    getDashboardStats Sample.env Demo.tele1 (Sample.world "new")
    = (jsonData 200 before, Sample.world "new")
    ∧ getDashboardStats Sample.env Demo.tele1
        (createCall Sample.env (Sample.asTele1 Sample.connectedInterested)
           (Sample.world "new")).2
      = (jsonData 200 after,
         (createCall Sample.env (Sample.asTele1 Sample.connectedInterested)
            (Sample.world "new")).2)
    ∧ totalCalls after = S (totalCalls before).
Proof.
  destruct (createCall_then_getDashboardStats Sample.env
              (Sample.asTele1 Sample.connectedInterested) (Sample.world "new"))
    as (before & after & Hb & Ha & Hc & _); [reflexivity..|].
  exists before, after. split; [exact Hb|]. split; [exact Ha|exact Hc].
Defined.
